(** * Story Sentinel: a shallow embedding of the upgrade core and its properties

    The development follows the layout of the Python package [sentinel]:

    - [Py]        the fragment of the Python run time the package relies on
                  (exceptions, [str] methods, [int()], [datetime], [timedelta]);
    - [Watcher]   [sentinel/watcher.py]: the [Version] value and its ordering;
    - [Health]    [sentinel/health.py]: the consensus-client probe;
    - [Runner]    [sentinel/runner.py]: the upgrade orchestration;
    - [Scheduler] [sentinel/scheduler.py]: the persisted upgrade queue.

    Part I holds the definitions, Part II the properties.

    Modelling conventions.  Python [str] values are Rocq strings (8-bit
    characters: version tags, timestamps and service names are ASCII).  Python
    integers are [Z]; a [float] is the rational it denotes, with exact
    arithmetic.  A call that can raise returns a [result]; only subclasses of
    [Exception] are modelled.  Logging has no effect on the results and is
    left out. *)

From Stdlib Require Import ZArith QArith_base List String Ascii Bool Lia.
From Stdlib Require Import Permutation.
Import ListNotations.

#[local] Open Scope string_scope.
#[local] Open Scope list_scope.
#[local] Open Scope Z_scope.

(* ################################################################# *)
(** * Part I: the model *)

(* ================================================================= *)
(** ** The Python fragment *)

Module Py.

(** Exceptions carry their class and the text [str(e)] yields. *)
Inductive exn_class : Type :=
| Exception | TypeError | ValueError | KeyError | AttributeError
| OverflowError | OSError | TimeoutExpired.

Record exn : Type := mkExn { exn_cls : exn_class; exn_str : string }.

Inductive result (A : Type) : Type :=
| Ok (a : A)
| Raise (e : exn).
Arguments Ok {A} a.
Arguments Raise {A} e.

Definition rbind {A B} (r : result A) (k : A -> result B) : result B :=
  match r with
  | Ok a => k a
  | Raise e => Raise e
  end.

Definition raise {A} (c : exn_class) (msg : string) : result A :=
  Raise (mkExn c msg).

Declare Scope result_scope.
Delimit Scope result_scope with result.
Notation "x <- c ;; k" := (rbind c (fun x => k))
  (at level 61, c at next level, right associativity) : result_scope.
Notation "' p <- c ;; k" := (rbind c (fun x => match x with p => k end))
  (at level 61, p pattern, c at next level, right associativity) : result_scope.

(** *** Characters and [str] methods *)

Definition is_digit (c : ascii) : bool :=
  let n := nat_of_ascii c in (48 <=? n)%nat && (n <=? 57)%nat.

(** [str.isspace] on one ASCII character: tab, LF, VT, FF, CR, FS..US, space. *)
Definition is_space (c : ascii) : bool :=
  let n := nat_of_ascii c in
  ((9 <=? n)%nat && (n <=? 13)%nat) || ((28 <=? n)%nat && (n <=? 32)%nat).

Definition digit_val (c : ascii) : Z := Z.of_nat (nat_of_ascii c) - 48.
Definition digit_char (d : Z) : ascii := ascii_of_nat (Z.to_nat (48 + d)).

Fixpoint mem_char (c : ascii) (cs : string) : bool :=
  match cs with
  | EmptyString => false
  | String c' cs' => Ascii.eqb c c' || mem_char c cs'
  end.

(** [s.lstrip(chars)] *)
Fixpoint lstrip (chars : string) (s : string) : string :=
  match s with
  | EmptyString => EmptyString
  | String c s' => if mem_char c chars then lstrip chars s' else s
  end.

Fixpoint lstrip_space (s : string) : string :=
  match s with
  | EmptyString => EmptyString
  | String c s' => if is_space c then lstrip_space s' else s
  end.

Fixpoint rev_string (acc s : string) : string :=
  match s with
  | EmptyString => acc
  | String c s' => rev_string (String c acc) s'
  end.

(** [s.strip()] *)
Definition strip (s : string) : string :=
  rev_string "" (lstrip_space (rev_string "" (lstrip_space s))).

(** [re.findall(r'\d+', s)]: the maximal runs of digits, left to right.
    [cur] is the run being read. *)
Fixpoint findall_digits_from (cur : string) (s : string) : list string :=
  match s with
  | EmptyString => if String.eqb cur "" then [] else [cur]
  | String c s' =>
      if is_digit c then findall_digits_from (cur ++ String c "")%string s'
      else if String.eqb cur "" then findall_digits_from "" s'
      else cur :: findall_digits_from "" s'
  end.

Definition findall_digits (s : string) : list string :=
  findall_digits_from "" s.

(** Value of a run of decimal digits, most significant first. *)
Fixpoint int_digits (acc : Z) (s : string) : Z :=
  match s with
  | EmptyString => acc
  | String c s' => int_digits (10 * acc + digit_val c) s'
  end.

(** The digits-and-underscores body of an integer literal accepted by
    [int(str)]: a digit first, then digits, each optionally preceded by one
    underscore. [prev_digit] tells whether the previous character was a digit. *)
Fixpoint int_body (prev_digit : bool) (acc : Z) (s : string) : option Z :=
  match s with
  | EmptyString => if prev_digit then Some acc else None
  | String c s' =>
      if is_digit c then int_body true (10 * acc + digit_val c) s'
      else if Ascii.eqb c "_" then
             (if prev_digit then int_body false acc s' else None)
      else None
  end.

(** [int(s)] for a [str] argument, base 10. *)
Definition int_of_str (s : string) : result Z :=
  let bad := raise ValueError ("invalid literal for int() with base 10: '" ++ s ++ "'")%string in
  let t := strip s in
  let '(neg, body) :=
    match t with
    | String c r =>
        if Ascii.eqb c "-" then (true, r)
        else if Ascii.eqb c "+" then (false, r)
        else (false, t)
    | EmptyString => (false, t)
    end in
  match body with
  | EmptyString => bad
  | String c _ =>
      if is_digit c then
        match int_body false 0 body with
        | Some n => Ok (if neg then - n else n)
        | None => bad
        end
      else bad
  end.

(** Comparison of two tuples of integers ([a > b]): the first position where
    they differ decides; when one is a prefix of the other the longer one is
    the greater. *)
Fixpoint tuple_gt (a b : list Z) : bool :=
  match a, b with
  | x :: a', y :: b' => if x =? y then tuple_gt a' b' else y <? x
  | _ :: _, [] => true
  | [], _ => false
  end.

(** *** Decimal formatting

    [dec_fixed w n] writes the [w] low decimal digits of [n]; [ndigits n] is
    the number of digits of [n >= 0].  ["%d" % n] is [dec_fixed (ndigits n) n]
    and ["%0wd" % n] pads it with zeros on the left up to width [w]. *)
Fixpoint dec_fixed (w : nat) (n : Z) : string :=
  match w with
  | O => ""
  | S w' => (dec_fixed w' (n / 10) ++ String (digit_char (n mod 10)) "")%string
  end.

Fixpoint ndigits_fuel (fuel : nat) (n : Z) : nat :=
  match fuel with
  | O => 1
  | S f => if n <? 10 then 1%nat else S (ndigits_fuel f (n / 10))
  end.

Definition ndigits (n : Z) : nat := ndigits_fuel (Z.to_nat (Z.log2 n)) n.

Definition fmt_0wd (w : nat) (n : Z) : string :=
  if n <? 0 then ("-" ++ dec_fixed (Nat.max (w - 1) (ndigits (- n))) (- n))%string
  else dec_fixed (Nat.max w (ndigits n)) n.

Definition fmt_d (n : Z) : string := fmt_0wd 1 n.

(** Read exactly [k] decimal digits from the front of [s]. *)
Fixpoint parse_digits (k : nat) (acc : Z) (s : string) : option (Z * string) :=
  match k with
  | O => Some (acc, s)
  | S k' =>
      match s with
      | String c s' =>
          if is_digit c then parse_digits k' (10 * acc + digit_val c) s'
          else None
      | EmptyString => None
      end
  end.

Fixpoint take (n : nat) (s : string) : string :=
  match n, s with
  | S n', String c s' => String c (take n' s')
  | _, _ => ""
  end.

Fixpoint drop (n : nat) (s : string) : string :=
  match n, s with
  | S n', String c s' => drop n' s'
  | _, _ => s
  end.

(** [s.find(c)] for a one-character needle. *)
Fixpoint find_char (c : ascii) (s : string) : option nat :=
  match s with
  | EmptyString => None
  | String c' s' =>
      if Ascii.eqb c c' then Some O else option_map S (find_char c s')
  end.

(** [s.startswith(sub)] *)
Fixpoint startswith (sub s : string) : bool :=
  match sub, s with
  | EmptyString, _ => true
  | String a sub', String b s' => Ascii.eqb a b && startswith sub' s'
  | String _ _, EmptyString => false
  end.

(** [sub in s] *)
Fixpoint contains (sub s : string) : bool :=
  startswith sub s ||
  match s with
  | EmptyString => false
  | String _ s' => contains sub s'
  end.

(** [s.replace(old, new)] for a one-character [old]. *)
Fixpoint replace_char (old : ascii) (new : string) (s : string) : string :=
  match s with
  | EmptyString => ""
  | String c s' =>
      if Ascii.eqb c old then (new ++ replace_char old new s')%string
      else String c (replace_char old new s')
  end.

(** [s.split(sep)] for a one-character separator. *)
Fixpoint split_char (sep : ascii) (cur : string) (s : string) : list string :=
  match s with
  | EmptyString => [cur]
  | String c s' =>
      if Ascii.eqb c sep then cur :: split_char sep "" s'
      else split_char sep (cur ++ String c "")%string s'
  end.

(** [s.count(sub)]: non-overlapping occurrences, left to right.  [skip]
    counts the characters of the last match still to be passed over. *)
Fixpoint count_from (sub : string) (skip : nat) (s : string) : Z :=
  match s with
  | EmptyString => 0
  | String _ s' =>
      match skip with
      | S k => count_from sub k s'
      | O =>
          if startswith sub s
          then 1 + count_from sub (String.length sub - 1) s'
          else count_from sub O s'
      end
  end.

Definition count (sub s : string) : Z := count_from sub O s.

(** *** [timedelta]

    A [timedelta] is a signed number of microseconds; Python keeps it
    normalised as days, seconds in [0, 86400) and microseconds in [0, 10^6). *)
Definition US_PER_SECOND : Z := 1000000.
Definition US_PER_MINUTE : Z := 60000000.
Definition US_PER_HOUR : Z := 3600000000.
Definition US_PER_DAY : Z := 86400000000.

Definition timedelta : Type := Z.

Definition td_days (t : timedelta) : Z := t / US_PER_DAY.
Definition td_seconds (t : timedelta) : Z := (t mod US_PER_DAY) / US_PER_SECOND.
Definition td_microseconds (t : timedelta) : Z := t mod US_PER_SECOND.

(** [timedelta(days=d, hours=h, minutes=m, seconds=s)] with integer arguments. *)
Definition mk_timedelta (days hours minutes seconds : Z) : result timedelta :=
  let t := (((days * 24 + hours) * 60 + minutes) * 60 + seconds) * US_PER_SECOND in
  if 999999999 <? Z.abs (td_days t)
  then raise OverflowError
         ("days=" ++ fmt_d (td_days t) ++ "; must have magnitude <= 999999999")%string
  else Ok t.

Definition minutes (m : Z) : timedelta := m * US_PER_MINUTE.
Definition days (d : Z) : timedelta := d * US_PER_DAY.
Arguments minutes m : simpl never.
Arguments days d : simpl never.

(** [str(td)] *)
Definition str_timedelta (t : timedelta) : string :=
  let mm := td_seconds t / 60 in
  let ss := td_seconds t mod 60 in
  let hh := mm / 60 in
  let mm := mm mod 60 in
  let s := (fmt_d hh ++ ":" ++ fmt_0wd 2 mm ++ ":" ++ fmt_0wd 2 ss)%string in
  let plural := if Z.abs (td_days t) =? 1 then "" else "s" in
  let s :=
    if td_days t =? 0 then s
    else (fmt_d (td_days t) ++ " day" ++ plural ++ ", " ++ s)%string in
  if td_microseconds t =? 0 then s
  else (s ++ "." ++ fmt_0wd 6 (td_microseconds t))%string.

(** *** The proleptic Gregorian calendar of [datetime] *)

Definition MINYEAR : Z := 1.
Definition MAXYEAR : Z := 9999.
Definition _MAXORDINAL : Z := 3652059.

Definition _is_leap (year : Z) : bool :=
  (year mod 4 =? 0) && (negb (year mod 100 =? 0) || (year mod 400 =? 0)).

Definition _days_before_year (year : Z) : Z :=
  let y := year - 1 in
  y * 365 + y / 4 - y / 100 + y / 400.

Definition _DAYS_IN_MONTH : list Z :=
  [-1; 31; 28; 31; 30; 31; 30; 31; 31; 30; 31; 30; 31].

Definition _DAYS_BEFORE_MONTH : list Z :=
  [-1; 0; 31; 59; 90; 120; 151; 181; 212; 243; 273; 304; 334].

Definition zidx (l : list Z) (i : Z) : Z := nth (Z.to_nat i) l 0.

Definition _days_in_month (year month : Z) : Z :=
  if (month =? 2) && _is_leap year then 29 else zidx _DAYS_IN_MONTH month.

Definition _days_before_month (year month : Z) : Z :=
  zidx _DAYS_BEFORE_MONTH month + (if (2 <? month) && _is_leap year then 1 else 0).

Definition _ymd2ord (year month day : Z) : Z :=
  _days_before_year year + _days_before_month year month + day.

Definition _DI400Y : Z := 146097.
Definition _DI100Y : Z := 36524.
Definition _DI4Y : Z := 1461.

(** The month and the day of the month of the day number [n] (from 0) of a
    year: an estimate of the month that is at most one too large, then its
    correction. *)
Definition _month_day (leapyear : bool) (n : Z) : Z * Z :=
  let month := Z.shiftr (n + 50) 5 in
  let preceding :=
    zidx _DAYS_BEFORE_MONTH month + (if (2 <? month) && leapyear then 1 else 0) in
  let '(month, preceding) :=
    if n <? preceding
    then (month - 1,
          preceding - (zidx _DAYS_IN_MONTH (month - 1)
                       + (if (month - 1 =? 2) && leapyear then 1 else 0)))
    else (month, preceding) in
  (month, n - preceding + 1).

Definition _ord2ymd (n : Z) : Z * Z * Z :=
  let n := n - 1 in
  let n400 := n / _DI400Y in
  let n := n mod _DI400Y in
  let year := n400 * 400 + 1 in
  let n100 := n / _DI100Y in
  let n := n mod _DI100Y in
  let n4 := n / _DI4Y in
  let n := n mod _DI4Y in
  let n1 := n / 365 in
  let n := n mod 365 in
  let year := year + n100 * 100 + n4 * 4 + n1 in
  if (n1 =? 4) || (n100 =? 4) then (year - 1, 12, 31)
  else
    let leapyear := (n1 =? 3) && (negb (n4 =? 24) || (n100 =? 3)) in
    let '(month, day) := _month_day leapyear n in
    (year, month, day).

(** The month tables read with the leap flag given, and the test that
    [_month_day] agrees with them on one day of the year. *)
Definition days_in (leap : bool) (m : Z) : Z :=
  if (m =? 2) && leap then 29 else zidx _DAYS_IN_MONTH m.

Definition days_before (leap : bool) (m : Z) : Z :=
  zidx _DAYS_BEFORE_MONTH m + (if (2 <? m) && leap then 1 else 0).

Definition month_day_ok (leap : bool) (n : Z) : bool :=
  let '(m, d) := _month_day leap n in
  (1 <=? m) && (m <=? 12) && (1 <=? d) && (d <=? days_in leap m) &&
  (days_before leap m + d =? n + 1).

(** *** [datetime]

    A [datetime] is the wall-clock reading, counted in microseconds since
    0001-01-01T00:00:00, together with the UTC offset of its [tzinfo] in
    microseconds ([None] for a naive value).  Python stores the calendar
    fields; they are recovered through [_ord2ymd]. *)
Record datetime : Type := mkDatetime {
  dt_us : Z;
  dt_off : option Z
}.

Definition dt_in_range (us : Z) : bool :=
  (0 <=? us) && (us <? _MAXORDINAL * US_PER_DAY).

Definition off_in_range (off : Z) : bool :=
  (- US_PER_DAY <? off) && (off <? US_PER_DAY).

Definition dt_toordinal (d : datetime) : Z := dt_us d / US_PER_DAY + 1.
Definition dt_hour (d : datetime) : Z := (dt_us d mod US_PER_DAY) / US_PER_HOUR.
Definition dt_minute (d : datetime) : Z := (dt_us d mod US_PER_HOUR) / US_PER_MINUTE.
Definition dt_second (d : datetime) : Z := (dt_us d mod US_PER_MINUTE) / US_PER_SECOND.
Definition dt_microsecond (d : datetime) : Z := dt_us d mod US_PER_SECOND.

(** A value the [datetime] constructor can build: within years 1 to 9999,
    with an offset strictly between minus and plus one day. *)
Definition dt_valid (d : datetime) : bool :=
  dt_in_range (dt_us d) &&
  match dt_off d with
  | Some off => off_in_range off
  | None => true
  end.

(** [d.replace(hour=h, minute=0, second=0, microsecond=0)] for [0 <= h < 24]. *)
Definition dt_replace_hour (d : datetime) (h : Z) : datetime :=
  mkDatetime (dt_us d / US_PER_DAY * US_PER_DAY + h * US_PER_HOUR) (dt_off d).

(** [d + t] and [d - t] *)
Definition dt_add (d : datetime) (t : timedelta) : result datetime :=
  let us := dt_us d + t in
  if dt_in_range us then Ok (mkDatetime us (dt_off d))
  else raise OverflowError "date value out of range".

Definition dt_sub_td (d : datetime) (t : timedelta) : result datetime :=
  dt_add d (- t).

(** The instant a [datetime] denotes on the UTC time line. *)
Definition dt_utc (d : datetime) : Z :=
  match dt_off d with
  | Some off => dt_us d - off
  | None => dt_us d
  end.

(** Two values can be ordered or subtracted when both are naive or both
    are aware; otherwise the operation raises. *)
Definition comparable (a b : datetime) : bool :=
  match dt_off a, dt_off b with
  | None, None | Some _, Some _ => true
  | _, _ => false
  end.

Definition dt_compare (a b : datetime) : result comparison :=
  if comparable a b then Ok (dt_utc a ?= dt_utc b)
  else raise TypeError "can't compare offset-naive and offset-aware datetimes".

Definition dt_le (a b : datetime) : result bool :=
  (c <- dt_compare a b ;; Ok (match c with Gt => false | _ => true end))%result.

Definition dt_gt (a b : datetime) : result bool :=
  (c <- dt_compare a b ;; Ok (match c with Gt => true | _ => false end))%result.

(** [a - b] *)
Definition dt_diff (a b : datetime) : result timedelta :=
  if comparable a b then Ok (dt_utc a - dt_utc b)
  else raise TypeError "can't subtract offset-naive and offset-aware datetimes".

(** [d.isoformat()] *)
Definition _format_time (hh mm ss us : Z) : string :=
  let s := (fmt_0wd 2 hh ++ ":" ++ fmt_0wd 2 mm ++ ":" ++ fmt_0wd 2 ss)%string in
  if us =? 0 then s else (s ++ "." ++ fmt_0wd 6 us)%string.

Definition _format_offset (off : option Z) : string :=
  match off with
  | None => ""
  | Some off =>
      let sign := if off <? 0 then "-" else "+" in
      let off := Z.abs off in
      let hh := off / US_PER_HOUR in
      let mm := (off mod US_PER_HOUR) / US_PER_MINUTE in
      let ss := off mod US_PER_MINUTE in
      let s := (sign ++ fmt_0wd 2 hh ++ ":" ++ fmt_0wd 2 mm)%string in
      if ss =? 0 then s
      else
        let s := (s ++ ":" ++ fmt_0wd 2 (ss / US_PER_SECOND))%string in
        if ss mod US_PER_SECOND =? 0 then s
        else (s ++ "." ++ fmt_0wd 6 (ss mod US_PER_SECOND))%string
  end.

Definition isoformat (d : datetime) : string :=
  let '(y, m, dd) := _ord2ymd (dt_toordinal d) in
  (fmt_0wd 4 y ++ "-" ++ fmt_0wd 2 m ++ "-" ++ fmt_0wd 2 dd ++ "T"
   ++ _format_time (dt_hour d) (dt_minute d) (dt_second d) (dt_microsecond d)
   ++ _format_offset (dt_off d))%string.

(** [datetime.fromisoformat(s)], for the format
    [YYYY-MM-DD[*HH[:MM[:SS[.fff[fff]]]][+HH:MM[:SS[.ffffff]]]]], which is
    what [isoformat] writes and what every interpreter from 3.7 on reads;
    every other string raises [ValueError] here.  (From 3.11 on the
    interpreter also reads other ISO 8601 forms, such as [20240101] or a
    trailing [Z]; those are outside this model.) *)
Definition _parse_isoformat_date (dtstr : string) : option (Z * Z * Z) :=
  match parse_digits 4 0 dtstr with
  | Some (year, String "-" r1) =>
      match parse_digits 2 0 r1 with
      | Some (month, String "-" r2) =>
          match parse_digits 2 0 r2 with
          | Some (day, EmptyString) => Some (year, month, day)
          | _ => None
          end
      | _ => None
      end
  | _ => None
  end.

Definition _parse_fraction (f : string) : option Z :=
  match String.length f with
  | 3%nat => match parse_digits 3 0 f with
             | Some (v, _) => Some (v * 1000)
             | None => None
             end
  | 6%nat => match parse_digits 6 0 f with
             | Some (v, _) => Some v
             | None => None
             end
  | _ => None
  end.

Definition _parse_hh_mm_ss_ff (tstr : string) : option (Z * Z * Z * Z) :=
  match parse_digits 2 0 tstr with
  | Some (hh, EmptyString) => Some (hh, 0, 0, 0)
  | Some (hh, String ":" r1) =>
      match parse_digits 2 0 r1 with
      | Some (mm, EmptyString) => Some (hh, mm, 0, 0)
      | Some (mm, String ":" r2) =>
          match parse_digits 2 0 r2 with
          | Some (ss, EmptyString) => Some (hh, mm, ss, 0)
          | Some (ss, String "." f) =>
              match _parse_fraction f with
              | Some us => Some (hh, mm, ss, us)
              | None => None
              end
          | _ => None
          end
      | _ => None
      end
  | _ => None
  end.

(** Position of the time-zone sign: the first ['-'], else the first ['+']. *)
Definition tz_pos (tstr : string) : option nat :=
  match find_char "-" tstr with
  | Some i => Some i
  | None => find_char "+" tstr
  end.

Definition _parse_tz (sign : ascii) (tzstr : string) : option Z :=
  let len := String.length tzstr in
  if (len =? 5)%nat || (len =? 8)%nat || (len =? 15)%nat then
    match _parse_hh_mm_ss_ff tzstr with
    | Some (hh, mm, ss, us) =>
        let td := hh * US_PER_HOUR + mm * US_PER_MINUTE + ss * US_PER_SECOND + us in
        let off := if Ascii.eqb sign "-" then - td else td in
        if off_in_range off then Some off else None
    | None => None
    end
  else None.

Definition _parse_isoformat_time (tstr : string)
  : option (Z * Z * Z * Z * option Z) :=
  if (String.length tstr <? 2)%nat then None
  else
    match tz_pos tstr with
    | None =>
        match _parse_hh_mm_ss_ff tstr with
        | Some t => Some (t, None)
        | None => None
        end
    | Some i =>
        match _parse_hh_mm_ss_ff (take i tstr),
              String.get i tstr with
        | Some t, Some sign =>
            match _parse_tz sign (drop (S i) tstr) with
            | Some off => Some (t, Some off)
            | None => None
            end
        | _, _ => None
        end
    end.

(** The field checks of the [datetime] constructor. *)
Definition _check_date_fields (year month day : Z) : bool :=
  (MINYEAR <=? year) && (year <=? MAXYEAR) &&
  (1 <=? month) && (month <=? 12) &&
  (1 <=? day) && (day <=? _days_in_month year month).

Definition _check_time_fields (hh mm ss us : Z) : bool :=
  (0 <=? hh) && (hh <=? 23) && (0 <=? mm) && (mm <=? 59) &&
  (0 <=? ss) && (ss <=? 59) && (0 <=? us) && (us <=? 999999).

Definition mk_datetime (year month day hh mm ss us : Z) (off : option Z)
  : option datetime :=
  if _check_date_fields year month day && _check_time_fields hh mm ss us
  then Some (mkDatetime
               ((_ymd2ord year month day - 1) * US_PER_DAY
                + hh * US_PER_HOUR + mm * US_PER_MINUTE + ss * US_PER_SECOND + us)
               off)
  else None.

Definition fromisoformat (date_string : string) : result datetime :=
  let bad := raise ValueError
               ("Invalid isoformat string: '" ++ date_string ++ "'")%string in
  let dstr := take 10 date_string in
  let tstr := drop 11 date_string in
  match _parse_isoformat_date dstr with
  | None => bad
  | Some (year, month, day) =>
      let time_components :=
        match tstr with
        | EmptyString =>
            (* a separator with nothing after it is not a time *)
            if (String.length date_string <=? 10)%nat then Some (0, 0, 0, 0, None)
            else None
        | _ => _parse_isoformat_time tstr
        end in
      match time_components with
      | None => bad
      | Some (hh, mm, ss, us, off) =>
          match mk_datetime year month day hh mm ss us off with
          | Some d => Ok d
          | None => bad
          end
      end
  end.

(** *** Python objects

    The values that travel through dictionaries: decoded JSON, the "checks"
    of a health report, the fields of a serialised schedule entry. *)
#[local] Unset Elimination Schemes.
Inductive value : Type :=
| VNone
| VBool (b : bool)
| VInt (n : Z)
| VFloat (q : Q)
| VStr (s : string)
| VList (l : list value)
| VDict (d : list (string * value))
| VDatetime (d : datetime)
| VTimedelta (t : timedelta).
#[local] Set Elimination Schemes.

(** A [dict] with string keys: insertion order, assignment to an existing
    key keeps its place. *)
Definition dict : Type := list (string * value).

Fixpoint dict_find (k : string) (d : dict) : option value :=
  match d with
  | [] => None
  | (k', v) :: d' => if String.eqb k k' then Some v else dict_find k d'
  end.

(** [d[k]] *)
Definition dict_get (k : string) (d : dict) : result value :=
  match dict_find k d with
  | Some v => Ok v
  | None => raise KeyError ("'" ++ k ++ "'")%string
  end.

(** [d[k] = v] *)
Fixpoint dict_set (k : string) (v : value) (d : dict) : dict :=
  match d with
  | [] => [(k, v)]
  | (k', v') :: d' =>
      if String.eqb k k' then (k', v) :: d' else (k', v') :: dict_set k v d'
  end.

(** Truth value of an object. *)
Definition truthy (v : value) : bool :=
  match v with
  | VNone => false
  | VBool b => b
  | VInt n => negb (n =? 0)
  | VFloat q => negb (Qeq_bool q (inject_Z 0))
  | VStr s => negb (String.eqb s "")
  | VList l => match l with [] => false | _ => true end
  | VDict d => match d with [] => false | _ => true end
  | VDatetime _ => true
  | VTimedelta t => negb (t =? 0)
  end.

Definition is_str (v : value) (s : string) : bool :=
  match v with
  | VStr s' => String.eqb s s'
  | _ => false
  end.

(** [k in v] for a string [k] *)
Definition py_in (k : string) (v : value) : result bool :=
  match v with
  | VDict d => Ok (match dict_find k d with Some _ => true | None => false end)
  | VList l => Ok (existsb (fun x => is_str x k) l)
  | VStr s => Ok (contains k s)
  | _ => raise TypeError "argument is not iterable"
  end.

(** [v[k]] for a string [k] *)
Definition py_getitem (v : value) (k : string) : result value :=
  match v with
  | VDict d => dict_get k d
  | VList _ => raise TypeError "list indices must be integers or slices, not str"
  | VStr _ => raise TypeError "string indices must be integers"
  | _ => raise TypeError "object is not subscriptable"
  end.

(** [int(v)]; a float is truncated towards zero. *)
Definition py_int (v : value) : result Z :=
  match v with
  | VInt n => Ok n
  | VBool b => Ok (if b then 1 else 0)
  | VFloat q => Ok (Z.quot (Qnum q) (Z.pos (Qden q)))
  | VStr s => int_of_str s
  | _ => raise TypeError "int() argument must be a string, a bytes-like object or a number"
  end.

(** [len(v)] *)
Definition py_len (v : value) : result Z :=
  match v with
  | VList l => Ok (Z.of_nat (List.length l))
  | VDict d => Ok (Z.of_nat (List.length d))
  | VStr s => Ok (Z.of_nat (String.length s))
  | _ => raise TypeError "object has no len()"
  end.

(** [v < x] for a float [x] *)
Definition Qlt_bool (a b : Q) : bool := negb (Qle_bool b a).

Definition py_lt_float (v : value) (x : Q) : result bool :=
  match v with
  | VInt n => Ok (Qlt_bool (inject_Z n) x)
  | VBool b => Ok (Qlt_bool (inject_Z (if b then 1 else 0)) x)
  | VFloat q => Ok (Qlt_bool q x)
  | _ => raise TypeError "'<' not supported between these instances"
  end.

(** [a < b] for two [datetime] values *)
Definition dt_lt (a b : datetime) : result bool :=
  (c <- dt_compare a b ;; Ok (match c with Lt => true | _ => false end))%result.

(** [l[start:]] for a list and any integer [start]: a negative [start]
    counts from the end, and both ends are clamped. *)
Definition slice_from {A} (start : Z) (l : list A) : list A :=
  let n := Z.of_nat (List.length l) in
  let i := if start <? 0 then Z.max (n + start) 0 else Z.min start n in
  skipn (Z.to_nat i) l.

(** *** Statements: a state and exception monad

    A block of statements runs on a state [S]; it ends with a value or with a
    raised exception, and in both cases leaves the state it has reached. *)
Definition M (S A : Type) : Type := S -> result A * S.

Definition ret {S A} (a : A) : M S A := fun s => (Ok a, s).

Definition bind {S A B} (m : M S A) (k : A -> M S B) : M S B :=
  fun s =>
    match m s with
    | (Ok a, s') => k a s'
    | (Raise e, s') => (Raise e, s')
    end.

Definition throw {S A} (c : exn_class) (msg : string) : M S A :=
  fun s => (raise c msg, s).

Definition lift {S A} (r : result A) : M S A := fun s => (r, s).

Definition get {S} : M S S := fun s => (Ok s, s).

Definition modify {S} (f : S -> S) : M S unit := fun s => (Ok tt, f s).

(** [try: m  except Exception as e: h e] *)
Definition try_except {S A} (m : M S A) (h : exn -> M S A) : M S A :=
  fun s =>
    match m s with
    | (Ok a, s') => (Ok a, s')
    | (Raise e, s') => h e s'
    end.

(** [try: m  finally: f] *)
Definition try_finally {S A} (m : M S A) (f : M S unit) : M S A :=
  fun s =>
    match m s with
    | (r, s') =>
        match f s' with
        | (Ok _, s'') => (r, s'')
        | (Raise e, s'') => (Raise e, s'')
        end
    end.

Declare Scope stmt_scope.
Delimit Scope stmt_scope with stmt.
Notation "x <- c ;; k" := (bind c (fun x => k))
  (at level 61, c at next level, right associativity) : stmt_scope.
Notation "' p <- c ;; k" := (bind c (fun x => match x with p => k end))
  (at level 61, p pattern, c at next level, right associativity) : stmt_scope.
Notation "c ;; k" := (bind c (fun _ => k))
  (at level 61, right associativity) : stmt_scope.

End Py.

(* ================================================================= *)
(** ** sentinel/watcher.py *)

Module Watcher.
Import Py.

Record Version : Type := mkVersion {
  tag : string;
  version : string;
  published_at : datetime;
  download_url : option string;
  release_notes : option string
}.

(** [Version._parse_version]: drop leading ['v'] characters, take the digit
    runs, read each with [int].  A run of digits is always a valid literal, so
    the conversion is the positional value [int_digits] (the interpreter's
    optional cap on the length of a decimal literal is taken to be off). *)
Definition _parse_version (version : string) : list Z :=
  let version := lstrip "v" version in
  let parts := findall_digits version in
  map (int_digits 0) parts.

(** [Version.__gt__] *)
Definition __gt__ (self other : Version) : bool :=
  tuple_gt (_parse_version (version self)) (_parse_version (version other)).

(** A release with the given version text, tagged ['v' + version]; the
    other fields play no part in the ordering. *)
Definition of_version (v : string) : Version :=
  mkVersion ("v" ++ v)%string v (mkDatetime 0 (Some 0)) None None.

(** [GovernanceProposal] *)
Record GovernanceProposal : Type := mkProposal {
  proposal_id : Z;
  title : string;
  description : string;
  status : string;
  voting_end_time : datetime;
  upgrade_height : option Z;
  upgrade_version : option string
}.

End Watcher.

(* ================================================================= *)
(** ** sentinel/health.py *)

Module Health.
Import Py.
#[local] Open Scope stmt_scope.

Record ThresholdConfig : Type := mkThresholds {
  min_peers : Z;
  block_time_variance : Z;
  disk_space_min_gb : Q
}.

Record Config : Type := mkConfig {
  story_service_name : string;
  thresholds : ThresholdConfig
}.

Record HealthStatus : Type := mkHealthStatus {
  healthy : bool;
  service_name : string;
  checks : dict;
  timestamp : datetime;
  message : string
}.

Record HealthChecker : Type := mkHealthChecker {
  config : Config;
  last_block_times : list (string * datetime)
}.

Fixpoint lookup_time (k : string) (d : list (string * datetime)) : option datetime :=
  match d with
  | [] => None
  | (k', t) :: d' => if String.eqb k k' then Some t else lookup_time k d'
  end.

Fixpoint store_time (k : string) (t : datetime) (d : list (string * datetime))
  : list (string * datetime) :=
  match d with
  | [] => [(k, t)]
  | (k', t') :: d' =>
      if String.eqb k k' then (k', t) :: d' else (k', t') :: store_time k t d'
  end.

(** What the host answers during one consensus-client probe: the
    environment variable, the output of [systemctl is-active], the decoded
    bodies of the two RPC calls, the journal, the process table (name and
    resident size, either of which may be missing) and the clock.  [Raise] stands for the
    call raising. *)
Record StoryProbe : Type := mkStoryProbe {
  docker_mode : option string;
  is_active_stdout : result string;
  status_json : result value;
  net_info_json : result value;
  journal_stdout : result string;
  process_iter : result (list (option string * option Z));
  clock : datetime
}.

(** The [checks] dictionary of [_check_story]; its keys are fixed, so it is
    kept as a record and turned into the dictionary when the report is
    built.  [catching_up] and [latest_block_time] hold whatever the status
    body carries. *)
Record story_checks : Type := mkStoryChecks {
  service_running : bool;
  rpc_responsive : bool;
  catching_up : value;
  latest_block_height : Z;
  latest_block_time : value;
  voting_power : Z;
  peer_count : Z;
  memory_usage_mb : value;
  app_hash_errors : Z
}.

Definition initial_checks : story_checks :=
  mkStoryChecks false false VNone 0 VNone 0 0 (VInt 0) 0.

Definition set_service_running (b : bool) (c : story_checks) : story_checks :=
  mkStoryChecks b (rpc_responsive c) (catching_up c) (latest_block_height c)
    (latest_block_time c) (voting_power c) (peer_count c) (memory_usage_mb c)
    (app_hash_errors c).

Definition set_rpc_responsive (b : bool) (c : story_checks) : story_checks :=
  mkStoryChecks (service_running c) b (catching_up c) (latest_block_height c)
    (latest_block_time c) (voting_power c) (peer_count c) (memory_usage_mb c)
    (app_hash_errors c).

Definition set_catching_up (v : value) (c : story_checks) : story_checks :=
  mkStoryChecks (service_running c) (rpc_responsive c) v (latest_block_height c)
    (latest_block_time c) (voting_power c) (peer_count c) (memory_usage_mb c)
    (app_hash_errors c).

Definition set_latest_block_height (n : Z) (c : story_checks) : story_checks :=
  mkStoryChecks (service_running c) (rpc_responsive c) (catching_up c) n
    (latest_block_time c) (voting_power c) (peer_count c) (memory_usage_mb c)
    (app_hash_errors c).

Definition set_latest_block_time (v : value) (c : story_checks) : story_checks :=
  mkStoryChecks (service_running c) (rpc_responsive c) (catching_up c)
    (latest_block_height c) v (voting_power c) (peer_count c) (memory_usage_mb c)
    (app_hash_errors c).

Definition set_voting_power (n : Z) (c : story_checks) : story_checks :=
  mkStoryChecks (service_running c) (rpc_responsive c) (catching_up c)
    (latest_block_height c) (latest_block_time c) n (peer_count c)
    (memory_usage_mb c) (app_hash_errors c).

Definition set_peer_count (n : Z) (c : story_checks) : story_checks :=
  mkStoryChecks (service_running c) (rpc_responsive c) (catching_up c)
    (latest_block_height c) (latest_block_time c) (voting_power c) n
    (memory_usage_mb c) (app_hash_errors c).

Definition set_memory_usage_mb (q : value) (c : story_checks) : story_checks :=
  mkStoryChecks (service_running c) (rpc_responsive c) (catching_up c)
    (latest_block_height c) (latest_block_time c) (voting_power c) (peer_count c)
    q (app_hash_errors c).

Definition set_app_hash_errors (n : Z) (c : story_checks) : story_checks :=
  mkStoryChecks (service_running c) (rpc_responsive c) (catching_up c)
    (latest_block_height c) (latest_block_time c) (voting_power c) (peer_count c)
    (memory_usage_mb c) n.

Definition checks_dict (c : story_checks) : dict :=
  [ ("service_running", VBool (service_running c));
    ("rpc_responsive", VBool (rpc_responsive c));
    ("catching_up", catching_up c);
    ("latest_block_height", VInt (latest_block_height c));
    ("latest_block_time", latest_block_time c);
    ("voting_power", VInt (voting_power c));
    ("peer_count", VInt (peer_count c));
    ("memory_usage_mb", memory_usage_mb c);
    ("app_hash_errors", VInt (app_hash_errors c)) ].

(** The body of the [try] around the two RPC calls; the assignments made
    before an exception stay. *)
Definition rpc_block (env : StoryProbe) : M story_checks unit :=
  data <- lift (status_json env) ;;
  has_result <- lift (py_in "result" data) ;;
  (if has_result : bool then
     modify (set_rpc_responsive true) ;;
     result <- lift (py_getitem data "result") ;;
     sync_info <- lift (py_getitem result "sync_info") ;;
     v <- lift (py_getitem sync_info "catching_up") ;;
     modify (set_catching_up v) ;;
     sync_info <- lift (py_getitem result "sync_info") ;;
     v <- lift (py_getitem sync_info "latest_block_height") ;;
     n <- lift (py_int v) ;;
     modify (set_latest_block_height n) ;;
     sync_info <- lift (py_getitem result "sync_info") ;;
     v <- lift (py_getitem sync_info "latest_block_time") ;;
     modify (set_latest_block_time v) ;;
     has_validator <- lift (py_in "validator_info" result) ;;
     if has_validator : bool then
       validator_info <- lift (py_getitem result "validator_info") ;;
       v <- lift (py_getitem validator_info "voting_power") ;;
       n <- lift (py_int v) ;;
       modify (set_voting_power n)
     else ret tt
   else ret tt) ;;
  net_data <- lift (net_info_json env) ;;
  has_result <- lift (py_in "result" net_data) ;;
  if has_result : bool then
    result <- lift (py_getitem net_data "result") ;;
    peers <- lift (py_getitem result "peers") ;;
    n <- lift (py_len peers) ;;
    modify (set_peer_count n)
  else ret tt.

(** The process scan: the first process whose name holds "story" and not
    "geth" gives the memory figure.  A process without a name makes the
    membership test raise, and a matching process without memory
    information makes the attribute access raise; either ends the scan. *)
Fixpoint scan_processes (procs : list (option string * option Z)) (c : story_checks)
  : story_checks :=
  match procs with
  | [] => c
  | (None, _) :: _ => c
  | (Some name, memory_info) :: rest =>
      if contains "story" name && negb (contains "geth" name) then
        match memory_info with
        | Some rss =>
            set_memory_usage_mb
              (VFloat (Qdiv (Qdiv (inject_Z rss) (inject_Z 1024)) (inject_Z 1024))) c
        | None => c
        end
      else scan_processes rest c
  end.

(** [checks['latest_block_time'].replace('Z', '+00:00')] followed by
    [datetime.fromisoformat]. *)
Definition parse_block_time (v : value) : result datetime :=
  match v with
  | VStr s => fromisoformat (replace_char "Z" "+00:00" s)
  | _ => raise AttributeError "object has no attribute 'replace'"
  end.

(** [HealthChecker._check_story] *)
Definition _check_story (self : HealthChecker) (env : StoryProbe)
  : result (HealthStatus * HealthChecker) :=
  let checks := initial_checks in
  let service_name := story_service_name (config self) in
  let docker := match docker_mode env with
                | Some s => negb (String.eqb s "")
                | None => false
                end in
  let checks :=
    if negb docker then
      match is_active_stdout env with
      | Ok out => set_service_running (String.eqb (strip out) "active") checks
      | Raise _ => checks
      end
    else set_service_running true checks in
  let checks :=
    if service_running checks then snd (rpc_block env checks) else checks in
  let checks :=
    match journal_stdout env with
    | Ok out => set_app_hash_errors (count "app hash" out) checks
    | Raise _ => checks
    end in
  let checks :=
    match process_iter env with
    | Ok procs => scan_processes procs checks
    | Raise _ => checks
    end in
  (block_time_healthy <-
     match truthy (latest_block_time checks),
           lookup_time service_name (last_block_times self) with
     | true, Some last_time =>
         current_time <- parse_block_time (latest_block_time checks) ;;
         time_diff <- dt_diff current_time last_time ;;
         Ok (negb (block_time_variance (thresholds (config self)) * US_PER_SECOND
                   <? time_diff))
     | _, _ => Ok true
     end ;;
   times <-
     (if truthy (latest_block_time checks) then
        t <- parse_block_time (latest_block_time checks) ;;
        Ok (store_time service_name t (last_block_times self))
      else Ok (last_block_times self)) ;;
   let min_peers := min_peers (thresholds (config self)) in
   let healthy :=
     service_running checks && rpc_responsive checks &&
     negb (truthy (catching_up checks)) &&
     (min_peers <=? peer_count checks) &&
     (app_hash_errors checks =? 0) &&
     block_time_healthy in
   let message :=
     if negb (service_running checks) then
       (service_name ++ " service is not running")%string
     else if negb (rpc_responsive checks) then
       (service_name ++ " RPC is not responsive")%string
     else if truthy (catching_up checks) then
       (service_name ++ " is catching up (height "
        ++ fmt_d (latest_block_height checks) ++ ")")%string
     else if peer_count checks <? min_peers then
       (service_name ++ " has low peer count: " ++ fmt_d (peer_count checks))%string
     else if 0 <? app_hash_errors checks then
       (service_name ++ " has app hash errors")%string
     else if negb block_time_healthy then
       (service_name ++ " has slow block production")%string
     else "" in
   Ok (mkHealthStatus healthy service_name (checks_dict checks) (clock env) message,
       mkHealthChecker (config self) times))%result.

(** What the host answers during the system-resources probe. *)
Record SystemProbe : Type := mkSystemProbe {
  cpu_percent : result Q;
  memory_percent : result Q;
  memory_available : result Z;
  load_average : result (Q * Q * Q);
  disk_usage : result (Q * Z);
  sys_clock : datetime
}.

Definition GiB : Q := inject_Z (1024 * 1024 * 1024).

(** [HealthChecker._check_system_resources]; the message, which only
    formats the figures, is reduced to its leading words. *)
Definition _check_system_resources (self : HealthChecker) (env : SystemProbe)
  : result HealthStatus :=
  (cpu <- cpu_percent env ;;
   mem_percent <- memory_percent env ;;
   available <- memory_available env ;;
   load <- load_average env ;;
   let memory_available_gb := Qdiv (inject_Z available) GiB in
   let '(disk_usage_percent, disk_free_gb) :=
     match disk_usage env with
     | Ok (percent, free) => (VFloat percent, VFloat (Qdiv (inject_Z free) GiB))
     | Raise _ => (VInt 0, VInt 0)
     end in
   let disk_free := match disk_free_gb with VFloat q => q | _ => inject_Z 0 end in
   let min_gb := disk_space_min_gb (thresholds (config self)) in
   let two := inject_Z 2 in
   let ninety := inject_Z 90 in
   let healthy :=
     Qlt_bool two memory_available_gb && Qlt_bool min_gb disk_free
     && Qlt_bool cpu ninety in
   let message :=
     if Qlt_bool memory_available_gb two then "Low memory"
     else if Qlt_bool disk_free min_gb then "Low disk space"
     else if Qlt_bool ninety cpu then "High CPU usage"
     else "" in
   let '(l1, l5, l15) := load in
   Ok (mkHealthStatus healthy "system"
         [ ("cpu_percent", VFloat cpu);
           ("memory_percent", VFloat mem_percent);
           ("memory_available_gb", VFloat memory_available_gb);
           ("disk_usage_percent", disk_usage_percent);
           ("disk_free_gb", disk_free_gb);
           ("load_average", VList [VFloat l1; VFloat l5; VFloat l15]) ]
         (sys_clock env) message))%result.

(** The status call reports [catching_up = true]: the decoded body is
    [{"result": {"sync_info": {"catching_up": true, ...}, ...}, ...}]. *)
Definition reports_catching_up (data : value) : Prop :=
  exists d r si,
    data = VDict d /\
    dict_find "result" d = Some (VDict r) /\
    dict_find "sync_info" r = Some (VDict si) /\
    dict_find "catching_up" si = Some (VBool true).

(** Statements that leave a [catching_up = true] entry of the checks alone. *)
Definition keeps_catching_up {A} (m : M story_checks A) : Prop :=
  forall c, catching_up c = VBool true -> catching_up (snd (m c)) = VBool true.

(** Statements after which the checks hold [catching_up = true], wherever
    they stop. *)
Definition records_catching_up {A} (m : M story_checks A) : Prop :=
  forall c, catching_up (snd (m c)) = VBool true.

(** *** The execution client

    [int(s, 16)] for a [str]: blanks around, an optional sign, an optional
    [0x] or [0X] prefix that one underscore may follow, then hexadecimal
    digits with single underscores between them. *)
Definition hex_val (c : ascii) : option Z :=
  let n := Z.of_nat (nat_of_ascii c) in
  if (48 <=? n) && (n <=? 57) then Some (n - 48)
  else if (97 <=? n) && (n <=? 102) then Some (n - 87)
  else if (65 <=? n) && (n <=? 70) then Some (n - 55)
  else None.

Fixpoint hex_body (prev_digit : bool) (acc : Z) (s : string) : option Z :=
  match s with
  | EmptyString => if prev_digit then Some acc else None
  | String c s' =>
      match hex_val c with
      | Some d => hex_body true (16 * acc + d) s'
      | None =>
          if Ascii.eqb c "_" then
            (if prev_digit then hex_body false acc s' else None)
          else None
      end
  end.

Definition int_of_str_16 (s : string) : result Z :=
  let bad := raise ValueError ("invalid literal for int() with base 16: '" ++ s ++ "'")%string in
  let t := strip s in
  let '(neg, body) :=
    match t with
    | String c r =>
        if Ascii.eqb c "-" then (true, r)
        else if Ascii.eqb c "+" then (false, r)
        else (false, t)
    | EmptyString => (false, t)
    end in
  let digits :=
    match body with
    | String z (String x r) =>
        if Ascii.eqb z "0" && (Ascii.eqb x "x" || Ascii.eqb x "X") then
          match r with
          | String u r' => if Ascii.eqb u "_" then r' else r
          | EmptyString => r
          end
        else body
    | _ => body
    end in
  match hex_body false 0 digits with
  | Some n => Ok (if neg then - n else n)
  | None => bad
  end.

(** [int(v, 16)] *)
Definition py_int_16 (v : value) : result Z :=
  match v with
  | VStr s => int_of_str_16 s
  | _ => raise TypeError "int() can't convert non-string with explicit base"
  end.

(** What the host answers during one execution-client probe: as for the
    consensus client, with the decoded bodies of the [eth_syncing],
    [eth_blockNumber] and [net_peerCount] calls. *)
Record GethProbe : Type := mkGethProbe {
  geth_docker_mode : option string;
  geth_is_active_stdout : result string;
  eth_syncing_json : result value;
  eth_blockNumber_json : result value;
  net_peerCount_json : result value;
  geth_process_iter : result (list (option string * option Z));
  geth_clock : datetime
}.

(** The [checks] dictionary of [_check_story_geth]. *)
Record geth_checks : Type := mkGethChecks {
  geth_service_running : bool;
  geth_rpc_responsive : bool;
  syncing : value;
  geth_peer_count : Z;
  block_number : Z;
  geth_memory_usage_mb : value
}.

Definition geth_initial_checks : geth_checks :=
  mkGethChecks false false VNone 0 0 (VInt 0).

Definition set_geth_service_running (b : bool) (c : geth_checks) : geth_checks :=
  mkGethChecks b (geth_rpc_responsive c) (syncing c) (geth_peer_count c)
    (block_number c) (geth_memory_usage_mb c).

Definition set_geth_rpc_responsive (b : bool) (c : geth_checks) : geth_checks :=
  mkGethChecks (geth_service_running c) b (syncing c) (geth_peer_count c)
    (block_number c) (geth_memory_usage_mb c).

Definition set_syncing (v : value) (c : geth_checks) : geth_checks :=
  mkGethChecks (geth_service_running c) (geth_rpc_responsive c) v (geth_peer_count c)
    (block_number c) (geth_memory_usage_mb c).

Definition set_geth_peer_count (n : Z) (c : geth_checks) : geth_checks :=
  mkGethChecks (geth_service_running c) (geth_rpc_responsive c) (syncing c) n
    (block_number c) (geth_memory_usage_mb c).

Definition set_block_number (n : Z) (c : geth_checks) : geth_checks :=
  mkGethChecks (geth_service_running c) (geth_rpc_responsive c) (syncing c)
    (geth_peer_count c) n (geth_memory_usage_mb c).

Definition set_geth_memory_usage_mb (v : value) (c : geth_checks) : geth_checks :=
  mkGethChecks (geth_service_running c) (geth_rpc_responsive c) (syncing c)
    (geth_peer_count c) (block_number c) v.

Definition geth_checks_dict (c : geth_checks) : dict :=
  [ ("service_running", VBool (geth_service_running c));
    ("rpc_responsive", VBool (geth_rpc_responsive c));
    ("syncing", syncing c);
    ("peer_count", VInt (geth_peer_count c));
    ("block_number", VInt (block_number c));
    ("memory_usage_mb", geth_memory_usage_mb c) ].

(** [d.get(k, default)] *)
Definition dict_get_or (k : string) (default : value) (d : dict) : value :=
  match dict_find k d with
  | Some v => v
  | None => default
  end.

(** The body of the [try] around the RPC calls of [_check_story_geth]. *)
Definition geth_rpc_block (env : GethProbe) : M geth_checks unit :=
  data <- lift (eth_syncing_json env) ;;
  has_result <- lift (py_in "result" data) ;;
  (if has_result : bool then
     modify (set_geth_rpc_responsive true) ;;
     result <- lift (py_getitem data "result") ;;
     match result with
     | VDict d =>
         modify (set_syncing (VBool true)) ;;
         n <- lift (py_int_16 (dict_get_or "currentBlock" (VStr "0x0") d)) ;;
         modify (set_block_number n)
     | _ =>
         modify (set_syncing (VBool false)) ;;
         block_data <- lift (eth_blockNumber_json env) ;;
         has_result <- lift (py_in "result" block_data) ;;
         if has_result : bool then
           v <- lift (py_getitem block_data "result") ;;
           n <- lift (py_int_16 v) ;;
           modify (set_block_number n)
         else ret tt
     end
   else ret tt) ;;
  peer_data <- lift (net_peerCount_json env) ;;
  has_result <- lift (py_in "result" peer_data) ;;
  if has_result : bool then
    v <- lift (py_getitem peer_data "result") ;;
    n <- lift (py_int_16 v) ;;
    modify (set_geth_peer_count n)
  else ret tt.

(** The process scan of [_check_story_geth]: the first process whose name
    holds the service name. *)
Fixpoint geth_scan_processes (service_name : string)
    (procs : list (option string * option Z)) (c : geth_checks) : geth_checks :=
  match procs with
  | [] => c
  | (None, _) :: _ => c
  | (Some name, memory_info) :: rest =>
      if contains service_name name then
        match memory_info with
        | Some rss =>
            set_geth_memory_usage_mb
              (VFloat (Qdiv (Qdiv (inject_Z rss) (inject_Z 1024)) (inject_Z 1024))) c
        | None => c
        end
      else geth_scan_processes service_name rest c
  end.

(** [HealthChecker._check_story_geth]; [service_name] is
    [self.config.story_geth.service_name].  Everything that can raise sits
    in a [try], so the probe always returns a report. *)
Definition _check_story_geth (self : HealthChecker) (service_name : string)
    (env : GethProbe) : HealthStatus :=
  let checks := geth_initial_checks in
  let docker := match geth_docker_mode env with
                | Some s => negb (String.eqb s "")
                | None => false
                end in
  let checks :=
    if negb docker then
      match geth_is_active_stdout env with
      | Ok out => set_geth_service_running (String.eqb (strip out) "active") checks
      | Raise _ => checks
      end
    else set_geth_service_running true checks in
  let checks :=
    if geth_service_running checks then snd (geth_rpc_block env checks)
    else checks in
  let checks :=
    match geth_process_iter env with
    | Ok procs => geth_scan_processes service_name procs checks
    | Raise _ => checks
    end in
  let min_peers := min_peers (thresholds (config self)) in
  let healthy :=
    geth_service_running checks && geth_rpc_responsive checks &&
    (min_peers <=? geth_peer_count checks) &&
    negb (truthy (syncing checks)) in
  let message :=
    if negb (geth_service_running checks) then
      (service_name ++ " service is not running")%string
    else if negb (geth_rpc_responsive checks) then
      (service_name ++ " RPC is not responsive")%string
    else if truthy (syncing checks) then
      (service_name ++ " is still syncing (block "
       ++ fmt_d (block_number checks) ++ ")")%string
    else if geth_peer_count checks <? min_peers then
      (service_name ++ " has low peer count: "
       ++ fmt_d (geth_peer_count checks))%string
    else "" in
  mkHealthStatus healthy service_name (geth_checks_dict checks) (geth_clock env)
    message.

(** *** Probes on a node that is down *)

(** The consensus-client service is reported as not running: the probe is
    not in Docker mode and [systemctl is-active] fails or prints anything but
    [active]. *)
Definition service_down (env : StoryProbe) : Prop :=
  match docker_mode env with
  | Some s => s = ""%string
  | None => True
  end /\
  match is_active_stdout env with
  | Ok out => strip out <> "active"%string
  | Raise _ => True
  end.

(** The same host with other answers to the two RPC calls. *)
Definition with_rpc (status net_info : result value) (env : StoryProbe) : StoryProbe :=
  mkStoryProbe (docker_mode env) (is_active_stdout env) status net_info
    (journal_stdout env) (process_iter env) (clock env).

End Health.

(* ================================================================= *)
(** ** sentinel/runner.py *)

Module Runner.
Import Py.
#[local] Open Scope stmt_scope.

Definition UPGRADE_SCRIPT : string :=
  "/opt/story-sentinel/scripts/upgrade-runner.sh".

Record ServiceConfig : Type := mkServiceConfig {
  binary_path : string;
  service_name : string
}.

Record Config : Type := mkConfig {
  story : ServiceConfig;
  story_geth : ServiceConfig;
  backup_dir : string;
  story_home : string
}.

(** [subprocess.CompletedProcess] *)
Record CompletedProcess : Type := mkProcess {
  returncode : Z;
  stdout : string;
  stderr : string
}.

(** One entry of the upgrade history.  The keys [end_time] and
    [backup_path] are absent until they are assigned ([None] here); [error]
    is always present and starts as Python's [None]. *)
Record UpgradeRecord : Type := mkRecord {
  component : string;
  from_version : string;
  to_version : string;
  start_time : string;
  dry_run : bool;
  success : bool;
  error : option string;
  end_time : option string;
  backup_path : option string
}.

Definition set_success (b : bool) (r : UpgradeRecord) : UpgradeRecord :=
  mkRecord (component r) (from_version r) (to_version r) (start_time r)
    (dry_run r) b (error r) (end_time r) (backup_path r).

Definition set_error (e : option string) (r : UpgradeRecord) : UpgradeRecord :=
  mkRecord (component r) (from_version r) (to_version r) (start_time r)
    (dry_run r) (success r) e (end_time r) (backup_path r).

Definition set_end_time (t : string) (r : UpgradeRecord) : UpgradeRecord :=
  mkRecord (component r) (from_version r) (to_version r) (start_time r)
    (dry_run r) (success r) (error r) (Some t) (backup_path r).

Definition set_backup_path (p : string) (r : UpgradeRecord) : UpgradeRecord :=
  mkRecord (component r) (from_version r) (to_version r) (start_time r)
    (dry_run r) (success r) (error r) (end_time r) (Some p).

(** The fields that identify an attempt; they are written once, when the
    record is created. *)
Definition attempt_of (r : UpgradeRecord) : string * string * string * string * bool :=
  (component r, from_version r, to_version r, start_time r, dry_run r).

(** The methods of [UpgradeRunner] whose invocations are counted. *)
Inductive method : Type :=
| M_pre_upgrade_checks | M_run_native_upgrade
| M_create_backup | M_download_binary | M_verify_binary | M_stop_service
| M_replace_binary | M_start_service | M_post_upgrade_verification
| M_rollback.

(** The operations the runner asks of its host, indexed by what they
    answer.  An answer of type [result] is a call that may raise.
    [Download] stands for the network retrieval, extraction and
    build-from-source fallback of [_download_binary], [CheckAll] for
    [HealthChecker.check_all], [DumpHistory] for the directory creation and
    [json.dump] of [_save_upgrade_history]. *)
Inductive op : Type -> Type :=
| Now : op string
| Strftime : op string
| Sleep (seconds : Z) : op unit
| GetCurrentVersions : op (list (string * string))
| CheckAll : op (result (list (string * Health.HealthStatus)))
| PathExists (path : string) : op bool
| Access (path : string) : op (result bool)
| Run (cmd : list string) : op (result CompletedProcess)
| Mkdir (path : string) : op (result unit)
| Copy2 (src dst : string) : op (result unit)
| Copytree (src dst : string) : op (result unit)
| Chmod (path : string) : op (result unit)
| WriteMetadata (path component timestamp version : string) : op (result unit)
| Download (component : string) (target : Watcher.Version) : op (result (option string))
| DumpHistory (history : list UpgradeRecord) : op (result unit).

(** What an upgrade attempt leaves in the call log: the runner methods it
    entered and the host operations it issued, in order. *)
Inductive event : Type :=
| Called (m : method)
| Host {R : Type} (o : op R).

(** A host answers every operation and moves to its next state. *)
Class HostModel (W : Type) : Type :=
  host_answer : forall R : Type, op R -> W -> R * W.

Section WithHost.
Context {W : Type} {host : HostModel W}.

(** The runner: the host it runs on, the log of calls, the history list
    [self.upgrade_history] and the dictionary [upgrade_record] that
    [perform_upgrade] creates and [_perform_legacy_upgrade] updates in place. *)
Record state : Type := mkState {
  world : W;
  calls : list event;
  upgrade_history : list UpgradeRecord;
  upgrade_record : UpgradeRecord
}.

Definition log (e : event) (st : state) : state :=
  mkState (world st) (calls st ++ [e]) (upgrade_history st) (upgrade_record st).

Definition call {R} (o : op R) : M state R :=
  fun st =>
    let '(r, w) := host_answer R o (world st) in
    (Ok r, mkState w (calls st ++ [Host o]) (upgrade_history st) (upgrade_record st)).

Definition call_r {R} (o : op (result R)) : M state R :=
  r <- call o ;; lift r.

Definition enter (m : method) : M state unit := modify (log (Called m)).

Definition with_record (f : UpgradeRecord -> UpgradeRecord) (st : state) : state :=
  mkState (world st) (calls st) (upgrade_history st) (f (upgrade_record st)).

Definition update_record (f : UpgradeRecord -> UpgradeRecord) : M state unit :=
  modify (with_record f).

Definition append_record : M state unit :=
  modify (fun st =>
            mkState (world st) (calls st)
                    (upgrade_history st ++ [upgrade_record st]) (upgrade_record st)).

(** [io P m]: running [m] leaves the history list and the record under
    construction as they are, and extends the call log by events that all
    satisfy [P]. *)
Definition io (P : event -> Prop) {A} (m : M state A) : Prop :=
  forall st,
    upgrade_history (snd (m st)) = upgrade_history st /\
    upgrade_record (snd (m st)) = upgrade_record st /\
    exists new, calls (snd (m st)) = calls st ++ new /\ Forall P new.

(** [logs m]: running [m] leaves the history list as it is, may fill in the
    record under construction but not the fields that identify the attempt,
    and only extends the call log. *)
Definition logs {A} (m : M state A) : Prop :=
  forall st,
    upgrade_history (snd (m st)) = upgrade_history st /\
    attempt_of (upgrade_record (snd (m st))) = attempt_of (upgrade_record st) /\
    exists new, calls (snd (m st)) = calls st ++ new.

(** *** Paths *)

Definition path_join (a b : string) : string := (a ++ "/" ++ b)%string.

(** The final component of a path. *)
Fixpoint path_name_from (cur : string) (p : string) : string :=
  match p with
  | EmptyString => cur
  | String c p' =>
      if Ascii.eqb c "/" then path_name_from "" p'
      else path_name_from (cur ++ String c "")%string p'
  end.

Definition path_name (p : string) : string := path_name_from "" p.

(** [Path.with_suffix(suffix)]: the suffix of the final component starts at
    its last dot, unless that dot is its first or its last character. *)
Fixpoint last_dot (i : nat) (best : option nat) (s : string) : option nat :=
  match s with
  | EmptyString => best
  | String c s' => last_dot (S i) (if Ascii.eqb c "." then Some i else best) s'
  end.

Definition suffix_length (name : string) : nat :=
  match last_dot 0 None name with
  | Some i =>
      if (0 <? i)%nat && (i <? String.length name - 1)%nat
      then (String.length name - i)%nat
      else 0%nat
  | None => 0%nat
  end.

Definition with_suffix (p suffix : string) : result string :=
  let name := path_name p in
  if String.eqb name "" then
    raise ValueError ("'" ++ p ++ "' has an empty name")%string
  else Ok (take (String.length p - suffix_length name) p ++ suffix)%string.

Fixpoint lookup {A} (k : string) (d : list (string * A)) : option A :=
  match d with
  | [] => None
  | (k', v) :: d' => if String.eqb k k' then Some v else lookup k d'
  end.

Definition get_or (d : list (string * string)) (k default : string) : string :=
  match lookup k d with
  | Some v => v
  | None => default
  end.

Variable config : Config.

Definition service_of (component : string) : ServiceConfig :=
  if String.eqb component "story" then story config else story_geth config.

(** *** The steps *)

Definition _save_upgrade_history : M state unit :=
  st <- get ;;
  _ <- call (DumpHistory (upgrade_history st)) ;;
  ret tt.

(** The two sync warnings that end [_pre_upgrade_checks] only log. *)
Definition _pre_upgrade_checks (component : string) : M state bool :=
  enter M_pre_upgrade_checks ;;
  health_status <- call_r CheckAll ;;
  match lookup "system" health_status with
  | None => ret false
  | Some system_health =>
      if negb (Health.healthy system_health) then ret false
      else
        free <- lift (dict_get "disk_free_gb" (Health.checks system_health)) ;;
        low <- lift (py_lt_float free (inject_Z 5)) ;;
        if low : bool then ret false else ret true
  end.

Definition _run_native_upgrade (component version : string)
  : M state (bool * string) :=
  enter M_run_native_upgrade ;;
  try_except
    (result <- call_r (Run [UPGRADE_SCRIPT; "upgrade"; component; version]) ;;
     if returncode result =? 0 then ret (true, "Upgrade completed successfully")
     else ret (false,
               if String.eqb (stderr result) "" then "Upgrade script failed"
               else stderr result))
    (fun e =>
       match exn_cls e with
       | TimeoutExpired => ret (false, "Upgrade timed out after 30 minutes")
       | _ => ret (false, ("Failed to execute upgrade script: " ++ exn_str e)%string)
       end).

Definition _create_backup (component : string) : M state string :=
  enter M_create_backup ;;
  stamp <- call Strftime ;;
  let backup_dir := path_join (backup_dir config) (component ++ "_" ++ stamp) in
  call_r (Mkdir backup_dir) ;;
  let binary_path := binary_path (service_of component) in
  present <- call (PathExists binary_path) ;;
  (if present : bool
   then call_r (Copy2 binary_path (path_join backup_dir (path_name binary_path)))
   else ret tt) ;;
  (if String.eqb component "story" then
     let config_dir := path_join (path_join (story_home config) "story") "config" in
     present <- call (PathExists config_dir) ;;
     if present : bool
     then call_r (Copytree config_dir (path_join backup_dir "config"))
     else ret tt
   else ret tt) ;;
  timestamp <- call Now ;;
  versions <- call GetCurrentVersions ;;
  call_r (WriteMetadata (path_join backup_dir "metadata.json") component timestamp
            (get_or versions component "unknown")) ;;
  ret backup_dir.

Definition _download_binary (component : string) (target : Watcher.Version)
  : M state (option string) :=
  enter M_download_binary ;;
  call_r (Download component target).

Definition _verify_binary (binary_path : string) : M state bool :=
  enter M_verify_binary ;;
  try_except
    (executable <- call_r (Access binary_path) ;;
     if negb executable then ret false
     else
       result <- call_r (Run [binary_path; "version"]) ;;
       if negb (returncode result =? 0) then ret false else ret true)
    (fun _ => ret false).

Definition _stop_service (component : string) : M state bool :=
  enter M_stop_service ;;
  let service_name := service_name (service_of component) in
  try_except
    (result <- call_r (Run ["sudo"; "systemctl"; "stop"; service_name]) ;;
     if negb (returncode result =? 0) then ret false
     else
       call (Sleep 5) ;;
       result <- call_r (Run ["systemctl"; "is-active"; service_name]) ;;
       if String.eqb (strip (stdout result)) "inactive" then ret true
       else ret false)
    (fun _ => ret false).

Definition _replace_binary (component new_binary_path : string) : M state bool :=
  enter M_replace_binary ;;
  try_except
    (let target_path := binary_path (service_of component) in
     present <- call (PathExists target_path) ;;
     (if present : bool then
        backup_path <- lift (with_suffix target_path ".backup") ;;
        call_r (Copy2 target_path backup_path)
      else ret tt) ;;
     call_r (Copy2 new_binary_path target_path) ;;
     call_r (Chmod target_path) ;;
     ret true)
    (fun _ => ret false).

Definition _start_service (component : string) : M state bool :=
  enter M_start_service ;;
  let service_name := service_name (service_of component) in
  try_except
    (result <- call_r (Run ["sudo"; "systemctl"; "start"; service_name]) ;;
     if negb (returncode result =? 0) then ret false
     else
       call (Sleep 10) ;;
       result <- call_r (Run ["systemctl"; "is-active"; service_name]) ;;
       if String.eqb (strip (stdout result)) "active" then ret true
       else ret false)
    (fun _ => ret false).

Definition _post_upgrade_verification (component expected_version : string)
  : M state bool :=
  enter M_post_upgrade_verification ;;
  call (Sleep 20) ;;
  current_versions <- call GetCurrentVersions ;;
  let actual_version := get_or current_versions component "unknown" in
  if negb (contains expected_version actual_version) then ret false
  else
    health_status <- call_r CheckAll ;;
    let component_health :=
      if String.eqb component "story" then lookup "story" health_status
      else lookup "story_geth" health_status in
    match component_health with
    | None => ret false
    | Some health =>
        component_health <-
          (if negb (Health.healthy health) then
             call (Sleep 30) ;;
             health_status <- call_r CheckAll ;;
             ret (lookup component health_status)
           else ret (Some health)) ;;
        match component_health with
        | Some health =>
            match dict_find "service_running" (Health.checks health) with
            | Some running => if truthy running then ret true else ret false
            | None => ret false
            end
        | None => ret false
        end
    end.

Definition _rollback (component backup_path : string) : M state bool :=
  enter M_rollback ;;
  try_except
    (_stop_service component ;;
     let target_path := binary_path (service_of component) in
     let backup_binary := path_join backup_path (path_name target_path) in
     present <- call (PathExists backup_binary) ;;
     (if present : bool then
        call_r (Copy2 backup_binary target_path) ;;
        call_r (Chmod target_path)
      else ret tt) ;;
     started <- _start_service component ;;
     if started : bool then ret true else ret false)
    (fun _ => ret false).

Definition _perform_legacy_upgrade (component : string) (target_version : Watcher.Version)
  : M state (bool * string) :=
  try_except
    (backup_path <- _create_backup component ;;
     update_record (set_backup_path backup_path) ;;
     binary_path <- _download_binary component target_version ;;
     match binary_path with
     | None => throw Exception "Failed to download binary"
     | Some binary_path =>
         verified <- _verify_binary binary_path ;;
         if negb verified then throw Exception "Binary verification failed"
         else
           stopped <- _stop_service component ;;
           if negb stopped then throw Exception "Failed to stop service"
           else
             replaced <- _replace_binary component binary_path ;;
             if negb replaced then throw Exception "Failed to replace binary"
             else
               started <- _start_service component ;;
               if negb started then
                 _rollback component backup_path ;;
                 throw Exception "Failed to start service after upgrade"
               else
                 verified <- _post_upgrade_verification component
                               (Watcher.version target_version) ;;
                 if negb verified then
                   _rollback component backup_path ;;
                   throw Exception "Post-upgrade verification failed"
                 else
                   update_record (set_success true) ;;
                   t <- call Now ;;
                   update_record (set_end_time t) ;;
                   ret (true,
                        ("Successfully upgraded " ++ component ++ " to "
                         ++ Watcher.version target_version)%string)
     end)
    (fun e => ret (false, exn_str e)).

(** The dictionary [perform_upgrade] starts from. *)
Definition begin_attempt (component : string) (target_version : Watcher.Version)
    (dry_run : bool) : M state unit :=
  versions <- call GetCurrentVersions ;;
  start <- call Now ;;
  update_record
    (fun _ => mkRecord component (get_or versions component "unknown")
                (Watcher.version target_version) start dry_run false None None None).

Definition perform_upgrade (component : string) (target_version : Watcher.Version)
    (dry_run : bool) : M state (bool * string) :=
  begin_attempt component target_version dry_run ;;
  try_finally
    (try_except
       (passed <- _pre_upgrade_checks component ;;
        if negb passed then throw Exception "Pre-upgrade checks failed"
        else if dry_run then
          update_record (set_success true) ;;
          ret (true, "Dry run completed successfully")
        else
          native <- call (PathExists UPGRADE_SCRIPT) ;;
          if native : bool then
            '(success, message) <-
              _run_native_upgrade component (Watcher.version target_version) ;;
            if success : bool then
              update_record (set_success true) ;;
              t <- call Now ;;
              update_record (set_end_time t) ;;
              ret (true,
                   ("Successfully upgraded " ++ component ++ " to "
                    ++ Watcher.version target_version)%string)
            else throw Exception message
          else _perform_legacy_upgrade component target_version)
       (fun e =>
          update_record (set_success false) ;;
          update_record (set_error (Some (exn_str e))) ;;
          t <- call Now ;;
          update_record (set_end_time t) ;;
          ret (false, ("Upgrade failed: " ++ exn_str e)%string)))
    (append_record ;; _save_upgrade_history).

(** The run the state-machine property speaks of: a real (not dry-run)
    attempt on the built-in path in which the pre-upgrade checks, the backup,
    the download, the verification, the service stop and the binary
    replacement all succeed, and the service start that follows fails. *)
Definition start_fails_after_replace (component : string)
    (target_version : Watcher.Version) (st0 : state) : Prop :=
  exists s1 s2 s3 backup s4 binary s5 s6 s7 s8 s9,
    begin_attempt component target_version false st0 = (Ok tt, s1) /\
    _pre_upgrade_checks component s1 = (Ok true, s2) /\
    call (PathExists UPGRADE_SCRIPT) s2 = (Ok false, s3) /\
    _create_backup component s3 = (Ok backup, s4) /\
    _download_binary component target_version
      (with_record (set_backup_path backup) s4) = (Ok (Some binary), s5) /\
    _verify_binary binary s5 = (Ok true, s6) /\
    _stop_service component s6 = (Ok true, s7) /\
    _replace_binary component binary s7 = (Ok true, s8) /\
    _start_service component s8 = (Ok false, s9).

(** *** What a statement does to the record

    [hoare P m Q E]: from a state whose record under construction satisfies
    [P], the statement [m] either returns a value [a] and leaves a record
    satisfying [Q a], or raises [e] and leaves a record satisfying [E e]. *)
Definition hoare {A} (P : UpgradeRecord -> Prop) (m : M state A)
    (Q : A -> UpgradeRecord -> Prop) (E : exn -> UpgradeRecord -> Prop) : Prop :=
  forall st,
    P (upgrade_record st) ->
    match m st with
    | (Ok a, st') => Q a (upgrade_record st')
    | (Raise e, st') => E e (upgrade_record st')
    end.

(** A real attempt on the built-in path in which everything up to and
    including the service start succeeds, and the post-upgrade verification
    then fails. *)
Definition verification_fails_after_start (component : string)
    (target_version : Watcher.Version) (st0 : state) : Prop :=
  exists s1 s2 s3 backup s4 binary s5 s6 s7 s8 s9 s10,
    begin_attempt component target_version false st0 = (Ok tt, s1) /\
    _pre_upgrade_checks component s1 = (Ok true, s2) /\
    call (PathExists UPGRADE_SCRIPT) s2 = (Ok false, s3) /\
    _create_backup component s3 = (Ok backup, s4) /\
    _download_binary component target_version
      (with_record (set_backup_path backup) s4) = (Ok (Some binary), s5) /\
    _verify_binary binary s5 = (Ok true, s6) /\
    _stop_service component s6 = (Ok true, s7) /\
    _replace_binary component binary s7 = (Ok true, s8) /\
    _start_service component s8 = (Ok true, s9) /\
    _post_upgrade_verification component (Watcher.version target_version) s9
    = (Ok false, s10).

(** A real attempt on the built-in path in which the service has been
    stopped and the replacement of the binary then fails. *)
Definition replace_fails_after_stop (component : string)
    (target_version : Watcher.Version) (st0 : state) : Prop :=
  exists s1 s2 s3 backup s4 binary s5 s6 s7 s8,
    begin_attempt component target_version false st0 = (Ok tt, s1) /\
    _pre_upgrade_checks component s1 = (Ok true, s2) /\
    call (PathExists UPGRADE_SCRIPT) s2 = (Ok false, s3) /\
    _create_backup component s3 = (Ok backup, s4) /\
    _download_binary component target_version
      (with_record (set_backup_path backup) s4) = (Ok (Some binary), s5) /\
    _verify_binary binary s5 = (Ok true, s6) /\
    _stop_service component s6 = (Ok true, s7) /\
    _replace_binary component binary s7 = (Ok false, s8).

(** What the handlers of [_run_native_upgrade] and [perform_upgrade] make
    of the answer to running the upgrade script: [None] when the script
    succeeds, the error text otherwise. *)
Definition script_error (answer : result CompletedProcess) : option string :=
  match answer with
  | Ok p =>
      if returncode p =? 0 then None
      else Some (if String.eqb (stderr p) "" then "Upgrade script failed"
                 else stderr p)
  | Raise e =>
      Some (match exn_cls e with
            | TimeoutExpired => "Upgrade timed out after 30 minutes"
            | _ => ("Failed to execute upgrade script: " ++ exn_str e)%string
            end)
  end.

End WithHost.

Arguments state W : clear implicits.

(** The events that stand for a change to the node: entering one of the
    mutating steps, or a host operation other than reading the clock, the
    installed versions, the health of the node and the presence of a file,
    and other than writing the history file. *)
Definition mutating (e : event) : bool :=
  match e with
  | Called M_pre_upgrade_checks => false
  | Called _ => true
  | Host o =>
      match o with
      | Now | Strftime | GetCurrentVersions | CheckAll | PathExists _
      | DumpHistory _ => false
      | _ => true
      end
  end.

Definition is_rollback (e : event) : bool :=
  match e with
  | Called M_rollback => true
  | _ => false
  end.

Definition rollback_attempts (l : list event) : nat :=
  List.length (filter is_rollback l).

Definition not_rollback (e : event) : Prop := is_rollback e = false.

Definition harmless (e : event) : Prop := mutating e = false.

Definition any_event (e : event) : Prop := True.

(** [rolls_back_at_most n m]: running [m] only extends the call log, by
    events among which at most [n] enter [_rollback]. *)
Definition rolls_back_at_most {W} (n : nat) {A} (m : M (state W) A) : Prop :=
  forall st,
    exists new,
      calls (snd (m st)) = calls st ++ new /\
      (rollback_attempts new <= n)%nat.

(** The record of an attempt that has not ended. *)
Definition unfinished (r : UpgradeRecord) : Prop :=
  success r = false /\ error r = None /\ end_time r = None.

(** How the pair an attempt returns and the record it leaves agree: the
    flag is the record's [success]; a successful real attempt has its end
    time; a record with an error text belongs to a failed attempt, has its
    end time, and its text is what the returned message reports. *)
Definition agrees (dry : bool) (returned : bool * string) (r : UpgradeRecord)
  : Prop :=
  success r = fst returned /\
  (fst returned = true -> error r = None /\ (dry = false -> end_time r <> None)) /\
  (forall text, error r = Some text ->
     fst returned = false /\ end_time r <> None /\
     snd returned = ("Upgrade failed: " ++ text)%string).

(** Events that leave a stopped service stopped: anything but entering
    [_start_service] or [_rollback]. *)
Definition keeps_service_down (e : event) : Prop :=
  match e with
  | Called M_start_service | Called M_rollback => False
  | _ => True
  end.

(** [get_upgrade_history(limit)]: [self.upgrade_history[-limit:]] *)
Definition get_upgrade_history (upgrade_history : list UpgradeRecord) (limit : Z)
  : list UpgradeRecord :=
  slice_from (- limit) upgrade_history.

(** *** Old backups

    What [cleanup_old_backups] finds under the backup directory: for each
    entry its path, whether it is a directory, what [metadata.json] holds
    ([None] when there is no such file, [Raise] when opening or decoding it
    fails) and what [shutil.rmtree] would answer. *)
Record BackupDir : Type := mkBackupDir {
  bd_path : string;
  bd_is_dir : bool;
  bd_metadata : option (result value);
  bd_rmtree : result unit
}.

(** [timestamp < cutoff] for the [timestamp] entry of a metadata document. *)
Definition is_stale (cutoff : datetime) (metadata : value) : result bool :=
  (ts <- py_getitem metadata "timestamp" ;;
   timestamp <- match ts with
                | VStr s => fromisoformat s
                | _ => raise TypeError "fromisoformat: argument must be str"
                end ;;
   dt_lt timestamp cutoff)%result.

(** The loop of [cleanup_old_backups]; the first exception ends it.  The
    result lists the directories [shutil.rmtree] was called on, in order. *)
Fixpoint cleanup_loop (cutoff : datetime) (dirs : list BackupDir) : list string :=
  match dirs with
  | [] => []
  | backup_dir :: rest =>
      if bd_is_dir backup_dir then
        match bd_metadata backup_dir with
        | None => cleanup_loop cutoff rest
        | Some (Raise _) => []
        | Some (Ok metadata) =>
            match is_stale cutoff metadata with
            | Ok true =>
                bd_path backup_dir ::
                match bd_rmtree backup_dir with
                | Ok _ => cleanup_loop cutoff rest
                | Raise _ => []
                end
            | Ok false => cleanup_loop cutoff rest
            | Raise _ => []
            end
        end
      else cleanup_loop cutoff rest
  end.

(** [cleanup_old_backups(days)].  [now] is the naive [datetime.now()],
    [iterdir] the entries of the backup directory ([Raise] when it cannot
    be listed; a listing that fails part-way is the list of the entries
    before the failure).  The cutoff is computed outside the handler. *)
Definition cleanup_old_backups (backup_retention_days : Z) (now : datetime)
    (days : option Z) (iterdir : result (list BackupDir)) : result (list string) :=
  (let days := match days with
               | Some d => d
               | None => backup_retention_days
               end in
   td <- mk_timedelta days 0 0 0 ;;
   cutoff <- dt_sub_td now td ;;
   Ok (match iterdir with
       | Ok dirs => cleanup_loop cutoff dirs
       | Raise _ => []
       end))%result.

(** A backup directory as [_create_backup] leaves it: a directory with a
    metadata file whose timestamp is the clock reading in ISO format. *)
Definition backup_made_at (path component version : string) (t : datetime)
  : BackupDir :=
  mkBackupDir path true
    (Some (Ok (VDict [ ("component", VStr component);
                       ("timestamp", VStr (isoformat t));
                       ("version", VStr version) ])))
    (Ok tt).

End Runner.

(* ================================================================= *)
(** ** sentinel/scheduler.py *)

Module Scheduler.
Import Py.
#[local] Open Scope result_scope.

Record ScheduledUpgrade : Type := mkScheduledUpgrade {
  component : string;
  current_version : string;
  target_version : string;
  scheduled_time : datetime;
  estimated_duration : timedelta;
  status : string;
  approval_required : bool;
  notes : option string
}.

Definition of_notes (n : option string) : value :=
  match n with
  | Some s => VStr s
  | None => VNone
  end.

(** [dataclasses.asdict] *)
Definition asdict (u : ScheduledUpgrade) : dict :=
  [ ("component", VStr (component u));
    ("current_version", VStr (current_version u));
    ("target_version", VStr (target_version u));
    ("scheduled_time", VDatetime (scheduled_time u));
    ("estimated_duration", VTimedelta (estimated_duration u));
    ("status", VStr (status u));
    ("approval_required", VBool (approval_required u));
    ("notes", of_notes (notes u)) ].

(** [ScheduledUpgrade.to_dict] *)
Definition to_dict (self : ScheduledUpgrade) : dict :=
  let data := asdict self in
  let data := dict_set "scheduled_time" (VStr (isoformat (scheduled_time self))) data in
  let data :=
    dict_set "estimated_duration" (VStr (str_timedelta (estimated_duration self))) data in
  data.

(** [hours, minutes, seconds = map(int, parts)]: the three targets are filled
    one conversion at a time, then a fourth item is asked for. *)
Definition unpack3_int (parts : list string) : result (Z * Z * Z) :=
  let short (k : Z) : result (Z * Z * Z) :=
    raise ValueError
      ("not enough values to unpack (expected 3, got " ++ fmt_d k ++ ")")%string in
  match parts with
  | [] => short 0
  | p1 :: r1 =>
      h <- int_of_str p1 ;;
      match r1 with
      | [] => short 1
      | p2 :: r2 =>
          m <- int_of_str p2 ;;
          match r2 with
          | [] => short 2
          | p3 :: r3 =>
              sec <- int_of_str p3 ;;
              match r3 with
              | [] => Ok (h, m, sec)
              | p4 :: _ =>
                  _ <- int_of_str p4 ;;
                  raise ValueError "too many values to unpack (expected 3)"
              end
          end
      end
  end.

(** The constructor call with the dictionary as keyword arguments.  A
    dataclass does not check the types of its fields; a dictionary whose
    values are not of the declared types builds an object outside this
    model, reported here as a [TypeError]. *)
Definition field_names : list string :=
  [ "component"; "current_version"; "target_version"; "scheduled_time";
    "estimated_duration"; "status"; "approval_required"; "notes" ].

Definition required (k : string) (data : dict) : result value :=
  match dict_find k data with
  | Some v => Ok v
  | None =>
      raise TypeError
        ("__init__() missing 1 required positional argument: '" ++ k ++ "'")%string
  end.

Definition ill_typed {A} (k : string) : result A :=
  raise TypeError ("field '" ++ k ++ "' holds a value of another type")%string.

Definition as_str (k : string) (v : value) : result string :=
  match v with VStr s => Ok s | _ => ill_typed k end.

Definition cls (data : dict) : result ScheduledUpgrade :=
  match find (fun kv => negb (existsb (String.eqb (fst kv)) field_names)) data with
  | Some (k, _) =>
      raise TypeError
        ("__init__() got an unexpected keyword argument '" ++ k ++ "'")%string
  | None =>
      c <- (v <- required "component" data ;; as_str "component" v) ;;
      cv <- (v <- required "current_version" data ;; as_str "current_version" v) ;;
      tv <- (v <- required "target_version" data ;; as_str "target_version" v) ;;
      st <- (v <- required "scheduled_time" data ;;
             match v with VDatetime d => Ok d | _ => ill_typed "scheduled_time" end) ;;
      ed <- (v <- required "estimated_duration" data ;;
             match v with VTimedelta t => Ok t | _ => ill_typed "estimated_duration" end) ;;
      sta <- match dict_find "status" data with
             | Some v => as_str "status" v
             | None => Ok "pending"
             end ;;
      ar <- match dict_find "approval_required" data with
            | Some (VBool b) => Ok b
            | Some _ => ill_typed "approval_required"
            | None => Ok true
            end ;;
      n <- match dict_find "notes" data with
           | Some (VStr s) => Ok (Some s)
           | Some VNone | None => Ok None
           | Some _ => ill_typed "notes"
           end ;;
      Ok (mkScheduledUpgrade c cv tv st ed sta ar n)
  end.

(** [ScheduledUpgrade.from_dict] *)
Definition from_dict (data : dict) : result ScheduledUpgrade :=
  v <- dict_get "scheduled_time" data ;;
  t <- match v with
       | VStr s => fromisoformat s
       | _ => raise TypeError "fromisoformat: argument must be str"
       end ;;
  let data := dict_set "scheduled_time" (VDatetime t) data in
  duration_str <- dict_get "estimated_duration" data ;;
  has_colon <- py_in ":" duration_str ;;
  if has_colon : bool then
    parts <- match duration_str with
             | VStr s => Ok (split_char ":" "" s)
             | _ => raise AttributeError "object has no attribute 'split'"
             end ;;
    '(hours, minutes, seconds) <- unpack3_int parts ;;
    td <- mk_timedelta 0 hours minutes seconds ;;
    cls (dict_set "estimated_duration" (VTimedelta td) data)
  else
    cls (dict_set "estimated_duration" (VTimedelta 0) data).

(** The scheduler: the queue in memory and the last schedule file written
    ([None] until a write succeeds). *)
Record UpgradeScheduler : Type := mkScheduler {
  scheduled_upgrades : list ScheduledUpgrade;
  schedule_file : option (list dict)
}.

(** [save_schedule]: a failing write is logged and leaves the file as it
    was; [io_ok] tells whether the write goes through. *)
Definition save_schedule (io_ok : bool) (self : UpgradeScheduler) : UpgradeScheduler :=
  if io_ok
  then mkScheduler (scheduled_upgrades self)
                   (Some (map to_dict (scheduled_upgrades self)))
  else self.

(** [upgrade.status in ['pending', 'approved']] *)
Definition is_open (u : ScheduledUpgrade) : bool :=
  String.eqb (status u) "pending" || String.eqb (status u) "approved".

(** The default slot of [get_next_maintenance_window]: 02:00 UTC of the
    current day, or of the next day once 02:00 has passed.  [now] is
    [datetime.now(pytz.UTC)]. *)
Definition default_window (now : datetime) : result datetime :=
  let next_window := dt_replace_hour now 2 in
  if 2 <=? dt_hour now then dt_add next_window (days 1) else Ok next_window.

(** The conflict loop of [get_next_maintenance_window]. *)
Fixpoint resolve_conflicts (upgrades : list ScheduledUpgrade) (next_window : datetime)
  : result datetime :=
  match upgrades with
  | [] => Ok next_window
  | upgrade :: rest =>
      if is_open upgrade then
        upgrade_end <- dt_add (scheduled_time upgrade) (estimated_duration upgrade) ;;
        starts_before <- dt_le (scheduled_time upgrade) next_window ;;
        if starts_before then
          ends_after <- dt_le next_window upgrade_end ;;
          if ends_after then
            next_window <- dt_add upgrade_end (minutes 30) ;;
            resolve_conflicts rest next_window
          else resolve_conflicts rest next_window
        else resolve_conflicts rest next_window
      else resolve_conflicts rest next_window
  end.

Definition get_next_maintenance_window (self : UpgradeScheduler) (now : datetime)
  : result datetime :=
  next_window <- default_window now ;;
  resolve_conflicts (scheduled_upgrades self) next_window.

(** [list.sort(key=lambda x: x.scheduled_time)]: stable; it has to compare
    keys across the whole list, so a list mixing naive and aware times makes
    it raise.  [insert_by_time x l] puts [x], which comes before the items
    of the sorted [l] in the original list, in front of the first item that
    is not earlier than it. *)
Fixpoint insert_by_time (x : ScheduledUpgrade) (l : list ScheduledUpgrade)
  : list ScheduledUpgrade :=
  match l with
  | [] => [x]
  | y :: l' =>
      if dt_utc (scheduled_time y) <? dt_utc (scheduled_time x)
      then y :: insert_by_time x l'
      else x :: l
  end.

Definition same_awareness (a b : ScheduledUpgrade) : bool :=
  comparable (scheduled_time a) (scheduled_time b).

Definition sort_by_scheduled_time (l : list ScheduledUpgrade)
  : result (list ScheduledUpgrade) :=
  match l with
  | [] => Ok []
  | x :: _ =>
      if forallb (same_awareness x) l then Ok (fold_right insert_by_time [] l)
      else raise TypeError "can't compare offset-naive and offset-aware datetimes"
  end.

(** [schedule_upgrade].  [current_version] is
    [config.get_current_versions().get(component, 'unknown')], [now] the
    clock read by [get_next_maintenance_window]. *)
Definition schedule_upgrade (self : UpgradeScheduler) (now : datetime)
    (io_ok : bool) (current_version : string)
    (component : string) (target_version : Watcher.Version)
    (scheduled_time : option datetime) (auto_approve : bool)
  : result (ScheduledUpgrade * UpgradeScheduler) :=
  scheduled_time <-
    match scheduled_time with
    | None => get_next_maintenance_window self now
    | Some t => Ok t
    end ;;
  let base_duration := minutes 10 in
  let base_duration :=
    if String.eqb component "story" then minutes 15 else base_duration in
  let upgrade :=
    mkScheduledUpgrade component current_version
      (Watcher.version target_version) scheduled_time base_duration
      (if auto_approve then "approved" else "pending")
      (negb auto_approve)
      (Some ("Upgrade from " ++ current_version ++ " to "
             ++ Watcher.version target_version)%string) in
  sorted <- sort_by_scheduled_time (scheduled_upgrades self ++ [upgrade]) ;;
  Ok (upgrade, save_schedule io_ok (mkScheduler sorted (schedule_file self))).

(** [cleanup_old_upgrades(days)]; [now] is the naive [datetime.now()]. *)
Fixpoint keep_recent (cutoff : datetime) (l : list ScheduledUpgrade)
  : result (list ScheduledUpgrade) :=
  match l with
  | [] => Ok []
  | u :: rest =>
      keep <- (if is_open u then Ok true else dt_gt (scheduled_time u) cutoff) ;;
      kept <- keep_recent cutoff rest ;;
      Ok (if keep then u :: kept else kept)
  end.

(** The test of the comprehension, once the comparison is known not to
    raise. *)
Definition keeps (cutoff : datetime) (u : ScheduledUpgrade) : bool :=
  is_open u || (dt_utc cutoff <? dt_utc (scheduled_time u)).

Definition cutoff_of (now : datetime) (ndays : Z) : result datetime :=
  td <- mk_timedelta ndays 0 0 0 ;;
  dt_sub_td now td.

Definition cleanup_old_upgrades (self : UpgradeScheduler) (now : datetime)
    (io_ok : bool) (ndays : Z) : result UpgradeScheduler :=
  cutoff <- cutoff_of now ndays ;;
  kept <- keep_recent cutoff (scheduled_upgrades self) ;;
  Ok (save_schedule io_ok (mkScheduler kept (schedule_file self))).

(** [w] lies in the closed interval an entry occupies,
    [scheduled_time, scheduled_time + estimated_duration]. *)
Definition inside (w : datetime) (e : ScheduledUpgrade) : bool :=
  (dt_utc (scheduled_time e) <=? dt_utc w) &&
  (dt_utc w <=? dt_utc (scheduled_time e) + estimated_duration e).

(** *** The queue operations

    The entries are objects held by the list, so an assignment to
    [upgrade.status] shows in the queue: [update_at n f l] is the list with
    the item at position [n] replaced by [f] of it. *)
Definition set_status (s : string) (u : ScheduledUpgrade) : ScheduledUpgrade :=
  mkScheduledUpgrade (component u) (current_version u) (target_version u)
    (scheduled_time u) (estimated_duration u) s (approval_required u) (notes u).

Fixpoint update_at (n : nat) (f : ScheduledUpgrade -> ScheduledUpgrade)
    (l : list ScheduledUpgrade) : list ScheduledUpgrade :=
  match l, n with
  | [], _ => []
  | u :: l', O => f u :: l'
  | u :: l', S n' => u :: update_at n' f l'
  end.

(** [get_pending_upgrades] *)
Definition get_pending_upgrades (self : UpgradeScheduler) : list ScheduledUpgrade :=
  filter (fun u => String.eqb (status u) "pending") (scheduled_upgrades self).

(** The comprehension of [get_upcoming_upgrades]: a closed entry is not
    compared with the cutoff. *)
Fixpoint upcoming (cutoff : datetime) (l : list ScheduledUpgrade)
  : result (list ScheduledUpgrade) :=
  match l with
  | [] => Ok []
  | u :: rest =>
      keep <- (if is_open u then dt_le (scheduled_time u) cutoff else Ok false) ;;
      kept <- upcoming cutoff rest ;;
      Ok (if keep then u :: kept else kept)
  end.

(** [get_upcoming_upgrades(hours)]; [now] is the naive [datetime.now()]. *)
Definition get_upcoming_upgrades (self : UpgradeScheduler) (now : datetime)
    (hours : Z) : result (list ScheduledUpgrade) :=
  td <- mk_timedelta 0 hours 0 0 ;;
  cutoff <- dt_add now td ;;
  upcoming cutoff (scheduled_upgrades self).

(** [approve_upgrade(upgrade_index)] *)
Definition approve_upgrade (self : UpgradeScheduler) (io_ok : bool)
    (upgrade_index : Z) : bool * UpgradeScheduler :=
  if (0 <=? upgrade_index)
     && (upgrade_index <? Z.of_nat (List.length (scheduled_upgrades self))) then
    match nth_error (scheduled_upgrades self) (Z.to_nat upgrade_index) with
    | Some upgrade =>
        if String.eqb (status upgrade) "pending" then
          (true,
           save_schedule io_ok
             (mkScheduler
                (update_at (Z.to_nat upgrade_index) (set_status "approved")
                   (scheduled_upgrades self))
                (schedule_file self)))
        else (false, self)
    | None => (false, self)
    end
  else (false, self).

(** [cancel_upgrade(upgrade_index)] *)
Definition cancel_upgrade (self : UpgradeScheduler) (io_ok : bool)
    (upgrade_index : Z) : bool * UpgradeScheduler :=
  if (0 <=? upgrade_index)
     && (upgrade_index <? Z.of_nat (List.length (scheduled_upgrades self))) then
    match nth_error (scheduled_upgrades self) (Z.to_nat upgrade_index) with
    | Some upgrade =>
        if is_open upgrade then
          (true,
           save_schedule io_ok
             (mkScheduler
                (update_at (Z.to_nat upgrade_index) (set_status "cancelled")
                   (scheduled_upgrades self))
                (schedule_file self)))
        else (false, self)
    | None => (false, self)
    end
  else (false, self).

(** The loop of [mark_completed]: the first approved entry for the
    component and version is marked, and the loop stops there. *)
Fixpoint mark_first (comp version : string) (l : list ScheduledUpgrade)
  : option (list ScheduledUpgrade) :=
  match l with
  | [] => None
  | upgrade :: rest =>
      if String.eqb (component upgrade) comp
         && String.eqb (target_version upgrade) version
         && String.eqb (status upgrade) "approved"
      then Some (set_status "completed" upgrade :: rest)
      else option_map (cons upgrade) (mark_first comp version rest)
  end.

(** [mark_completed(component, version)] *)
Definition mark_completed (self : UpgradeScheduler) (io_ok : bool)
    (comp version : string) : UpgradeScheduler :=
  match mark_first comp version (scheduled_upgrades self) with
  | Some upgrades => save_schedule io_ok (mkScheduler upgrades (schedule_file self))
  | None => self
  end.

(** *** Reading the schedule back

    Iterating over a decoded JSON document: the items of a list, the keys of
    an object, the characters of a string. *)
Definition py_iter (v : value) : result (list value) :=
  match v with
  | VList l => Ok l
  | VDict d => Ok (map (fun kv => VStr (fst kv)) d)
  | VStr s => Ok (map (fun c => VStr (String c "")) (list_ascii_of_string s))
  | _ => raise TypeError "object is not iterable"
  end.

(** [ScheduledUpgrade.from_dict(item)] for an item of the document: an item
    that is not an object fails at [data['scheduled_time']]. *)
Definition from_dict_item (item : value) : result ScheduledUpgrade :=
  match item with
  | VDict data => from_dict data
  | _ => _ <- py_getitem item "scheduled_time" ;;
         raise TypeError "object is not subscriptable"
  end.

Fixpoint from_dict_all (items : list value) : result (list ScheduledUpgrade) :=
  match items with
  | [] => Ok []
  | item :: rest =>
      u <- from_dict_item item ;;
      us <- from_dict_all rest ;;
      Ok (u :: us)
  end.

(** [load_schedule].  [file] is what the schedule file holds: [None] when
    it does not exist, [Raise] when opening or decoding it fails, the decoded
    document otherwise.  The queue is assigned only once every item has been
    read. *)
Definition load_schedule (file : option (result value)) (self : UpgradeScheduler)
  : UpgradeScheduler :=
  match file with
  | Some (Ok data) =>
      match (items <- py_iter data ;; from_dict_all items) with
      | Ok upgrades => mkScheduler upgrades (schedule_file self)
      | Raise _ => self
      end
  | _ => self
  end.

(** What [load_schedule] finds after [save_schedule]: the document that
    [json.dump] wrote, decoded again (strings, booleans and [None] come back
    as they were). *)
Definition stored_schedule (self : UpgradeScheduler) : option (result value) :=
  option_map (fun file => Ok (VList (map VDict file))) (schedule_file self).

(** [UpgradeScheduler(config)]: an empty queue, then [load_schedule]. *)
Definition __init__ (file : option (result value)) : UpgradeScheduler :=
  load_schedule file (mkScheduler [] None).

(** An entry that the schedule file can hold: a scheduled time the
    [datetime] type can hold, and a duration that is a whole number of
    seconds, not negative and shorter than a day. *)
Definition storable (u : ScheduledUpgrade) : Prop :=
  dt_valid (scheduled_time u) = true /\
  0 <= estimated_duration u < US_PER_DAY /\
  estimated_duration u mod US_PER_SECOND = 0.

(** Sorted by scheduled time, earliest first. *)
Fixpoint sorted_by_time (l : list ScheduledUpgrade) : bool :=
  match l with
  | [] => true
  | x :: l' =>
      forallb (fun y => dt_utc (scheduled_time x) <=? dt_utc (scheduled_time y)) l'
      && sorted_by_time l'
  end.

(** The moves of an entry's status: approval of a pending entry,
    cancellation of a pending or approved one, completion of an approved
    one; or the entry stays as it is. *)
Definition advances (u u' : ScheduledUpgrade) : Prop :=
  u' = u \/
  (status u = "pending" /\ u' = set_status "approved" u) \/
  (is_open u = true /\ u' = set_status "cancelled" u) \/
  (status u = "approved" /\ u' = set_status "completed" u).

(** *** Upgrades decided by governance

    [_get_current_block_height]; [status_body] is the decoded body of the
    status call, [Raise] the call or the decoding raising. *)
Definition _get_current_block_height (status_body : result value) : option Z :=
  match
    (data <- status_body ;;
     has_result <- py_in "result" data ;;
     if has_result : bool then
       result <- py_getitem data "result" ;;
       sync_info <- py_getitem result "sync_info" ;;
       v <- py_getitem sync_info "latest_block_height" ;;
       n <- py_int v ;;
       Ok (Some n)
     else Ok None)
  with
  | Ok height => height
  | Raise _ => None
  end.

(** [schedule_governance_upgrade(proposal)].  [now] is the naive
    [datetime.now()], [current_version] is [config.story.current_version].
    The entry is appended; the queue is not sorted again. *)
Definition schedule_governance_upgrade (self : UpgradeScheduler) (now : datetime)
    (io_ok : bool) (current_version : option string) (status_body : result value)
    (proposal : Watcher.GovernanceProposal)
  : result (option ScheduledUpgrade * UpgradeScheduler) :=
  match Watcher.upgrade_height proposal, Watcher.upgrade_version proposal with
  | Some upgrade_height, Some upgrade_version =>
      if (upgrade_height =? 0) || String.eqb upgrade_version "" then Ok (None, self)
      else
        match _get_current_block_height status_body with
        | Some current_height =>
            if current_height =? 0 then Ok (None, self)
            else
              let blocks_until_upgrade := upgrade_height - current_height in
              td <- mk_timedelta 0 0 0 (blocks_until_upgrade * 5) ;;
              estimated_time <- dt_add now td ;;
              scheduled_time <- dt_sub_td estimated_time (minutes 30) ;;
              let upgrade :=
                mkScheduledUpgrade "story"
                  match current_version with
                  | Some v => if String.eqb v "" then "unknown" else v
                  | None => "unknown"
                  end
                  upgrade_version scheduled_time (minutes 30) "approved" false
                  (Some ("Governance proposal #"
                         ++ fmt_d (Watcher.proposal_id proposal) ++ ": "
                         ++ Watcher.title proposal)%string) in
              Ok (Some upgrade,
                  save_schedule io_ok
                    (mkScheduler (scheduled_upgrades self ++ [upgrade])
                                 (schedule_file self)))
        | None => Ok (None, self)
        end
  | _, _ => Ok (None, self)
  end.

(** An item of the schedule file that [from_dict] surely refuses, whatever
    its other fields hold: it is not an object; it has no [scheduled_time],
    or one that is not a string or is shorter than the seven characters of
    the shortest date; it has no [estimated_duration], or one that is a
    number, a boolean or [None], or a string with a colon that does not split
    into three parts; it lacks [component], [current_version] or
    [target_version]; or it has a key that is not a field. *)
Definition malformed (item : value) : bool :=
  match item with
  | VDict data =>
      match dict_find "scheduled_time" data with
      | Some (VStr s) => (String.length s <? 7)%nat
      | _ => true
      end
      || match dict_find "estimated_duration" data with
         | Some (VStr s) =>
             contains ":" s
             && negb (List.length (split_char ":" "" s) =? 3)%nat
         | Some (VList _) | Some (VDict _) => false
         | _ => true
         end
      || negb (forallb (fun k => match dict_find k data with
                                 | Some _ => true
                                 | None => false
                                 end)
                 ["component"; "current_version"; "target_version"])
      || existsb (fun kv => negb (existsb (String.eqb (fst kv)) field_names)) data
  | _ => true
  end.

End Scheduler.

(* ================================================================= *)
(** ** The version ordering as the specification words it *)

Module VersionSpec.
Import Py.

(** Strip any leading non-digit prefix. *)
Fixpoint strip_non_digit_prefix (s : string) : string :=
  match s with
  | EmptyString => EmptyString
  | String c s' => if is_digit c then s else strip_non_digit_prefix s'
  end.

(** The tuple of maximal digit runs, as integers. *)
Definition digit_run_tuple (s : string) : list Z :=
  map (int_digits 0) (findall_digits (strip_non_digit_prefix s)).

(** Lexicographic "greater than" with the shorter tuple padded by zeros:
    [gt_zeros a] compares [a] with a tuple of zeros, [zeros_gt b] compares a
    tuple of zeros with [b]. *)
Fixpoint gt_zeros (a : list Z) : bool :=
  match a with
  | [] => false
  | x :: a' => if x =? 0 then gt_zeros a' else 0 <? x
  end.

Fixpoint zeros_gt (b : list Z) : bool :=
  match b with
  | [] => false
  | y :: b' => if 0 =? y then zeros_gt b' else y <? 0
  end.

Fixpoint padded_gt (a b : list Z) : bool :=
  match a, b with
  | [], _ => zeros_gt b
  | _ :: _, [] => gt_zeros a
  | x :: a', y :: b' => if x =? y then padded_gt a' b' else y <? x
  end.

(** Lexicographic "greater than" without padding: [a] and [b] share a prefix
    after which either [b] ends and [a] goes on, or [a] carries the larger
    integer. *)
Definition lex_gt (a b : list Z) : Prop :=
  exists p x a',
    a = p ++ x :: a' /\
    (b = p \/ exists y b', b = p ++ y :: b' /\ y < x).

End VersionSpec.

(* ================================================================= *)
(** ** Concrete values used by the examples of Part II *)

Module Examples.
Import Py.

(** A wall-clock reading given by its calendar fields. *)
Definition wall (year month day hh mm : Z) : Z :=
  (_ymd2ord year month day - 1) * US_PER_DAY + hh * US_PER_HOUR + mm * US_PER_MINUTE.

Definition naive (year month day hh mm : Z) : datetime :=
  mkDatetime (wall year month day hh mm) None.

Definition utc (year month day hh mm : Z) : datetime :=
  mkDatetime (wall year month day hh mm) (Some 0).

Definition entry (c : string) (t : datetime) (d : timedelta) (st : string)
  : Scheduler.ScheduledUpgrade :=
  Scheduler.mkScheduledUpgrade c "1.0.0" "1.1.0" t d st true None.

(** Two pending entries booked for the same 02:00 slot. *)
Definition geth_0200 : Scheduler.ScheduledUpgrade :=
  entry "story_geth" (utc 2024 5 2 2 0) (minutes 10) "pending".

Definition story_0200 : Scheduler.ScheduledUpgrade :=
  entry "story" (utc 2024 5 2 2 0) (minutes 15) "pending".

Definition two_at_0200 : Scheduler.UpgradeScheduler :=
  Scheduler.mkScheduler [geth_0200; story_0200] None.

Definition one_at_0200 : Scheduler.UpgradeScheduler :=
  Scheduler.mkScheduler [story_0200] None.

(** An entry completed exactly thirty days before the clock reading. *)
Definition done_march_1 : Scheduler.ScheduledUpgrade :=
  entry "story" (naive 2024 3 1 0 0) (minutes 15) "completed".

Definition old_pending : Scheduler.ScheduledUpgrade :=
  entry "story_geth" (naive 2020 1 1 0 0) (minutes 10) "pending".

(** A completed entry that had been booked in the default 02:00 UTC window:
    its scheduled time carries the UTC offset. *)
Definition done_in_window : Scheduler.ScheduledUpgrade :=
  entry "story" (utc 2024 3 1 2 0) (minutes 15) "completed".

(** A queue entry whose duration is one day. *)
Definition day_long : Scheduler.ScheduledUpgrade :=
  entry "story" (utc 2024 5 2 2 0) (days 1) "pending".

(** A consensus-client probe on a host where everything answers: the
    service is active, eight peers, a clean journal.  [cu] and [t] are the
    [catching_up] and [latest_block_time] fields of the status body. *)
Definition status_body (cu t : value) : value :=
  VDict [ ("result",
           VDict [ ("sync_info",
                    VDict [ ("catching_up", cu);
                            ("latest_block_height", VStr "12345");
                            ("latest_block_time", t) ]);
                   ("validator_info",
                    VDict [ ("voting_power", VStr "1000000") ]) ]) ].

Definition net_info_body (peers : nat) : value :=
  VDict [ ("result", VDict [ ("peers", VList (repeat (VDict []) peers)) ]) ].

Definition story_probe (cu t : value) : Health.StoryProbe :=
  Health.mkStoryProbe None (Ok "active") (Ok (status_body cu t))
    (Ok (net_info_body 8)) (Ok "") (Ok [(Some "story", Some 1073741824)])
    (naive 2024 1 1 0 1).

Definition checker : Health.HealthChecker :=
  Health.mkHealthChecker
    (Health.mkConfig "story" (Health.mkThresholds 5 10 (inject_Z 10))) [].

(** A system probe on which [os.getloadavg()] raises. *)
Definition no_loadavg : Health.SystemProbe :=
  Health.mkSystemProbe (Ok (inject_Z 12)) (Ok (inject_Z 40))
    (Ok (8 * 1024 * 1024 * 1024))
    (Raise (mkExn OSError "Load averages are unobtainable"))
    (Ok (inject_Z 50, 100 * 1024 * 1024 * 1024))
    (naive 2024 1 1 0 1).

(** A scripted host for the runner.  It keeps whether the service is
    active; the health report, the presence of the upgrade script, the
    outcome of the download and whether [systemctl start] works are fixed in
    advance. *)
Record scripted : Type := mkScripted {
  sc_health : result (list (string * Health.HealthStatus));
  sc_script : bool;
  sc_download : result (option string);
  sc_start_works : bool;
  sc_active : bool
}.

Definition set_active (b : bool) (w : scripted) : scripted :=
  mkScripted (sc_health w) (sc_script w) (sc_download w) (sc_start_works w) b.

Definition run_scripted (cmd : list string) (w : scripted)
  : result Runner.CompletedProcess * scripted :=
  let done := Runner.mkProcess 0 "" "" in
  if String.eqb (nth 0 cmd "") "sudo" then
    if String.eqb (nth 2 cmd "") "stop" then (Ok done, set_active false w)
    else if sc_start_works w then (Ok done, set_active true w)
    else (Ok (Runner.mkProcess 1 "" "Job for story.service failed"), w)
  else if String.eqb (nth 1 cmd "") "is-active" then
    (Ok (Runner.mkProcess 0 (if sc_active w then "active" else "inactive") ""), w)
  else (Ok done, w).

#[export] Instance scripted_host : Runner.HostModel scripted :=
  fun R o w =>
    match o in Runner.op R return R * scripted with
    | Runner.Now => ("2024-05-01T12:00:00", w)
    | Runner.Strftime => ("20240501_120000", w)
    | Runner.Sleep _ => (tt, w)
    | Runner.GetCurrentVersions => ([("story", "1.0.0"); ("story_geth", "1.0.0")], w)
    | Runner.CheckAll => (sc_health w, w)
    | Runner.PathExists p =>
        (if String.eqb p Runner.UPGRADE_SCRIPT then sc_script w else true, w)
    | Runner.Access _ => (Ok true, w)
    | Runner.Run cmd => run_scripted cmd w
    | Runner.Mkdir _ | Runner.Copy2 _ _ | Runner.Copytree _ _ | Runner.Chmod _
    | Runner.WriteMetadata _ _ _ _ | Runner.DumpHistory _ => (Ok tt, w)
    | Runner.Download _ _ => (sc_download w, w)
    end.

Definition node_config : Runner.Config :=
  Runner.mkConfig (Runner.mkServiceConfig "/usr/local/bin/story" "story")
                  (Runner.mkServiceConfig "/usr/local/bin/story-geth" "story-geth")
                  "/var/backups/story-sentinel" "/root/.story".

Definition system_status (ok : bool) : list (string * Health.HealthStatus) :=
  [ ("system",
     Health.mkHealthStatus ok "system" [("disk_free_gb", VFloat (inject_Z 20))]
       (naive 2024 5 1 12 0) "") ].

Definition fresh (w : scripted) : Runner.state scripted :=
  Runner.mkState w [] []
    (Runner.mkRecord "" "" "" "" false false None None None).

(** The host is fit, there is no upgrade script, the download fails. *)
Definition download_fails : scripted :=
  mkScripted (Ok (system_status true)) false (Ok None) true true.

(** The host is fit, there is no upgrade script, the download works and the
    service does not start again. *)
Definition start_fails : scripted :=
  mkScripted (Ok (system_status true)) false (Ok (Some "/tmp/dl/story")) false true.

(** The system report is unhealthy. *)
Definition unfit : scripted :=
  mkScripted (Ok (system_status false)) false (Ok (Some "/tmp/dl/story")) true true.

Definition fit : scripted :=
  mkScripted (Ok (system_status true)) false (Ok (Some "/tmp/dl/story")) true true.

Definition v1_1_0 : Watcher.Version := Watcher.of_version "1.1.0".

(** The host is fit and the upgrade script is installed. *)
Definition with_script : scripted :=
  mkScripted (Ok (system_status true)) true (Ok None) true true.

(** A scripted host on which the installed story binary cannot be
    written. *)
Record read_only : Type := mkReadOnly { ro_host : scripted }.

#[export] Instance read_only_host : Runner.HostModel read_only :=
  fun R o w =>
    match o in Runner.op R return R * read_only with
    | Runner.Copy2 src dst =>
        if String.eqb dst "/usr/local/bin/story"
        then (Raise (mkExn OSError "[Errno 30] Read-only file system"), w)
        else (Ok tt, w)
    | o' => let '(r, w') := scripted_host _ o' (ro_host w) in (r, mkReadOnly w')
    end.

Definition fresh_read_only (w : scripted) : Runner.state read_only :=
  Runner.mkState (mkReadOnly w) [] []
    (Runner.mkRecord "" "" "" "" false false None None None).

(** A consensus-client probe on a host whose service has failed and whose
    RPC port is closed. *)
Definition stopped_probe : Health.StoryProbe :=
  Health.mkStoryProbe None (Ok "failed")
    (Raise (mkExn OSError "Connection refused"))
    (Raise (mkExn OSError "Connection refused"))
    (Ok "story[812]: wrong app hash") (Ok [(Some "systemd", Some 4096)])
    (naive 2024 1 1 0 1).

(** An execution-client probe on a host where everything answers;
    [syncing_result] is the [result] field of the [eth_syncing] body. *)
Definition geth_probe (syncing_result : value) : Health.GethProbe :=
  Health.mkGethProbe None (Ok "active")
    (Ok (VDict [ ("jsonrpc", VStr "2.0"); ("id", VInt 1);
                 ("result", syncing_result) ]))
    (Ok (VDict [ ("result", VStr "0x1b4") ]))
    (Ok (VDict [ ("result", VStr "0x19") ]))
    (Ok [(Some "story-geth", Some 1073741824)])
    (naive 2024 1 1 0 1).

(** A system probe on a host with exactly 2 GiB of memory available. *)
Definition two_gib_free : Health.SystemProbe :=
  Health.mkSystemProbe (Ok (inject_Z 12)) (Ok (inject_Z 75))
    (Ok (2 * 1024 * 1024 * 1024)) (Ok (inject_Z 1, inject_Z 1, inject_Z 1))
    (Ok (inject_Z 50, 100 * 1024 * 1024 * 1024))
    (naive 2024 1 1 0 1).

(** A governance proposal for an upgrade at height 20000, and a status body
    of a node at height 12345. *)
Definition proposal_7 : Watcher.GovernanceProposal :=
  Watcher.mkProposal 7 "Upgrade to v1.2.0" "" "passed" (utc 2024 4 30 0 0)
    (Some 20000) (Some "1.2.0").

End Examples.

(* ################################################################# *)
(** * Part II: properties *)

Module WatcherProps.
Import Py Watcher VersionSpec.

Lemma findall_skip_non_digit c s :
  is_digit c = false ->
  findall_digits (String c s) = findall_digits s.
Proof. unfold findall_digits; simpl; intros ->; reflexivity. Qed.

Lemma is_digit_v : is_digit "v" = false.
Proof. reflexivity. Qed.

Lemma findall_lstrip_v s :
  findall_digits (lstrip "v" s) = findall_digits s.
Proof.
  induction s as [|c s IH]; simpl; [reflexivity|].
  destruct (Ascii.eqb_spec c "v") as [->|Hc]; simpl.
  - rewrite IH. symmetry. apply findall_skip_non_digit, is_digit_v.
  - reflexivity.
Qed.

Lemma findall_strip_prefix s :
  findall_digits (strip_non_digit_prefix s) = findall_digits s.
Proof.
  induction s as [|c s IH]; simpl; [reflexivity|].
  destruct (is_digit c) eqn:Hd; [reflexivity|].
  rewrite IH. symmetry. now apply findall_skip_non_digit.
Qed.

(** The code's tuple is the specification's tuple of digit runs. *)
Lemma parse_version_digit_runs s :
  _parse_version s = digit_run_tuple s.
Proof.
  unfold _parse_version, digit_run_tuple.
  now rewrite findall_lstrip_v, findall_strip_prefix.
Qed.

Lemma tuple_gt_lex a b : tuple_gt a b = true <-> lex_gt a b.
Proof.
  split.
  - revert b; induction a as [|x a IH]; intros [|y b] H; simpl in H;
      try discriminate.
    + exists [], x, a. split; [reflexivity|now left].
    + destruct (Z.eqb_spec x y) as [->|Hxy].
      * destruct (IH _ H) as (p & x' & a' & -> & Hb).
        exists (y :: p), x', a'. split; [reflexivity|].
        destruct Hb as [->|(y' & b' & -> & Hlt)]; [now left|right].
        now exists y', b'.
      * exists [], x, a. split; [reflexivity|right].
        exists y, b. split; [reflexivity|]. now apply Z.ltb_lt.
  - intros (p & x & a' & -> & Hb).
    destruct Hb as [->|(y & b' & -> & Hlt)].
    + induction p as [|z p IH]; simpl; [reflexivity|].
      now rewrite Z.eqb_refl.
    + induction p as [|z p IH]; simpl.
      * destruct (Z.eqb_spec x y); [lia|]. now apply Z.ltb_lt.
      * now rewrite Z.eqb_refl.
Qed.

(** C2, as stated, fails: the code ranks 1.2.3.0 above 1.2.3, while the
    zero-padded comparison of the claim makes them equal. *)
Lemma C2_padding_counterexample :
  __gt__ (of_version "1.2.3.0") (of_version "1.2.3") = true /\
  padded_gt (digit_run_tuple "1.2.3.0") (digit_run_tuple "1.2.3") = false.
Proof. split; reflexivity. Qed.

(** C2 (amended): [Version(a) > Version(b)] holds iff the tuple of maximal
    digit runs of [a] (after stripping the leading non-digit prefix) is
    lexicographically greater than that of [b], a tuple that is a proper
    prefix of the other being the smaller one (no zero padding); in
    particular 1.10.0 > 1.9.0, and 1.2.3.0 > 1.2.3 while 1.2.3 is not
    greater than 1.2.3.0. *)
Theorem C2_version_gt_lexicographic :
  (forall a b : Version,
      __gt__ a b = true <->
      lex_gt (digit_run_tuple (version a)) (digit_run_tuple (version b))) /\
  __gt__ (of_version "1.10.0") (of_version "1.9.0") = true /\
  __gt__ (of_version "1.2.3.0") (of_version "1.2.3") = true /\
  __gt__ (of_version "1.2.3") (of_version "1.2.3.0") = false.
Proof.
  split; [|repeat split; reflexivity].
  intros a b. unfold __gt__.
  rewrite !parse_version_digit_runs. apply tuple_gt_lex.
Qed.

End WatcherProps.

(* ================================================================= *)
(** ** Facts about [datetime] arithmetic *)

Module DatetimeFacts.
Import Py.

Lemma dt_add_ok d t d' :
  dt_add d t = Ok d' ->
  dt_us d' = dt_us d + t /\ dt_off d' = dt_off d.
Proof.
  unfold dt_add. destruct (dt_in_range _); [|discriminate].
  intros [= <-]. now split.
Qed.

Lemma dt_add_utc d t d' :
  dt_add d t = Ok d' -> dt_utc d' = dt_utc d + t.
Proof.
  intros H. apply dt_add_ok in H as [Hus Hoff].
  unfold dt_utc. rewrite Hoff, Hus. destruct (dt_off d); lia.
Qed.

Lemma dt_add_comparable d t d' x :
  dt_add d t = Ok d' -> comparable d' x = comparable d x.
Proof.
  intros H. apply dt_add_ok in H as [_ Hoff].
  unfold comparable. now rewrite Hoff.
Qed.

Lemma dt_le_ok a b c :
  dt_le a b = Ok c ->
  comparable a b = true /\ c = (dt_utc a <=? dt_utc b).
Proof.
  unfold dt_le, dt_compare. destruct (comparable a b); [|discriminate].
  simpl. intros [= <-]. split; [reflexivity|].
  unfold Z.leb. now destruct (dt_utc a ?= dt_utc b).
Qed.

Lemma dt_gt_comparable a b :
  comparable a b = true -> dt_gt a b = Ok (dt_utc b <? dt_utc a).
Proof.
  unfold dt_gt, dt_compare. intros ->. simpl. f_equal.
  rewrite Z.ltb_antisym. unfold Z.leb.
  now destruct (dt_utc a ?= dt_utc b).
Qed.

Lemma comparable_sym a b : comparable a b = comparable b a.
Proof. unfold comparable. now destruct (dt_off a), (dt_off b). Qed.

Lemma comparable_trans a b c :
  comparable a b = true -> comparable b c = true -> comparable a c = true.
Proof.
  unfold comparable.
  now destruct (dt_off a), (dt_off b), (dt_off c).
Qed.

(** *** Decimal digits *)

(** A property of the ten digits holds of every [z] with [0 <= z < 10]. *)
Lemma digit_ind (P : Z -> Prop) :
  P 0 -> P 1 -> P 2 -> P 3 -> P 4 -> P 5 -> P 6 -> P 7 -> P 8 -> P 9 ->
  forall z, 0 <= z < 10 -> P z.
Proof.
  intros P0 P1 P2 P3 P4 P5 P6 P7 P8 P9 z Hz.
  assert (Hcases : z = 0 \/ z = 1 \/ z = 2 \/ z = 3 \/ z = 4 \/
                   z = 5 \/ z = 6 \/ z = 7 \/ z = 8 \/ z = 9) by lia.
  repeat (destruct Hcases as [Hcases|Hcases]; [subst z; assumption|]).
  now subst z.
Qed.

Lemma mod10 z : 0 <= z mod 10 < 10.
Proof. apply Z.mod_pos_bound. lia. Qed.

Lemma is_digit_dc z : is_digit (digit_char (z mod 10)) = true.
Proof.
  apply (digit_ind (fun d => is_digit (digit_char d) = true));
    try reflexivity. apply mod10.
Qed.

Lemma is_space_dc z : is_space (digit_char (z mod 10)) = false.
Proof.
  apply (digit_ind (fun d => is_space (digit_char d) = false));
    try reflexivity. apply mod10.
Qed.

Lemma digit_val_dc z : digit_val (digit_char (z mod 10)) = z mod 10.
Proof.
  apply (digit_ind (fun d => digit_val (digit_char d) = d));
    try reflexivity. apply mod10.
Qed.

Lemma eqb_dc_l c z : is_digit c = false -> Ascii.eqb (digit_char (z mod 10)) c = false.
Proof.
  intros Hc. destruct (Ascii.eqb_spec (digit_char (z mod 10)) c) as [E|]; [|reflexivity].
  rewrite <- E, is_digit_dc in Hc. discriminate.
Qed.

Lemma eqb_dc_r c z : is_digit c = false -> Ascii.eqb c (digit_char (z mod 10)) = false.
Proof. intros Hc. rewrite Ascii.eqb_sym. now apply eqb_dc_l. Qed.

Lemma ndigits_fuel_le fuel : forall n w,
  0 <= n < 10 ^ Z.of_nat (S w) -> (ndigits_fuel fuel n <= S w)%nat.
Proof.
  induction fuel as [|f IH]; intros n w Hn; simpl; [lia|].
  destruct (Z.ltb_spec n 10); [lia|].
  destruct w as [|w].
  - change (10 ^ Z.of_nat 1) with 10 in Hn. lia.
  - apply le_n_S. apply IH.
    rewrite Nat2Z.inj_succ, Z.pow_succ_r in Hn by lia.
    split; [apply Z.div_pos; lia|].
    apply Z.div_lt_upper_bound; lia.
Qed.

Lemma fmt_0wd_small w n :
  0 <= n < 10 ^ Z.of_nat (S w) -> fmt_0wd (S w) n = dec_fixed (S w) n.
Proof.
  intros Hn. unfold fmt_0wd.
  destruct (Z.ltb_spec n 0); [lia|].
  rewrite Nat.max_l; [reflexivity|]. now apply ndigits_fuel_le.
Qed.

Lemma fmt_d_1 n : 0 <= n < 10 -> fmt_d n = dec_fixed 1 n.
Proof. intros H. apply (fmt_0wd_small 0). exact H. Qed.

Lemma fmt_d_2 n : 10 <= n < 100 -> fmt_d n = dec_fixed 2 n.
Proof.
  intros H. unfold fmt_d, fmt_0wd.
  destruct (Z.ltb_spec n 0); [lia|].
  assert (Hnd : ndigits n = 2%nat).
  { unfold ndigits.
    assert (1 <= Z.log2 n) by (change 1 with (Z.log2 2); apply Z.log2_le_mono; lia).
    destruct (Z.to_nat (Z.log2 n)) as [|f] eqn:Hf; [lia|].
    simpl. destruct (Z.ltb_spec n 10); [lia|].
    assert (n / 10 < 10) by (apply Z.div_lt_upper_bound; lia).
    destruct f; simpl; [reflexivity|].
    destruct (Z.ltb_spec (n / 10) 10); [reflexivity|lia]. }
  now rewrite Hnd.
Qed.

Ltac eqb_concrete :=
  match goal with
  | |- context [Ascii.eqb ?a ?b] =>
      let v := eval cbv in (Ascii.eqb a b) in
      match v with
      | true => change (Ascii.eqb a b) with true
      | false => change (Ascii.eqb a b) with false
      end
  end.

Ltac dsimp :=
  repeat first
    [ progress cbn [dec_fixed append contains startswith split_char orb andb negb
                    int_of_str strip lstrip_space rev_string int_body parse_digits
                    Scheduler.unpack3_int rbind take drop find_char option_map
                    String.length fst snd]
    | rewrite is_digit_dc
    | rewrite is_space_dc
    | rewrite digit_val_dc
    | rewrite eqb_dc_l by reflexivity
    | rewrite eqb_dc_r by reflexivity
    | eqb_concrete ].

Lemma int_of_str_1 n :
  0 <= n < 10 -> int_of_str (String (digit_char (n mod 10)) "") = Ok n.
Proof.
  intros Hn. unfold int_of_str, strip. dsimp.
  f_equal. rewrite Z.mod_small; lia.
Qed.

Lemma int_of_str_2 n :
  0 <= n < 100 ->
  int_of_str (String (digit_char ((n / 10) mod 10))
                (String (digit_char (n mod 10)) "")) = Ok n.
Proof.
  intros Hn. unfold int_of_str, strip. dsimp.
  f_equal. Z.div_mod_to_equations. lia.
Qed.

(** *** The calendar *)

Lemma month_day_table :
  forallb (fun n => month_day_ok false (Z.of_nat n) && month_day_ok true (Z.of_nat n)) (seq 0 365) = true.
Proof. vm_compute. reflexivity. Qed.

Lemma month_day_spec leap n :
  0 <= n < 365 -> month_day_ok leap n = true.
Proof.
  intros Hn. pose proof month_day_table as T.
  rewrite forallb_forall in T.
  specialize (T (Z.to_nat n)). rewrite Z2Nat.id in T by lia.
  assert (In (Z.to_nat n) (seq 0 365)) as Hin by (apply in_seq; lia).
  apply T in Hin. apply andb_prop in Hin as [H1 H2]. now destruct leap.
Qed.

Lemma ord2ymd_spec n :
  1 <= n <= _MAXORDINAL ->
  let '(y, m, d) := _ord2ymd n in
  MINYEAR <= y <= MAXYEAR /\ 1 <= m <= 12 /\ 1 <= d <= _days_in_month y m /\
  _ymd2ord y m d = n.
Proof.
  intros Hn. unfold _ord2ymd, _MAXORDINAL, MINYEAR, MAXYEAR in *.
  set (n0 := n - 1).
  set (a := n0 / _DI400Y). set (r400 := n0 mod _DI400Y).
  set (b := r400 / _DI100Y). set (r100 := r400 mod _DI100Y).
  set (c := r100 / _DI4Y). set (r4 := r100 mod _DI4Y).
  set (e := r4 / 365). set (r1 := r4 mod 365).
  assert (Hfacts : 0 <= a <= 24 /\ 0 <= b <= 4 /\ 0 <= c <= 24 /\ 0 <= e <= 4 /\ 0 <= r1 < 365 /\
          n0 = 146097 * a + 36524 * b + 1461 * c + 365 * e + r1 /\
          (b = 4 -> c = 0 /\ e = 0 /\ r1 = 0) /\
          (e = 4 -> r1 = 0 /\ c <= 23) /\ (c = 24 -> b <= 3 -> e <= 3) /\
          (a = 24 -> b * 100 + 4 * c + e <= 398) ).
  { subst a r400 b r100 c r4 e r1 n0. unfold _DI400Y, _DI100Y, _DI4Y.
    Z.div_mod_to_equations; lia. }
  destruct Hfacts as (Ha & Hb & Hc & He & Hr1 & Hn0 & Hb4 & He4 & Hc24 & Ha24).
  clearbody a b c e r1. clear r400 r100 r4.
  assert (Hn' : n = 146097 * a + 36524 * b + 1461 * c + 365 * e + r1 + 1)
    by (subst n0; lia).
  clear Hn0. clearbody n0. clear n0.
  destruct ((e =? 4) || (b =? 4)) eqn:Hedge.
  - (* the last day of a leap year *)
    assert (Hy : exists k, a * 400 + 1 + b * 100 + c * 4 + e - 1 = 4 * k /\
                 (4 * k) mod 4 = 0 /\
                 ((4 * k) mod 100 <> 0 \/ (4 * k) mod 400 = 0) /\
                 1 <= 4 * k <= 9999 /\
                 n = (4 * k - 1) * 365 + (4 * k - 1) / 4 - (4 * k - 1) / 100
                     + (4 * k - 1) / 400 + 366).
    { apply orb_prop in Hedge as [E|E]; apply Z.eqb_eq in E.
      - destruct (He4 E) as [-> Hc23]. subst e.
        exists (100 * a + 25 * b + c + 1). Z.div_mod_to_equations. lia.
      - destruct (Hb4 E) as (-> & -> & ->). subst b.
        exists (100 * a + 100). Z.div_mod_to_equations. lia. }
    destruct Hy as (k & -> & Hm4 & Hm100 & Hk & Hn'').
    remember (4 * k) as Y eqn:HY. clear HY k.
    assert (Hleap : _is_leap Y = true).
    { unfold _is_leap. rewrite Hm4. cbn [Z.eqb andb].
      destruct Hm100 as [H|H].
      - apply Z.eqb_neq in H. now rewrite H.
      - rewrite H. apply orb_true_r. }
    change (_days_in_month Y 12) with 31.
    unfold _ymd2ord.
    change (_days_before_month Y 12) with (334 + (if _is_leap Y then 1 else 0)).
    rewrite Hleap. unfold _days_before_year. lia.
  - apply orb_false_elim in Hedge as [E1 E2].
    apply Z.eqb_neq in E1, E2.
    set (y := a * 400 + 1 + b * 100 + c * 4 + e).
    set (L := (e =? 3) && (negb (c =? 24) || (b =? 3))).
    pose proof (month_day_spec L r1 Hr1) as Hmd. unfold month_day_ok in Hmd.
    destruct (_month_day L r1) as [m d].
    assert (Hleap : _is_leap y = L).
    { unfold _is_leap, L, y.
      destruct (Z.eqb_spec e 3) as [He3|He3];
        destruct (Z.eqb_spec c 24) as [Hc24'|Hc24'];
        destruct (Z.eqb_spec b 3) as [Hb3|Hb3]; cbn [negb orb andb];
        repeat match goal with
               | |- context [?x mod ?k =? 0] =>
                   let E := fresh "E" in
                   destruct (Z.eqb_spec (x mod k) 0) as [E|E]
               end; cbn [negb orb andb]; try reflexivity; exfalso;
        Z.div_mod_to_equations; lia. }
    assert (Hdby : _days_before_year y = 146097 * a + 36524 * b + 1461 * c + 365 * e).
    { unfold _days_before_year, y. Z.div_mod_to_equations. lia. }
    unfold _days_in_month, _ymd2ord, _days_before_month. rewrite Hleap, Hdby.
    fold (days_in L m). fold (days_before L m).
    repeat (apply andb_prop in Hmd as [Hmd ?]).
    repeat match goal with
           | H : (_ <=? _) = true |- _ => apply Z.leb_le in H
           | H : (_ =? _) = true |- _ => apply Z.eqb_eq in H
           end.
    unfold y. lia.
Qed.

(** *** Reading back what [isoformat] writes *)

Lemma parse2 n rest :
  0 <= n < 100 ->
  parse_digits 2 0 (String (digit_char ((n / 10) mod 10))
                      (String (digit_char (n mod 10)) rest))
  = Some (n, rest).
Proof.
  intros Hn. cbn [parse_digits]. rewrite !is_digit_dc, !digit_val_dc.
  f_equal. f_equal. Z.div_mod_to_equations. lia.
Qed.

Lemma parse4 n rest :
  0 <= n < 10000 ->
  parse_digits 4 0 (String (digit_char ((n / 10 / 10 / 10) mod 10))
                   (String (digit_char ((n / 10 / 10) mod 10))
                   (String (digit_char ((n / 10) mod 10))
                   (String (digit_char (n mod 10)) rest))))
  = Some (n, rest).
Proof.
  intros Hn. cbn [parse_digits]. rewrite !is_digit_dc, !digit_val_dc.
  f_equal. f_equal. Z.div_mod_to_equations. lia.
Qed.

Lemma parse6 n rest :
  0 <= n < 1000000 ->
  parse_digits 6 0 (String (digit_char ((n / 10 / 10 / 10 / 10 / 10) mod 10))
                   (String (digit_char ((n / 10 / 10 / 10 / 10) mod 10))
                   (String (digit_char ((n / 10 / 10 / 10) mod 10))
                   (String (digit_char ((n / 10 / 10) mod 10))
                   (String (digit_char ((n / 10) mod 10))
                   (String (digit_char (n mod 10)) rest))))))
  = Some (n, rest).
Proof.
  intros Hn. cbn [parse_digits]. rewrite !is_digit_dc, !digit_val_dc.
  f_equal. f_equal. Z.div_mod_to_equations. lia.
Qed.

(** Appending strings, and what [take], [drop] and [find_char] do to
    an appended string. *)
Lemma append_nil_r s : (s ++ "")%string = s.
Proof. induction s as [|c s IH]; simpl; [reflexivity|now rewrite IH]. Qed.

Lemma find_char_app c a b :
  find_char c (a ++ b) =
  match find_char c a with
  | Some i => Some i
  | None => option_map (Nat.add (String.length a)) (find_char c b)
  end.
Proof.
  induction a as [|x a IH]; simpl.
  - now destruct (find_char c b).
  - destruct (Ascii.eqb c x); [reflexivity|]. rewrite IH.
    destruct (find_char c a); simpl; [reflexivity|].
    now destruct (find_char c b).
Qed.

Lemma take_app a b : take (String.length a) (a ++ b) = a.
Proof. induction a as [|x a IH]; simpl; [now destruct b|now rewrite IH]. Qed.

Lemma drop_app a c b : drop (S (String.length a)) (a ++ String c b) = b.
Proof. induction a as [|x a IH]; simpl; [reflexivity|exact IH]. Qed.

Lemma get_app a c b : String.get (String.length a) (a ++ String c b) = Some c.
Proof. induction a as [|x a IH]; simpl; [reflexivity|exact IH]. Qed.

Lemma length_append a b :
  String.length (a ++ b) = (String.length a + String.length b)%nat.
Proof. induction a as [|x a IH]; simpl; [reflexivity|now rewrite IH]. Qed.

Ltac psimp :=
  repeat first
    [ progress cbn [dec_fixed append take drop find_char option_map String.length
                    orb andb negb fst snd Nat.ltb Nat.leb Nat.eqb Nat.add]
    | rewrite parse2 by lia
    | rewrite parse4 by lia
    | rewrite parse6 by lia
    | rewrite eqb_dc_l by reflexivity
    | rewrite eqb_dc_r by reflexivity
    | eqb_concrete ].

(** A formatted time of day reads back, and holds no sign character. *)
Lemma format_time_parse hh mi ss us :
  0 <= hh < 24 -> 0 <= mi < 60 -> 0 <= ss < 60 -> 0 <= us < 1000000 ->
  _parse_hh_mm_ss_ff (_format_time hh mi ss us) = Some (hh, mi, ss, us) /\
  find_char "-" (_format_time hh mi ss us) = None /\
  find_char "+" (_format_time hh mi ss us) = None /\
  (String.length (_format_time hh mi ss us) <? 2)%nat = false /\
  (String.length (_format_time hh mi ss us) = 8%nat \/
   String.length (_format_time hh mi ss us) = 15%nat).
Proof.
  intros Hh Hm Hs Hu. unfold _format_time.
  rewrite (fmt_0wd_small 1 hh), (fmt_0wd_small 1 mi), (fmt_0wd_small 1 ss)
    by (change (10 ^ Z.of_nat 2) with 100; lia).
  destruct (Z.eqb_spec us 0) as [->|Hne].
  - unfold _parse_hh_mm_ss_ff. psimp. repeat split; auto.
  - rewrite (fmt_0wd_small 5 us) by (change (10 ^ Z.of_nat 6) with 1000000; lia).
    unfold _parse_hh_mm_ss_ff, _parse_fraction. psimp. repeat split; auto.
Qed.

(** A formatted UTC offset starts with its sign and reads back. *)
Lemma format_offset_parse off :
  off_in_range off = true ->
  exists sign body,
    _format_offset (Some off) = String sign body /\
    (sign = "-"%char \/ sign = "+"%char) /\
    find_char "-" body = None /\
    find_char "+" body = None /\
    _parse_tz sign body = Some off.
Proof.
  unfold off_in_range. intros Hr. apply andb_prop in Hr as [H1 H2].
  apply Z.ltb_lt in H1, H2. unfold _format_offset.
  set (a := Z.abs off).
  assert (Ha : 0 <= a < US_PER_DAY) by (subst a; lia).
  set (hh := a / US_PER_HOUR). set (mm := (a mod US_PER_HOUR) / US_PER_MINUTE).
  set (r := a mod US_PER_MINUTE).
  set (ss := r / US_PER_SECOND). set (us := r mod US_PER_SECOND).
  assert (Hf : 0 <= hh < 24 /\ 0 <= mm < 60 /\ 0 <= ss < 60 /\ 0 <= us < 1000000 /\
               0 <= r /\
               a = hh * US_PER_HOUR + mm * US_PER_MINUTE + r /\
               r = ss * US_PER_SECOND + us).
  { subst hh mm r ss us. unfold US_PER_DAY, US_PER_HOUR, US_PER_MINUTE, US_PER_SECOND in *.
    Z.div_mod_to_equations. lia. }
  destruct Hf as (Hh & Hm & Hs & Hu & Hr0 & Hsum & Hrsum).
  assert (Hback : forall sign td,
             td = a -> (sign = "-"%char <-> off < 0) ->
             (if Ascii.eqb sign "-" then - td else td) = off).
  { intros sign td -> Hsign. destruct (Ascii.eqb_spec sign "-") as [E|E].
    - apply Hsign in E. subst a. lia.
    - assert (~ off < 0) by (intros X; apply Hsign in X; contradiction). subst a. lia. }
  assert (Hrange : off_in_range off = true).
  { unfold off_in_range. apply andb_true_intro. split; apply Z.ltb_lt; assumption. }
  clearbody hh mm ss us r.
  rewrite (fmt_0wd_small 1 hh), (fmt_0wd_small 1 mm)
    by (change (10 ^ Z.of_nat 2) with 100; lia).
  assert (Hsgn : exists sign : ascii,
             (if off <? 0 then "-" else "+") = String sign "" /\
             (sign = "-"%char \/ sign = "+"%char) /\
             (sign = "-"%char <-> off < 0)).
  { destruct (Z.ltb_spec off 0).
    - exists "-"%char. repeat split; auto.
    - exists "+"%char. repeat split; auto; [discriminate|lia]. }
  destruct Hsgn as (sign & -> & Hsign & Hneg).
  destruct (Z.eqb_spec r 0) as [Hr|Hr].
  - eexists; eexists. split; [psimp; reflexivity|]. split; [exact Hsign|].
    unfold _parse_tz, _parse_hh_mm_ss_ff. psimp. repeat split.
    rewrite Hback; [now rewrite Hrange|lia|exact Hneg].
  - rewrite (fmt_0wd_small 1 ss) by (change (10 ^ Z.of_nat 2) with 100; lia).
    destruct (Z.eqb_spec us 0) as [Hus|Hus].
    + eexists; eexists. split; [psimp; reflexivity|]. split; [exact Hsign|].
      unfold _parse_tz, _parse_hh_mm_ss_ff. psimp. repeat split.
      rewrite Hback; [now rewrite Hrange|lia|exact Hneg].
    + rewrite (fmt_0wd_small 5 us) by (change (10 ^ Z.of_nat 6) with 1000000; lia).
      eexists; eexists. split; [psimp; reflexivity|]. split; [exact Hsign|].
      unfold _parse_tz, _parse_hh_mm_ss_ff, _parse_fraction. psimp. repeat split.
      rewrite Hback; [now rewrite Hrange|lia|exact Hneg].
Qed.

Lemma parse_time_with_offset T sign body t off :
  _parse_hh_mm_ss_ff T = Some t ->
  find_char "-" T = None -> find_char "+" T = None ->
  (String.length T <? 2)%nat = false ->
  (sign = "-"%char \/ sign = "+"%char) ->
  find_char "-" body = None ->
  _parse_tz sign body = Some off ->
  _parse_isoformat_time (T ++ String sign body) = Some (t, Some off).
Proof.
  intros Ht Hm Hp Hlen Hsign Hb Htz. unfold _parse_isoformat_time.
  assert (Hl : (String.length (T ++ String sign body) <? 2)%nat = false).
  { rewrite length_append. apply Nat.ltb_ge. apply Nat.ltb_ge in Hlen. lia. }
  rewrite Hl.
  assert (Hpos : tz_pos (T ++ String sign body) = Some (String.length T)).
  { unfold tz_pos. rewrite !find_char_app, Hm, Hp.
    destruct Hsign as [-> | ->]; cbn [find_char option_map].
    - change (Ascii.eqb "-" "-") with true. cbn. now rewrite Nat.add_0_r.
    - change (Ascii.eqb "-" "+") with false. rewrite Hb. cbn [option_map].
      change (Ascii.eqb "+" "+") with true. cbn. now rewrite Nat.add_0_r. }
  rewrite Hpos, take_app, Ht, get_app, drop_app, Htz. reflexivity.
Qed.

Lemma parse_time_without_offset T t :
  _parse_hh_mm_ss_ff T = Some t ->
  find_char "-" T = None -> find_char "+" T = None ->
  (String.length T <? 2)%nat = false ->
  _parse_isoformat_time T = Some (t, None).
Proof.
  intros Ht Hm Hp Hlen. unfold _parse_isoformat_time, tz_pos.
  now rewrite Hlen, Hm, Hp, Ht.
Qed.

Lemma fromisoformat_isoformat d :
  dt_valid d = true -> fromisoformat (isoformat d) = Ok d.
Proof.
  unfold dt_valid, dt_in_range. intros Hv.
  apply andb_prop in Hv as [Hus Hoff]. apply andb_prop in Hus as [Hlo Hhi].
  apply Z.leb_le in Hlo. apply Z.ltb_lt in Hhi.
  unfold isoformat.
  pose proof (ord2ymd_spec (dt_toordinal d)) as Hcal.
  assert (Hord : 1 <= dt_toordinal d <= _MAXORDINAL).
  { unfold dt_toordinal, _MAXORDINAL, US_PER_DAY in *.
    Z.div_mod_to_equations. lia. }
  specialize (Hcal Hord).
  destruct (_ord2ymd (dt_toordinal d)) as [[y m] dd].
  destruct Hcal as (Hy & Hm & Hd & Hymd).
  assert (Hdim : _days_in_month y m <= 31).
  { unfold _days_in_month. destruct ((m =? 2) && _is_leap y); [lia|].
    assert (Hseq : In (Z.to_nat m) (seq 1 12)) by (apply in_seq; lia).
    assert (Htab : forallb (fun k => zidx _DAYS_IN_MONTH (Z.of_nat k) <=? 31)
                           (seq 1 12) = true) by reflexivity.
    rewrite forallb_forall in Htab. apply Htab in Hseq.
    rewrite Z2Nat.id in Hseq by lia. now apply Z.leb_le. }
  unfold MINYEAR, MAXYEAR in Hy.
  set (hh := dt_hour d). set (mi := dt_minute d). set (ss := dt_second d).
  set (us := dt_microsecond d).
  assert (Ht : 0 <= hh < 24 /\ 0 <= mi < 60 /\ 0 <= ss < 60 /\ 0 <= us < 1000000 /\
               dt_us d = (dt_toordinal d - 1) * US_PER_DAY + hh * US_PER_HOUR
                         + mi * US_PER_MINUTE + ss * US_PER_SECOND + us).
  { subst hh mi ss us.
    unfold dt_hour, dt_minute, dt_second, dt_microsecond, dt_toordinal,
      US_PER_DAY, US_PER_HOUR, US_PER_MINUTE, US_PER_SECOND.
    Z.div_mod_to_equations. lia. }
  destruct Ht as (Hhh & Hmi & Hss & Hmicro & Hsum). clearbody hh mi ss us.
  destruct (format_time_parse hh mi ss us Hhh Hmi Hss Hmicro)
    as (HT & HTm & HTp & HTlen & HTlen').
  set (T := _format_time hh mi ss us) in *. clearbody T.
  rewrite (fmt_0wd_small 3 y), (fmt_0wd_small 1 m), (fmt_0wd_small 1 dd)
    by (first [change (10 ^ Z.of_nat 4) with 10000 | change (10 ^ Z.of_nat 2) with 100];
        lia).
  assert (Hmk : forall off, dt_off d = off ->
            mk_datetime y m dd hh mi ss us off = Some d).
  { intros off Ho. unfold mk_datetime, _check_date_fields, _check_time_fields,
      MINYEAR, MAXYEAR.
    repeat match goal with
           | |- context [?a <=? ?b] =>
               let E := fresh in
               assert (E : (a <=? b) = true) by (apply Z.leb_le; lia);
               rewrite E; clear E
           end.
    cbn [andb]. rewrite Hymd, <- Hsum, <- Ho. now destruct d. }
  unfold fromisoformat.
  assert (Htime : _parse_isoformat_time (T ++ _format_offset (dt_off d))
                  = Some (hh, mi, ss, us, dt_off d)).
  { destruct (dt_off d) as [off|].
    - destruct (format_offset_parse off Hoff)
        as (sign & body & -> & Hsign & Hbm & _ & Htz).
      now apply parse_time_with_offset.
    - cbn [_format_offset]. rewrite append_nil_r.
      now apply parse_time_without_offset. }
  assert (Hne : exists c r, (T ++ _format_offset (dt_off d))%string = String c r).
  { destruct T as [|c T']; [discriminate|]. now exists c, (T' ++ _format_offset (dt_off d))%string. }
  destruct Hne as (c & r & Hne). rewrite Hne in Htime.
  unfold _parse_isoformat_date. psimp. rewrite Hne, Htime.
  now rewrite (Hmk _ eq_refl).
Qed.

End DatetimeFacts.

(* ================================================================= *)
(** ** The scheduler *)

Module SchedulerProps.
Import Py Scheduler DatetimeFacts Examples.

(** *** Pruning *)

Lemma keep_recent_filter cutoff l :
  (forall u, In u l -> is_open u = false ->
             comparable (scheduled_time u) cutoff = true) ->
  keep_recent cutoff l = Ok (filter (keeps cutoff) l).
Proof.
  induction l as [|u l IH]; intros Hc; simpl; [reflexivity|].
  rewrite IH by (intros; apply Hc; [now right|assumption]).
  destruct (is_open u) eqn:Ho; simpl.
  - unfold keeps. now rewrite Ho.
  - rewrite dt_gt_comparable by (apply Hc; [now left|assumption]).
    simpl. unfold keeps. now rewrite Ho.
Qed.

Lemma is_open_pending u :
  status u = "pending" \/ status u = "approved" -> is_open u = true.
Proof. unfold is_open. now intros [-> | ->]. Qed.

Lemma is_open_closed u :
  status u = "completed" \/ status u = "cancelled" -> is_open u = false.
Proof. unfold is_open. now intros [-> | ->]. Qed.

(** The boundary, computed: an entry completed exactly at the cutoff does
    not predate it, and is removed all the same. *)
Lemma C9_cutoff_boundary_counterexample :
  exists cutoff self',
    cutoff_of (naive 2024 3 31 0 0) 30 = Ok cutoff /\
    cleanup_old_upgrades (mkScheduler [done_march_1] None)
                         (naive 2024 3 31 0 0) true 30 = Ok self' /\
    status done_march_1 = "completed" /\
    ~ In done_march_1 (scheduled_upgrades self') /\
    ~ dt_utc (scheduled_time done_march_1) < dt_utc cutoff.
Proof.
  eexists; eexists. split; [vm_compute; reflexivity|].
  split; [vm_compute; reflexivity|].
  split; [reflexivity|]. split; [intros []|]. vm_compute. discriminate.
Qed.

(** What the prune operation does with each entry: one with status
    pending or approved is retained regardless of how old its scheduled time
    is, and one with status completed or cancelled is removed iff its
    scheduled time is at or before the cutoff (not strictly later than it).
    This is for queues in which the scheduled time of each entry that is
    neither pending nor approved can be compared with the cutoff. *)
Theorem C9_cleanup_keeps_open_drops_old
    (self : UpgradeScheduler) (now : datetime) (io_ok : bool) (ndays : Z)
    (cutoff : datetime) :
  cutoff_of now ndays = Ok cutoff ->
  (forall u, In u (scheduled_upgrades self) -> is_open u = false ->
             comparable (scheduled_time u) cutoff = true) ->
  exists self',
    cleanup_old_upgrades self now io_ok ndays = Ok self' /\
    forall u, In u (scheduled_upgrades self) ->
      (status u = "pending" \/ status u = "approved" ->
       In u (scheduled_upgrades self')) /\
      (status u = "completed" \/ status u = "cancelled" ->
       (~ In u (scheduled_upgrades self') <->
        dt_utc (scheduled_time u) <= dt_utc cutoff)).
Proof.
  intros Hcut Hcmp. unfold cleanup_old_upgrades. rewrite Hcut. simpl.
  rewrite (keep_recent_filter _ _ Hcmp). simpl.
  eexists. split; [reflexivity|].
  assert (Hsaved : forall l f,
             scheduled_upgrades (save_schedule io_ok (mkScheduler l f)) = l)
    by (intros; unfold save_schedule; now destruct io_ok).
  rewrite Hsaved. intros u Hin. split.
  - intros Hs. apply filter_In. split; [assumption|].
    unfold keeps. now rewrite (is_open_pending _ Hs).
  - intros Hs. rewrite filter_In. unfold keeps.
    rewrite (is_open_closed _ Hs). simpl. rewrite Z.ltb_lt. split.
    + intros Hn. destruct (Z_lt_le_dec (dt_utc cutoff) (dt_utc (scheduled_time u)));
        [exfalso; apply Hn; now split | assumption].
    + intros Hle [_ Hlt]. lia.
Qed.

Lemma C9_cleanup_witness :
  exists self',
    cleanup_old_upgrades (mkScheduler [old_pending; done_march_1] None)
                         (naive 2024 3 31 0 0) true 30 = Ok self' /\
    forall u, In u [old_pending; done_march_1] ->
      (status u = "pending" \/ status u = "approved" ->
       In u (scheduled_upgrades self')) /\
      (status u = "completed" \/ status u = "cancelled" ->
       (~ In u (scheduled_upgrades self') <->
        dt_utc (scheduled_time u) <= dt_utc (naive 2024 3 1 0 0))).
Proof.
  apply (C9_cleanup_keeps_open_drops_old
           (mkScheduler [old_pending; done_march_1] None)
           (naive 2024 3 31 0 0) true 30 (naive 2024 3 1 0 0)).
  - vm_compute. reflexivity.
  - intros u [<- | [<- | []]] H; vm_compute in H |- *; congruence.
Defined.

(** The cutoff is computed from the naive clock, so a closed entry whose
    scheduled time carries an offset cannot be compared with it: the
    operation raises and the queue stays as it was. *)
Lemma cleanup_raises_on_aware_entry :
  exists e,
    cleanup_old_upgrades (mkScheduler [done_in_window] None)
                         (naive 2024 5 1 0 0) true 30 = Raise e /\
    exn_cls e = TypeError.
Proof. eexists. split; [vm_compute; reflexivity|reflexivity]. Qed.

Lemma keep_recent_kept cutoff l kept :
  keep_recent cutoff l = Ok kept ->
  forall u, In u kept ->
    is_open u = true \/ dt_utc cutoff < dt_utc (scheduled_time u).
Proof.
  revert kept. induction l as [|x l IH]; intros kept; simpl.
  - now intros [= <-] u [].
  - destruct (is_open x) eqn:Ho; cbn [rbind].
    + destruct (keep_recent cutoff l) as [k|]; cbn [rbind]; [|discriminate].
      intros [= <-] u [<-|Hin]; [now left|now apply (IH k)].
    + destruct (dt_gt (scheduled_time x) cutoff) as [b|] eqn:Hgt; cbn [rbind];
        [|discriminate].
      destruct (keep_recent cutoff l) as [k|]; cbn [rbind]; [|discriminate].
      intros [= <-] u Hin. destruct b; [|now apply (IH k)].
      destruct Hin as [<-|Hin]; [right|now apply (IH k)].
      unfold dt_gt, dt_compare in Hgt.
      destruct (comparable (scheduled_time x) cutoff); [|discriminate].
      cbn [rbind] in Hgt.
      destruct (dt_utc (scheduled_time x) ?= dt_utc cutoff) eqn:E;
        try discriminate.
      apply Z.compare_gt_iff in E. lia.
Qed.

(** C9 fails in the code, on the boundary.  Whatever the queue and the
    clock are, a prune that completes removes every completed or cancelled
    entry whose scheduled time is exactly the cutoff, although such an entry
    does not predate the cutoff: it is not older than the given number of
    days. *)
Theorem C9_entry_at_the_cutoff_is_removed
    (self self' : UpgradeScheduler) (now : datetime) (io_ok : bool) (ndays : Z)
    (cutoff : datetime) (u : ScheduledUpgrade) :
  cutoff_of now ndays = Ok cutoff ->
  cleanup_old_upgrades self now io_ok ndays = Ok self' ->
  In u (scheduled_upgrades self) ->
  status u = "completed" \/ status u = "cancelled" ->
  dt_utc (scheduled_time u) = dt_utc cutoff ->
  ~ In u (scheduled_upgrades self') /\
  ~ dt_utc (scheduled_time u) < dt_utc cutoff.
Proof.
  intros Hcut Hrun Hin Hs Heq. split; [|lia].
  unfold cleanup_old_upgrades in Hrun. rewrite Hcut in Hrun. cbn [rbind] in Hrun.
  destruct (keep_recent cutoff (scheduled_upgrades self)) as [kept|] eqn:Hk;
    cbn [rbind] in Hrun; [|discriminate].
  injection Hrun as <-.
  assert (Hsaved : forall l f,
             scheduled_upgrades (save_schedule io_ok (mkScheduler l f)) = l)
    by (intros; unfold save_schedule; now destruct io_ok).
  rewrite Hsaved. intros Hkept.
  destruct (keep_recent_kept _ _ _ Hk u Hkept) as [Ho|Hlt]; [|lia].
  rewrite (is_open_closed _ Hs) in Ho. discriminate.
Qed.

Lemma C9_entry_at_the_cutoff_witness :
  exists self',
    cleanup_old_upgrades (mkScheduler [old_pending; done_march_1] None)
                         (naive 2024 3 31 0 0) true 30 = Ok self' /\
    ~ In done_march_1 (scheduled_upgrades self') /\
    ~ dt_utc (scheduled_time done_march_1) < dt_utc (naive 2024 3 1 0 0).
Proof.
  eexists. split; [vm_compute; reflexivity|].
  apply (C9_entry_at_the_cutoff_is_removed
           (mkScheduler [old_pending; done_march_1] None) _
           (naive 2024 3 31 0 0) true 30 (naive 2024 3 1 0 0) done_march_1).
  - vm_compute. reflexivity.
  - vm_compute. reflexivity.
  - right. now left.
  - now left.
  - reflexivity.
Defined.

(** *** The default maintenance window *)

Lemma default_window_aware now w0 :
  default_window now = Ok w0 -> dt_off w0 = dt_off now.
Proof.
  unfold default_window. destruct (2 <=? dt_hour now).
  - intros H. now apply dt_add_ok in H as [_ ->].
  - now intros [= <-].
Qed.

Lemma resolve_conflicts_app l1 l2 w :
  resolve_conflicts (l1 ++ l2) w =
  rbind (resolve_conflicts l1 w) (resolve_conflicts l2).
Proof.
  revert w; induction l1 as [|u l1 IH]; intros w; simpl; [reflexivity|].
  destruct (is_open u); [|apply IH].
  destruct (dt_add (scheduled_time u) (estimated_duration u)); simpl; [|reflexivity].
  destruct (dt_le (scheduled_time u) w) as [[|]|]; simpl; try apply IH; [|reflexivity].
  destruct (dt_le w a) as [[|]|]; simpl; try apply IH; [|reflexivity].
  destruct (dt_add a (minutes 30)); simpl; [apply IH|reflexivity].
Qed.

(** The loop only ever moves the window forward. *)
Lemma resolve_conflicts_mono l w w' :
  resolve_conflicts l w = Ok w' -> dt_utc w <= dt_utc w'.
Proof.
  revert w; induction l as [|u l IH]; intros w; simpl.
  - intros [= <-]. lia.
  - destruct (is_open u); [|apply IH].
    destruct (dt_add (scheduled_time u) (estimated_duration u)) as [ue|] eqn:Hue;
      simpl; [|discriminate].
    destruct (dt_le (scheduled_time u) w) as [[|]|] eqn:H1; simpl;
      try apply IH; [|discriminate].
    destruct (dt_le w ue) as [[|]|] eqn:H2; simpl; try apply IH; [|discriminate].
    destruct (dt_add ue (minutes 30)) as [nw|] eqn:Hnw; simpl; [|discriminate].
    intros H. apply IH in H.
    apply dt_le_ok in H2 as [_ H2]. symmetry in H2. apply Z.leb_le in H2.
    apply dt_add_utc in Hnw. unfold minutes, US_PER_MINUTE in Hnw. lia.
Qed.

(** Entries whose interval does not hold the window leave it where it is. *)
Lemma resolve_conflicts_clear l w w' :
  (forall e, In e l -> is_open e = true -> inside w e = false) ->
  resolve_conflicts l w = Ok w' -> w' = w.
Proof.
  induction l as [|u l IH]; intros Hclear; simpl.
  - now intros [= <-].
  - assert (IH' := IH (fun e H => Hclear e (or_intror H))).
    destruct (is_open u) eqn:Ho; [|exact IH'].
    specialize (Hclear u (or_introl eq_refl) Ho).
    destruct (dt_add (scheduled_time u) (estimated_duration u)) as [ue|] eqn:Hue;
      simpl; [|discriminate].
    destruct (dt_le (scheduled_time u) w) as [[|]|] eqn:H1; simpl;
      try exact IH'; [|discriminate].
    destruct (dt_le w ue) as [[|]|] eqn:H2; simpl; try exact IH'; [|discriminate].
    exfalso.
    apply dt_le_ok in H1 as [_ H1]. apply dt_le_ok in H2 as [_ H2].
    apply dt_add_utc in Hue. unfold inside in Hclear.
    rewrite <- Hue, <- H1, <- H2 in Hclear. discriminate.
Qed.

(** What the loop does when it reaches an open entry [e]. *)
Lemma resolve_conflicts_at e l w w' :
  is_open e = true ->
  resolve_conflicts (e :: l) w = Ok w' ->
  dt_utc (scheduled_time e) <= dt_utc w ->
  dt_utc (scheduled_time e) + estimated_duration e < dt_utc w' /\
  (inside w e = true ->
   dt_utc (scheduled_time e) + estimated_duration e + minutes 30 <= dt_utc w').
Proof.
  intros Ho H Hstart. simpl in H. rewrite Ho in H.
  destruct (dt_add (scheduled_time e) (estimated_duration e)) as [ue|] eqn:Hue;
    simpl in H; [|discriminate].
  destruct (dt_le (scheduled_time e) w) as [[|]|] eqn:H1; simpl in H;
    [| |discriminate].
  2:{ apply dt_le_ok in H1 as [_ H1]. symmetry in H1.
      apply Z.leb_gt in H1. lia. }
  apply dt_add_utc in Hue.
  destruct (dt_le w ue) as [[|]|] eqn:H2; simpl in H; [| |discriminate].
  - destruct (dt_add ue (minutes 30)) as [nw|] eqn:Hnw; simpl in H; [|discriminate].
    apply dt_add_utc in Hnw. apply resolve_conflicts_mono in H.
    unfold minutes, US_PER_MINUTE in *. split; [lia|intros _; lia].
  - apply dt_le_ok in H2 as [_ H2]. symmetry in H2. apply Z.leb_gt in H2.
    apply resolve_conflicts_mono in H. split; [lia|].
    unfold inside. intros Hin. apply andb_prop in Hin as [_ Hin].
    apply Z.leb_le in Hin. lia.
Qed.

(** C6, as stated, fails when two open entries overlap: with a ten-minute
    and a fifteen-minute entry both booked at 02:00, the default 02:00 window
    lies inside the second one, and the new entry lands at 02:40, five
    minutes short of that entry's end plus thirty minutes. *)
Lemma C6_overlapping_entries_counterexample :
  exists u self',
    schedule_upgrade two_at_0200 (utc 2024 5 1 12 0) true "1.0.0"
                     "story" (Watcher.of_version "1.2.0") None false
      = Ok (u, self') /\
    default_window (utc 2024 5 1 12 0) = Ok (utc 2024 5 2 2 0) /\
    In story_0200 (scheduled_upgrades two_at_0200) /\
    Scheduler.status story_0200 = "pending" /\
    inside (utc 2024 5 2 2 0) story_0200 = true /\
    dt_utc (scheduled_time u) <
    dt_utc (scheduled_time story_0200) + estimated_duration story_0200 + minutes 30.
Proof.
  eexists; eexists. split; [vm_compute; reflexivity|].
  split; [vm_compute; reflexivity|].
  split; [right; left; reflexivity|].
  split; [reflexivity|]. split; vm_compute; reflexivity.
Qed.

(** C6 (amended): if [schedule_upgrade] is called without an explicit time
    and the computed default maintenance window falls inside an existing
    pending or approved entry's interval
    [scheduled_time, scheduled_time + estimated_duration], then the new
    entry's scheduled time is strictly later than that entry's
    scheduled_time + estimated_duration; it is greater than or equal to that
    entry's scheduled_time + estimated_duration + 30 minutes when no pending
    or approved entry listed before it also holds the default window. *)
Theorem C6_default_window_clears_conflict
    (self self' : UpgradeScheduler) (now w0 : datetime) (io_ok auto_approve : bool)
    (current_version component : string) (target_version : Watcher.Version)
    (u e : ScheduledUpgrade) (l1 l2 : list ScheduledUpgrade) :
  schedule_upgrade self now io_ok current_version component target_version
                   None auto_approve = Ok (u, self') ->
  default_window now = Ok w0 ->
  scheduled_upgrades self = l1 ++ e :: l2 ->
  status e = "pending" \/ status e = "approved" ->
  inside w0 e = true ->
  dt_utc (scheduled_time e) + estimated_duration e < dt_utc (scheduled_time u) /\
  ((forall e', In e' l1 -> is_open e' = true -> inside w0 e' = false) ->
   dt_utc (scheduled_time e) + estimated_duration e + minutes 30
   <= dt_utc (scheduled_time u)).
Proof.
  intros Hs Hw0 Hl Hst Hin. apply is_open_pending in Hst.
  unfold schedule_upgrade, get_next_maintenance_window in Hs.
  rewrite Hw0, Hl in Hs. cbn [rbind] in Hs.
  rewrite resolve_conflicts_app in Hs.
  destruct (resolve_conflicts l1 w0) as [w1|] eqn:H1; cbn [rbind] in Hs;
    [|discriminate].
  destruct (resolve_conflicts (e :: l2) w1) as [w|] eqn:H2; cbn [rbind] in Hs;
    [|discriminate].
  destruct (sort_by_scheduled_time _); cbn [rbind] in Hs; [|discriminate].
  injection Hs as <- _. cbn [scheduled_time].
  assert (Hstart : dt_utc (scheduled_time e) <= dt_utc w0).
  { unfold inside in Hin. apply andb_prop in Hin as [Hin _].
    now apply Z.leb_le. }
  pose proof (resolve_conflicts_mono _ _ _ H1) as Hmono.
  destruct (resolve_conflicts_at e l2 w1 w Hst H2 ltac:(lia)) as [Hpast Hbuf].
  split; [exact Hpast|].
  intros Hclear. apply (resolve_conflicts_clear _ _ _ Hclear) in H1. subst w1.
  now apply Hbuf.
Qed.

Lemma C6_default_window_witness :
  dt_utc (scheduled_time story_0200) + estimated_duration story_0200
  < dt_utc (utc 2024 5 2 2 45) /\
  ((forall e', In e' [] -> is_open e' = true ->
               inside (utc 2024 5 2 2 0) e' = false) ->
   dt_utc (scheduled_time story_0200) + estimated_duration story_0200 + minutes 30
   <= dt_utc (utc 2024 5 2 2 45)).
Proof.
  apply (C6_default_window_clears_conflict
           one_at_0200
           (save_schedule true
              (mkScheduler
                 [story_0200;
                  mkScheduledUpgrade "story_geth" "1.0.0" "1.2.0" (utc 2024 5 2 2 45)
                    (minutes 10) "pending" true
                    (Some "Upgrade from 1.0.0 to 1.2.0")] None))
           (utc 2024 5 1 12 0) (utc 2024 5 2 2 0) true false
           "1.0.0" "story_geth" (Watcher.of_version "1.2.0")
           (mkScheduledUpgrade "story_geth" "1.0.0" "1.2.0" (utc 2024 5 2 2 45)
              (minutes 10) "pending" true (Some "Upgrade from 1.0.0 to 1.2.0"))
           story_0200 [] []).
  - vm_compute. reflexivity.
  - vm_compute. reflexivity.
  - reflexivity.
  - left. reflexivity.
  - vm_compute. reflexivity.
Defined.

(** *** Serialisation *)

Lemma duration_roundtrip t :
  0 <= t < US_PER_DAY -> t mod US_PER_SECOND = 0 ->
  contains ":" (str_timedelta t) = true /\
  rbind (unpack3_int (split_char ":" "" (str_timedelta t)))
        (fun '(h, m, s) => mk_timedelta 0 h m s) = Ok t.
Proof.
  intros Ht Hs. unfold str_timedelta.
  assert (Hd : td_days t = 0) by (unfold td_days; apply Z.div_small; exact Ht).
  assert (Hu : td_microseconds t = 0) by exact Hs.
  rewrite Hd, Hu. change (0 =? 0) with true. cbv iota.
  set (secs := td_seconds t).
  assert (Hsecs : 0 <= secs < 86400 /\ t = secs * US_PER_SECOND).
  { subst secs. unfold td_seconds, US_PER_DAY, US_PER_SECOND in *.
    Z.div_mod_to_equations. lia. }
  destruct Hsecs as [Hsecs Ht']. clearbody secs.
  set (hh := secs / 60 / 60). set (mm := (secs / 60) mod 60). set (ss := secs mod 60).
  assert (Hh : 0 <= hh < 24) by (subst hh; Z.div_mod_to_equations; lia).
  assert (Hm : 0 <= mm < 60) by (subst mm; Z.div_mod_to_equations; lia).
  assert (Hss : 0 <= ss < 60) by (subst ss; Z.div_mod_to_equations; lia).
  assert (Hsum : secs = (hh * 60 + mm) * 60 + ss)
    by (subst hh mm ss; Z.div_mod_to_equations; lia).
  clearbody hh mm ss.
  rewrite (fmt_0wd_small 1 mm), (fmt_0wd_small 1 ss)
    by (change (10 ^ Z.of_nat 2) with 100; lia).
  assert (Hfin : forall H M S,
             H = hh -> M = mm -> S = ss -> mk_timedelta 0 H M S = Ok t).
  { intros H M S -> -> ->. unfold mk_timedelta, td_days.
    replace ((((0 * 24 + hh) * 60 + mm) * 60 + ss) * US_PER_SECOND) with t by lia.
    rewrite Z.div_small by exact Ht. reflexivity. }
  destruct (Z.lt_ge_cases hh 10) as [Hh1|Hh2].
  - rewrite fmt_d_1 by lia. dsimp. split; [reflexivity|].
    rewrite int_of_str_1, !int_of_str_2 by lia. now apply Hfin.
  - rewrite fmt_d_2 by lia. dsimp. split; [reflexivity|].
    rewrite !int_of_str_2 by lia. now apply Hfin.
Qed.

(** C10: for every schedule entry whose [estimated_duration] is a
    non-negative whole number of seconds strictly less than 24 hours (and
    whose [scheduled_time] is a value the [datetime] type can hold),
    [from_dict (to_dict u)] returns [u], field by field: the serialisation
    round-trips, including status, approval flag, notes and scheduled time. *)
Theorem C10_from_dict_to_dict (u : ScheduledUpgrade) :
  dt_valid (scheduled_time u) = true ->
  0 <= estimated_duration u < US_PER_DAY ->
  estimated_duration u mod US_PER_SECOND = 0 ->
  from_dict (to_dict u) = Ok u.
Proof.
  intros Hv Hd Hs.
  destruct (duration_roundtrip _ Hd Hs) as [Hc Hrt].
  destruct u as [c cv tv st ed sta ar n]. cbn [scheduled_time estimated_duration] in *.
  unfold from_dict, to_dict, asdict.
  cbn [dict_get dict_find dict_set String.eqb Ascii.eqb Bool.eqb rbind
       scheduled_time estimated_duration component current_version target_version
       status approval_required notes].
  rewrite (fromisoformat_isoformat _ Hv).
  cbn [dict_get dict_find dict_set String.eqb Ascii.eqb Bool.eqb rbind py_in].
  rewrite Hc. cbn [rbind].
  destruct (unpack3_int _) as [[[h m] s]|]; cbn [rbind] in Hrt |- *; [|discriminate].
  rewrite Hrt. cbn [rbind].
  unfold cls, required, as_str, field_names.
  cbn [dict_get dict_find dict_set String.eqb Ascii.eqb Bool.eqb rbind
       find existsb fst snd negb orb].
  destruct n; reflexivity.
Qed.

Lemma C10_from_dict_to_dict_witness :
  from_dict (to_dict story_0200) = Ok story_0200.
Proof.
  apply C10_from_dict_to_dict.
  - vm_compute. reflexivity.
  - vm_compute. split; [discriminate|reflexivity].
  - vm_compute. reflexivity.
Defined.

End SchedulerProps.

(* ================================================================= *)
(** ** The consensus-client probe *)

Module HealthProps.
Import Py Health Examples.

Lemma keeps_ret {A} (a : A) : keeps_catching_up (ret a).
Proof. intros c H. exact H. Qed.

Lemma keeps_lift {A} (r : result A) : keeps_catching_up (lift r).
Proof. intros c H. exact H. Qed.

Lemma keeps_bind {A B} (m : M story_checks A) (k : A -> M story_checks B) :
  keeps_catching_up m -> (forall a, keeps_catching_up (k a)) ->
  keeps_catching_up (bind m k).
Proof.
  intros Hm Hk c H. unfold bind. specialize (Hm c H).
  destruct (m c) as [[a|e] c']; simpl in *; [now apply Hk|assumption].
Qed.

Lemma keeps_modify (f : story_checks -> story_checks) :
  (forall c, catching_up (f c) = catching_up c) ->
  keeps_catching_up (modify f).
Proof. intros Hf c H. simpl. now rewrite Hf. Qed.

Lemma keeps_if {A} (b : bool) (m1 m2 : M story_checks A) :
  keeps_catching_up m1 -> keeps_catching_up m2 ->
  keeps_catching_up (if b then m1 else m2).
Proof. now destruct b. Qed.

Ltac keeps_tac :=
  repeat first
    [ apply keeps_bind; [|intros ?]
    | apply keeps_if
    | apply keeps_lift
    | apply keeps_ret
    | apply keeps_modify; intros ?; reflexivity ].

Lemma records_bind_ok {A B} (a : A) (k : A -> M story_checks B) :
  records_catching_up (k a) -> records_catching_up (bind (lift (Ok a)) k).
Proof. intros Hk c. exact (Hk c). Qed.

Lemma records_bind_modify {B} f (k : unit -> M story_checks B) :
  records_catching_up (k tt) -> records_catching_up (bind (modify f) k).
Proof. intros Hk c. exact (Hk (f c)). Qed.

Lemma records_then_keeps {A B} (m : M story_checks A) (k : A -> M story_checks B) :
  records_catching_up m -> (forall a, keeps_catching_up (k a)) ->
  records_catching_up (bind m k).
Proof.
  intros Hm Hk c. unfold bind. specialize (Hm c).
  destruct (m c) as [[a|e] c']; simpl in *; [now apply Hk|assumption].
Qed.

Lemma records_set_catching_up :
  records_catching_up (modify (set_catching_up (VBool true))).
Proof. intros c. reflexivity. Qed.

(** Once the status body reports [catching_up = true], the RPC block leaves
    that value in the checks, wherever it stops. *)
Lemma rpc_block_records_catching_up env c data :
  status_json env = Ok data ->
  reports_catching_up data ->
  catching_up (snd (rpc_block env c)) = VBool true.
Proof.
  intros Hs (d & r & si & -> & Hr & Hsi & Hcu). revert c.
  change (records_catching_up (rpc_block env)).
  unfold rpc_block. rewrite Hs.
  apply records_bind_ok. cbn [py_in]. rewrite Hr.
  apply records_bind_ok.
  apply records_then_keeps; [|intros ?; keeps_tac].
  apply records_bind_modify.
  cbn [py_getitem]. unfold dict_get at 1. rewrite Hr.
  apply records_bind_ok.
  cbn [py_getitem]. unfold dict_get at 1. rewrite Hsi.
  apply records_bind_ok.
  cbn [py_getitem]. unfold dict_get at 1. rewrite Hcu.
  apply records_bind_ok.
  apply records_then_keeps; [apply records_set_catching_up|intros ?; keeps_tac].
Qed.

Lemma scan_processes_frame procs c :
  service_running (scan_processes procs c) = service_running c /\
  catching_up (scan_processes procs c) = catching_up c.
Proof.
  induction procs as [|[[name|] rss] procs IH]; simpl; try (now split).
  destruct (_ && _); [destruct rss; now split|exact IH].
Qed.

Lemma rpc_block_service_running env c :
  service_running (snd (rpc_block env c)) = service_running c.
Proof.
  unfold rpc_block, bind, lift, modify, ret.
  repeat
    match goal with
    | |- context [match ?r with Ok _ => _ | Raise _ => _ end] =>
        destruct r; cbn [snd fst]
    | |- context [if ?b then _ else _] => destruct b; cbn [snd fst]
    end; reflexivity.
Qed.

(** C7: whenever the status call of a consensus-client probe reports
    [catching_up = true], the returned health report has [healthy = false],
    whatever the peer count, the journal and every other answer of the host
    are. *)
Theorem C7_catching_up_is_unhealthy
    (self self' : HealthChecker) (env : StoryProbe) (data : value)
    (report : HealthStatus) :
  status_json env = Ok data ->
  reports_catching_up data ->
  _check_story self env = Ok (report, self') ->
  healthy report = false.
Proof.
  intros Hs Hcu. unfold _check_story.
  set (c1 := if negb _ then _ else _).
  set (c2 := if service_running c1 then _ else c1).
  set (c3 := match journal_stdout env with Ok _ => _ | Raise _ => c2 end).
  set (c4 := match process_iter env with Ok _ => _ | Raise _ => c3 end).
  assert (H4 : service_running c4 = false \/ catching_up c4 = VBool true).
  { assert (H2 : service_running c2 = false \/ catching_up c2 = VBool true).
    { subst c2. destruct (service_running c1) eqn:Hrun.
      - right. now apply rpc_block_records_catching_up with data.
      - now left. }
    assert (H3 : service_running c3 = false \/ catching_up c3 = VBool true).
    { subst c3. destruct (journal_stdout env); exact H2. }
    subst c4. destruct (process_iter env) as [procs|]; [|exact H3].
    destruct (scan_processes_frame procs c3) as [-> ->]. exact H3. }
  clearbody c4. clear c1 c2 c3.
  do 2 match goal with
       | |- rbind ?m _ = _ -> _ =>
           destruct m as [?|]; cbn [rbind]; [|discriminate]
       end.
  intros H. injection H as <- _. cbn [healthy].
  destruct H4 as [-> | ->]; [reflexivity|].
  cbn [truthy negb]. now rewrite !andb_false_r.
Qed.

Lemma C7_catching_up_witness :
  exists report self',
    _check_story checker (story_probe (VBool true) (VStr "2024-01-01T00:00:00Z"))
    = Ok (report, self') /\
    healthy report = false.
Proof.
  eexists; eexists. split; [vm_compute; reflexivity|].
  apply (C7_catching_up_is_unhealthy checker
           (mkHealthChecker (config checker) [("story", utc 2024 1 1 0 0)])
           (story_probe (VBool true) (VStr "2024-01-01T00:00:00Z"))
           (status_body (VBool true) (VStr "2024-01-01T00:00:00Z"))).
  - reflexivity.
  - do 3 eexists. repeat split; reflexivity.
  - vm_compute. reflexivity.
Defined.

(** C8 does not hold: the block-time sub-check of the consensus-client
    probe parses [latest_block_time] outside any handler, so a status body
    whose [latest_block_time] is an unparsable string, or is not a string at
    all, makes the probe raise to its caller; so does the system probe when
    reading the load average fails. *)
Theorem C8_probe_propagates_exceptions :
  (exists e,
      _check_story checker (story_probe (VBool false) (VStr "not-a-timestamp"))
      = Raise e /\ exn_cls e = ValueError) /\
  (exists e,
      _check_story checker (story_probe (VBool false) (VInt 1700000000))
      = Raise e /\ exn_cls e = AttributeError) /\
  (exists e,
      _check_system_resources checker no_loadavg = Raise e /\
      exn_cls e = OSError).
Proof.
  repeat split; eexists; split; try (vm_compute; reflexivity); reflexivity.
Qed.

End HealthProps.

(* ================================================================= *)
(** ** The upgrade runner *)

Module RunnerProps.
Import Py Runner Examples.

Section OnAnyHost.
Context {W : Type} {host : HostModel W}.
Variable config : Config.

(** *** Stepping through statements *)

Lemma bind_ok {A B} (m : M (state W) A) (k : A -> M (state W) B) st a st' :
  m st = (Ok a, st') -> bind m k st = k a st'.
Proof. unfold bind. now intros ->. Qed.

Lemma bind_raise {A B} (m : M (state W) A) (k : A -> M (state W) B) st e st' :
  m st = (Raise e, st') -> bind m k st = (Raise e, st').
Proof. unfold bind. now intros ->. Qed.

Lemma bind_enter {B} (m : method) (k : unit -> M (state W) B) st :
  bind (enter m) k st = k tt (log (Called m) st).
Proof. reflexivity. Qed.

Lemma bind_update_record {B} f (k : unit -> M (state W) B) st :
  bind (update_record f) k st = k tt (with_record f st).
Proof. reflexivity. Qed.

(** *** What a statement may log *)

#[local] Abbreviation io := (Runner.io (W:=W)).
#[local] Abbreviation logs := (Runner.logs (W:=W)).

Section Rules.
Variable P : event -> Prop.

Lemma io_ret {A} (a : A) : io P (ret a).
Proof.
  intros st. simpl. repeat split. exists []. now rewrite app_nil_r.
Qed.

Lemma io_lift {A} (r : result A) : io P (lift r).
Proof.
  intros st. simpl. repeat split. exists []. now rewrite app_nil_r.
Qed.

Lemma io_throw {A} c msg : io P (@throw (state W) A c msg).
Proof.
  intros st. simpl. repeat split. exists []. now rewrite app_nil_r.
Qed.

Lemma io_bind {A B} (m : M (state W) A) (k : A -> M (state W) B) :
  io P m -> (forall a, io P (k a)) -> io P (bind m k).
Proof.
  intros Hm Hk st. unfold bind.
  destruct (Hm st) as (Hh & Hr & new & Hc & Hn).
  destruct (m st) as [[a|e] st1]; simpl in *.
  - destruct (Hk a st1) as (Hh' & Hr' & new' & Hc' & Hn').
    split; [congruence|]. split; [congruence|].
    exists (new ++ new'). split.
    + rewrite Hc', Hc. now rewrite app_assoc.
    + now apply Forall_app.
  - repeat split; try assumption. now exists new.
Qed.

Lemma io_try_except {A} (m : M (state W) A) (h : exn -> M (state W) A) :
  io P m -> (forall e, io P (h e)) -> io P (try_except m h).
Proof.
  intros Hm Hh st. unfold try_except.
  destruct (Hm st) as (Hh1 & Hr & new & Hc & Hn).
  destruct (m st) as [[a|e] st1]; simpl in *.
  - repeat split; try assumption. now exists new.
  - destruct (Hh e st1) as (Hh' & Hr' & new' & Hc' & Hn').
    split; [congruence|]. split; [congruence|].
    exists (new ++ new'). split.
    + rewrite Hc', Hc. now rewrite app_assoc.
    + now apply Forall_app.
Qed.

Lemma io_call {R} (o : op R) : P (Host o) -> io P (call o).
Proof.
  intros Ho st. unfold call.
  destruct (host_answer R o (world st)) as [r w]. simpl.
  repeat split. exists [Host o]. split; [reflexivity|]. now constructor.
Qed.

Lemma io_call_r {R} (o : op (result R)) : P (Host o) -> io P (call_r o).
Proof.
  intros Ho. apply io_bind; [now apply io_call|]. intros r. apply io_lift.
Qed.

Lemma io_enter (m : method) : P (Called m) -> io P (enter m).
Proof.
  intros Hm st. simpl. repeat split. exists [Called m].
  split; [reflexivity|]. now constructor.
Qed.

End Rules.

Ltac io_step :=
  first
    [ apply io_bind; [|intros ?]
    | apply io_try_except; [|intros ?]
    | apply io_call
    | apply io_call_r
    | apply io_enter
    | apply io_ret
    | apply io_lift
    | apply io_throw
    | match goal with
      | |- io _ (if ?b then _ else _) => destruct b
      | |- io _ (match ?x with _ => _ end) => destruct x
      end ].

Ltac io_tac := repeat io_step; auto.

(** The steps of the built-in path log their own entry and host
    operations, nothing else. *)
Section Steps.
Variable P : event -> Prop.
Hypothesis P_host : forall R (o : op R), P (Host o).

Lemma io_pre_upgrade_checks c :
  P (Called M_pre_upgrade_checks) -> io P (_pre_upgrade_checks c).
Proof. intros Hp. unfold _pre_upgrade_checks. io_tac. Qed.

Lemma io_create_backup c :
  P (Called M_create_backup) -> io P (_create_backup config c).
Proof. intros Hp. unfold _create_backup. io_tac. Qed.

Lemma io_download_binary c v :
  P (Called M_download_binary) -> io P (_download_binary c v).
Proof. intros Hp. unfold _download_binary. io_tac. Qed.

Lemma io_verify_binary b :
  P (Called M_verify_binary) -> io P (_verify_binary b).
Proof. intros Hp. unfold _verify_binary. io_tac. Qed.

Lemma io_stop_service c :
  P (Called M_stop_service) -> io P (_stop_service config c).
Proof. intros Hp. unfold _stop_service. io_tac. Qed.

Lemma io_replace_binary c b :
  P (Called M_replace_binary) -> io P (_replace_binary config c b).
Proof. intros Hp. unfold _replace_binary. io_tac. Qed.

Lemma io_start_service c :
  P (Called M_start_service) -> io P (_start_service config c).
Proof. intros Hp. unfold _start_service. io_tac. Qed.

End Steps.

(** *** Rollback *)

Lemma not_rollback_host R (o : op R) : not_rollback (Host o).
Proof. reflexivity. Qed.

Lemma rollback_attempts_app l1 l2 :
  rollback_attempts (l1 ++ l2) = (rollback_attempts l1 + rollback_attempts l2)%nat.
Proof. unfold rollback_attempts. now rewrite filter_app, length_app. Qed.

Lemma rollback_attempts_none l :
  Forall not_rollback l -> rollback_attempts l = 0%nat.
Proof.
  unfold rollback_attempts. induction 1 as [|e l He _ IH]; simpl; [reflexivity|].
  unfold not_rollback in He. now rewrite He.
Qed.

(** [_rollback] never raises, and one call of it is one rollback attempt. *)
Lemma rollback_spec c backup st :
  exists b new,
    fst (_rollback config c backup st) = Ok b /\
    upgrade_history (snd (_rollback config c backup st)) = upgrade_history st /\
    upgrade_record (snd (_rollback config c backup st)) = upgrade_record st /\
    calls (snd (_rollback config c backup st))
    = calls st ++ Called M_rollback :: new /\
    Forall not_rollback new.
Proof.
  unfold _rollback. rewrite !bind_enter.
  match goal with
  | |- context [try_except ?m ?h ?s] =>
      assert (Hio : io not_rollback (try_except m h))
        by (pose proof not_rollback_host;
            io_tac; try apply io_stop_service; try apply io_start_service;
            auto; reflexivity);
      destruct (Hio s) as (Hh & Hr & new & Hc & Hn);
      assert (Hok : exists b, fst (try_except m h s) = Ok b)
        by (unfold try_except; destruct (m s) as [[?|?] ?]; simpl; eauto);
      destruct Hok as [b Hok]
  end.
  exists b, new. split; [exact Hok|]. split; [exact Hh|]. split; [exact Hr|].
  split; [|exact Hn]. rewrite Hc. cbn [log calls]. now rewrite <- app_assoc.
Qed.

Ltac step_facts H lemma F :=
  match type of H with
  | _ ?st = _ => pose proof (lemma st) as F
  end;
  rewrite H in F; cbn [snd] in F.

(** C3: in every real (not dry-run) upgrade attempt in which every step up
    to and including the binary replacement succeeds and the service start
    then fails, the attempt returns a failure, the one record it appends has
    [success = false], and exactly one rollback attempt is made. *)
Theorem C3_start_failure_rolls_back_once
    (component : string) (target_version : Watcher.Version) (st0 : state W) :
  start_fails_after_replace config component target_version st0 ->
  let '(result, st') := perform_upgrade config component target_version false st0 in
  result = Ok (false, "Failed to start service after upgrade") /\
  exists record new,
    upgrade_history st' = upgrade_history st0 ++ [record] /\
    success record = false /\
    calls st' = calls st0 ++ new /\
    rollback_attempts new = 1%nat.
Proof.
  intros (s1 & s2 & s3 & backup & s4 & binary & s5 & s6 & s7 & s8 & s9 &
          Hbegin & Hpre & Hscript & Hbackup & Hdl & Hver & Hstop & Hrep & Hstart).
  destruct (rollback_spec component backup s9)
    as (b & newrb & Hrb_ok & Hrb_h & Hrb_r & Hrb_c & Hrb_n).
  pose proof not_rollback_host as Hhost.
  assert (Hnr : forall m, m <> M_rollback -> not_rollback (Called m))
    by (intros [] ?; try reflexivity; congruence).
  (* what each step leaves behind *)
  assert (Fbegin : upgrade_history s1 = upgrade_history st0 /\
                   success (upgrade_record s1) = false /\
                   exists new, calls s1 = calls st0 ++ new /\ Forall not_rollback new).
  { revert Hbegin. unfold begin_attempt, bind, call, update_record, modify.
    destruct (host_answer _ GetCurrentVersions (world st0)) as [vs w1]. cbn.
    destruct (host_answer _ Now w1) as [t w2]. cbn.
    intros [= <-]. cbn. repeat split.
    exists [Host GetCurrentVersions; Host Now]. split.
    - now rewrite <- app_assoc.
    - repeat constructor. }
  destruct Fbegin as (Hh1 & Hs1 & new1 & Hc1 & Hn1).
  step_facts Hpre (io_pre_upgrade_checks not_rollback Hhost component
                     (Hnr M_pre_upgrade_checks ltac:(discriminate))) F2.
  destruct F2 as (Hh2 & Hr2 & new2 & Hc2 & Hn2).
  step_facts Hscript (io_call not_rollback (PathExists UPGRADE_SCRIPT) (Hhost _ _)) F3.
  destruct F3 as (Hh3 & Hr3 & new3 & Hc3 & Hn3).
  step_facts Hbackup (io_create_backup not_rollback Hhost component
                        (Hnr M_create_backup ltac:(discriminate))) F4.
  destruct F4 as (Hh4 & Hr4 & new4 & Hc4 & Hn4).
  step_facts Hdl (io_download_binary not_rollback Hhost component target_version
                    (Hnr M_download_binary ltac:(discriminate))) F5.
  destruct F5 as (Hh5 & Hr5 & new5 & Hc5 & Hn5).
  step_facts Hver (io_verify_binary not_rollback Hhost binary
                     (Hnr M_verify_binary ltac:(discriminate))) F6.
  destruct F6 as (Hh6 & Hr6 & new6 & Hc6 & Hn6).
  step_facts Hstop (io_stop_service not_rollback Hhost component
                      (Hnr M_stop_service ltac:(discriminate))) F7.
  destruct F7 as (Hh7 & Hr7 & new7 & Hc7 & Hn7).
  step_facts Hrep (io_replace_binary not_rollback Hhost component binary
                     (Hnr M_replace_binary ltac:(discriminate))) F8.
  destruct F8 as (Hh8 & Hr8 & new8 & Hc8 & Hn8).
  step_facts Hstart (io_start_service not_rollback Hhost component
                       (Hnr M_start_service ltac:(discriminate))) F9.
  destruct F9 as (Hh9 & Hr9 & new9 & Hc9 & Hn9).
  cbn [with_record upgrade_history upgrade_record calls] in *.
  (* the run itself *)
  unfold perform_upgrade.
  rewrite (bind_ok _ _ _ _ _ Hbegin).
  unfold try_finally, try_except at 1.
  rewrite (bind_ok _ _ _ _ _ Hpre). cbn [negb].
  rewrite (bind_ok _ _ _ _ _ Hscript).
  unfold _perform_legacy_upgrade, try_except at 1.
  rewrite (bind_ok _ _ _ _ _ Hbackup).
  rewrite bind_update_record.
  rewrite (bind_ok _ _ _ _ _ Hdl).
  rewrite (bind_ok _ _ _ _ _ Hver). cbn [negb].
  rewrite (bind_ok _ _ _ _ _ Hstop). cbn [negb].
  rewrite (bind_ok _ _ _ _ _ Hrep). cbn [negb].
  rewrite (bind_ok _ _ _ _ _ Hstart). cbn [negb].
  unfold bind at 1.
  destruct (_rollback config component backup s9) as [[rb|e] s10];
    cbn [fst snd] in *; [|discriminate].
  cbn [throw raise ret exn_str].
  unfold bind at 1. cbn [append_record modify].
  unfold _save_upgrade_history, bind, get, call. cbn [upgrade_history world calls].
  destruct (host_answer _ (DumpHistory _) (world s10)) as [r wf].
  cbn [ret]. split; [reflexivity|].
  exists (upgrade_record s10).
  eexists. cbn [upgrade_history calls]. split; [|split; [|split]].
  - congruence.
  - rewrite Hrb_r, Hr9, Hr8, Hr7, Hr6, Hr5. cbn [success set_backup_path].
    rewrite Hr4, Hr3, Hr2. exact Hs1.
  - rewrite Hrb_c, Hc9, Hc8, Hc7, Hc6, Hc5, Hc4, Hc3, Hc2, Hc1.
    rewrite <- !app_assoc. reflexivity.
  - rewrite !rollback_attempts_app.
    change (rollback_attempts (Called M_rollback :: newrb))
      with (S (rollback_attempts newrb)).
    repeat match goal with
           | H : Forall not_rollback ?l |- _ =>
               rewrite (rollback_attempts_none l H); clear H
           end.
    reflexivity.
Qed.

(** *** The attempt as a whole *)

Lemma begin_attempt_spec c v (dry : bool) st :
  exists versions t w,
    begin_attempt c v dry st =
    (Ok tt,
     mkState w (calls st ++ [Host GetCurrentVersions; Host Now])
       (upgrade_history st)
       (mkRecord c (get_or versions c "unknown") (Watcher.version v) t dry
          false None None None)).
Proof.
  unfold begin_attempt, bind, call, update_record, modify, with_record.
  destruct (host_answer _ GetCurrentVersions (world st)) as [vs w1]. cbn.
  destruct (host_answer _ Now w1) as [t w2]. cbn.
  exists vs, t, w2. now rewrite <- app_assoc.
Qed.

Lemma pre_upgrade_checks_spec c st :
  exists r w,
    _pre_upgrade_checks c st =
    (r, mkState w (calls st ++ [Called M_pre_upgrade_checks; Host CheckAll])
          (upgrade_history st) (upgrade_record st)).
Proof.
  unfold _pre_upgrade_checks. rewrite bind_enter.
  unfold call_r, bind, call, lift, log. cbn [world calls upgrade_history upgrade_record].
  destruct (host_answer _ CheckAll (world st)) as [[hs|e] w]; cbn;
    rewrite <- app_assoc; cbn [app]; [|eauto].
  destruct (lookup "system" hs) as [h|]; [|unfold ret; eauto].
  destruct (Health.healthy h); cbn [negb]; [|unfold ret; eauto].
  destruct (dict_get _ _) as [free|]; [|eauto].
  destruct (py_lt_float _ _) as [[|]|]; unfold ret; eauto.
Qed.

Lemma finish_spec st :
  exists w,
    bind append_record (fun _ => _save_upgrade_history) st =
    (Ok tt,
     mkState w
       (calls st ++ [Host (DumpHistory (upgrade_history st ++ [upgrade_record st]))])
       (upgrade_history st ++ [upgrade_record st]) (upgrade_record st)).
Proof.
  unfold _save_upgrade_history, append_record, bind, get, modify, call.
  cbn [upgrade_history world calls upgrade_record].
  destruct (host_answer _ (DumpHistory _) (world st)) as [r w].
  now exists w.
Qed.

(** What [perform_upgrade] does once the pre-upgrade checks have come back
    with anything but [True]: the handler stamps the record and the attempt
    is closed. *)
Lemma abort_spec (e : exn) st :
  exists t w,
    bind (update_record (set_success false))
      (fun _ => bind (update_record (set_error (Some (exn_str e))))
      (fun _ => bind (call Now)
      (fun t => bind (update_record (set_end_time t))
      (fun _ => ret (false, ("Upgrade failed: " ++ exn_str e)%string))))) st =
    (Ok (false, ("Upgrade failed: " ++ exn_str e)%string),
     mkState w (calls st ++ [Host Now]) (upgrade_history st)
       (set_end_time t (set_error (Some (exn_str e))
                          (set_success false (upgrade_record st))))).
Proof.
  rewrite !bind_update_record. unfold bind, call, with_record.
  cbn [upgrade_history world calls upgrade_record].
  destruct (host_answer _ Now (world st)) as [t w]. cbn.
  now exists t, w.
Qed.

(** An attempt whose pre-upgrade checks come back with anything but [True]:
    what it returns, what it appends and what it calls. *)
Lemma failed_checks_abort
    (component : string) (target_version : Watcher.Version) (dry : bool)
    (st0 : state W) :
  fst (_pre_upgrade_checks component
         (snd (begin_attempt component target_version dry st0))) <> Ok true ->
  let '(result, st') := perform_upgrade config component target_version dry st0 in
  (exists msg, result = Ok (false, ("Upgrade failed: " ++ msg)%string)) /\
  exists record,
    upgrade_history st' = upgrade_history st0 ++ [record] /\
    dry_run record = dry /\
    success record = false /\
    backup_path record = None /\
    calls st' =
    calls st0 ++ [ Host GetCurrentVersions; Host Now;
                   Called M_pre_upgrade_checks; Host CheckAll;
                   Host Now; Host (DumpHistory (upgrade_history st')) ] /\
    Forall harmless
      [ Host GetCurrentVersions; Host Now;
        Called M_pre_upgrade_checks; Host CheckAll;
        Host Now; Host (DumpHistory (upgrade_history st')) ].
Proof.
  unfold perform_upgrade.
  destruct (begin_attempt_spec component target_version dry st0)
    as (vs & t0 & w1 & Hb).
  rewrite Hb. cbn [snd]. rewrite (bind_ok _ _ _ _ _ Hb).
  match goal with
  | |- context [_pre_upgrade_checks component ?s] =>
      destruct (pre_upgrade_checks_spec component s) as (r & w2 & Hp)
  end.
  rewrite Hp. cbn [fst]. intros Hfail.
  unfold try_finally, try_except at 1.
  destruct r as [[|]|e];
    [ now contradiction Hfail
    | rewrite (bind_ok _ _ _ _ _ Hp); cbn [negb throw raise]
    | rewrite (bind_raise _ _ _ _ _ Hp) ];
    cbv beta iota;
    match goal with
    | |- context [bind (update_record (set_success false))
                    (fun _ => bind (update_record (set_error (Some (exn_str ?e)))) _)
                    ?s] =>
        destruct (abort_spec e s) as (t & w3 & Ha); rewrite Ha
    end;
    match goal with
    | |- context [bind append_record _ ?s] =>
        destruct (finish_spec s) as (w4 & Hf); rewrite Hf
    end;
    cbn [upgrade_history calls upgrade_record];
    (split; [eexists; reflexivity|]);
    eexists; (split; [reflexivity|]); (split; [reflexivity|]);
    (split; [reflexivity|]); (split; [reflexivity|]);
    (split; [rewrite <- !app_assoc; reflexivity | repeat constructor]).
Qed.

(** C5: if the pre-upgrade checks fail (return false or raise), the attempt
    is reported as failed and nothing is changed: no backup directory is
    created and no service is stopped or started.  The calls made are
    reading the installed versions and the clock, the health check, the
    clock again, and writing the history, to which the single record of the
    attempt, marked as failed and without a backup path, has been
    appended. *)
Theorem C5_failed_checks_abort_before_mutation
    (component : string) (target_version : Watcher.Version) (dry : bool)
    (st0 : state W) :
  fst (_pre_upgrade_checks component
         (snd (begin_attempt component target_version dry st0))) <> Ok true ->
  let '(result, st') := perform_upgrade config component target_version dry st0 in
  (exists msg, result = Ok (false, ("Upgrade failed: " ++ msg)%string)) /\
  exists record,
    upgrade_history st' = upgrade_history st0 ++ [record] /\
    success record = false /\
    backup_path record = None /\
    calls st' =
    calls st0 ++ [ Host GetCurrentVersions; Host Now;
                   Called M_pre_upgrade_checks; Host CheckAll;
                   Host Now; Host (DumpHistory (upgrade_history st')) ] /\
    Forall harmless
      [ Host GetCurrentVersions; Host Now;
        Called M_pre_upgrade_checks; Host CheckAll;
        Host Now; Host (DumpHistory (upgrade_history st')) ].
Proof.
  intros Hfail.
  pose proof (failed_checks_abort component target_version dry st0 Hfail) as H.
  destruct (perform_upgrade config component target_version dry st0)
    as [result st'].
  destruct H as (Hres & record & Hh & _ & Hs & Hb & Hc & Hn).
  split; [exact Hres|]. exists record. repeat split; assumption.
Qed.

(** C4 (amended): no call of [perform_upgrade] with [dry_run = true] creates
    a backup, downloads a binary, stops or starts a service, or issues any
    other mutating operation; the single record it appends has
    [dry_run = true], and has [success = true] exactly when the pre-upgrade
    checks pass. *)
Theorem C4_dry_run_changes_nothing
    (component : string) (target_version : Watcher.Version) (st0 : state W) :
  let passed :=
    fst (_pre_upgrade_checks component
           (snd (begin_attempt component target_version true st0))) in
  let '(result, st') := perform_upgrade config component target_version true st0 in
  exists record new,
    upgrade_history st' = upgrade_history st0 ++ [record] /\
    dry_run record = true /\
    success record = (match passed with Ok true => true | _ => false end) /\
    calls st' = calls st0 ++ new /\
    Forall harmless new.
Proof.
  destruct (match fst (_pre_upgrade_checks component
                         (snd (begin_attempt component target_version true st0)))
            with Ok true => true | _ => false end) eqn:Hpass.
  - (* the checks pass: the dry run stops here *)
    cbv zeta. rewrite Hpass. revert Hpass. unfold perform_upgrade.
    destruct (begin_attempt_spec component target_version true st0)
      as (vs & t0 & w1 & Hb).
    rewrite Hb. cbn [snd]. rewrite (bind_ok _ _ _ _ _ Hb).
    match goal with
    | |- context [_pre_upgrade_checks component ?s] =>
        destruct (pre_upgrade_checks_spec component s) as (r & w2 & Hp)
    end.
    rewrite Hp. cbn [fst]. intros Hpass.
    destruct r as [[|]|]; try discriminate.
    unfold try_finally, try_except at 1.
    rewrite (bind_ok _ _ _ _ _ Hp). cbn [negb].
    rewrite bind_update_record. unfold ret at 1.
    match goal with
    | |- context [bind append_record _ ?s] =>
        destruct (finish_spec s) as (w4 & Hf)
    end.
    rewrite Hf. cbn [upgrade_history calls upgrade_record with_record].
    eexists. eexists. split; [reflexivity|]. split; [reflexivity|].
    split; [reflexivity|]. split.
    + rewrite <- !app_assoc. reflexivity.
    + repeat constructor.
  - (* they do not: the attempt aborts as in C5 *)
    cbv zeta. rewrite Hpass.
    assert (Hfail : fst (_pre_upgrade_checks component
                           (snd (begin_attempt component target_version true st0)))
                    <> Ok true).
    { intros E. rewrite E in Hpass. discriminate. }
    pose proof (failed_checks_abort component target_version true st0 Hfail) as H5.
    destruct (perform_upgrade config component target_version true st0)
      as [result st'].
    destruct H5 as (_ & record & Hh & Hd & Hs & _ & Hc & Hn).
    exists record. eexists. repeat split; eassumption.
Qed.

(** *** Every attempt leaves one record *)

Lemma io_logs {A} (P : event -> Prop) (m : M (state W) A) : io P m -> logs m.
Proof.
  intros H st. destruct (H st) as (Hh & Hr & new & Hc & _).
  split; [exact Hh|]. split; [now rewrite Hr|]. now exists new.
Qed.

Lemma logs_bind {A B} (m : M (state W) A) (k : A -> M (state W) B) :
  logs m -> (forall a, logs (k a)) -> logs (bind m k).
Proof.
  intros Hm Hk st. unfold bind.
  destruct (Hm st) as (Hh & Hr & new & Hc).
  destruct (m st) as [[a|e] st1]; simpl in *.
  - destruct (Hk a st1) as (Hh' & Hr' & new' & Hc').
    split; [congruence|]. split; [congruence|].
    exists (new ++ new'). rewrite Hc', Hc. now rewrite app_assoc.
  - repeat split; try assumption. now exists new.
Qed.

Lemma logs_try_except {A} (m : M (state W) A) (h : exn -> M (state W) A) :
  logs m -> (forall e, logs (h e)) -> logs (try_except m h).
Proof.
  intros Hm Hh st. unfold try_except.
  destruct (Hm st) as (Hh1 & Hr & new & Hc).
  destruct (m st) as [[a|e] st1]; simpl in *.
  - repeat split; try assumption. now exists new.
  - destruct (Hh e st1) as (Hh' & Hr' & new' & Hc').
    split; [congruence|]. split; [congruence|].
    exists (new ++ new'). rewrite Hc', Hc. now rewrite app_assoc.
Qed.

Lemma logs_update_record (f : UpgradeRecord -> UpgradeRecord) :
  (forall r, attempt_of (f r) = attempt_of r) -> logs (update_record f).
Proof.
  intros Hf st. simpl. split; [reflexivity|]. split; [apply Hf|].
  exists []. now rewrite app_nil_r.
Qed.

Ltac logs_leaf :=
  apply (io_logs any_event);
  first [ apply io_pre_upgrade_checks | apply io_create_backup
        | apply io_download_binary | apply io_verify_binary
        | apply io_stop_service | apply io_replace_binary
        | apply io_start_service | io_tac ];
  try (intros; exact I).

Ltac logs_with known :=
  repeat
    lazymatch goal with
    | |- Runner.logs (bind _ _) => apply logs_bind; [|intros ?]
    | |- Runner.logs (try_except _ _) => apply logs_try_except; [|intros ?]
    | |- Runner.logs (update_record _) =>
        apply logs_update_record; intros ?; reflexivity
    | |- Runner.logs (if ?b then _ else _) => destruct b
    | |- Runner.logs (match ?x with _ => _ end) => destruct x
    | |- _ => first [ progress cbv zeta | known | logs_leaf ]
    end.

Lemma logs_rollback c backup : logs (_rollback config c backup).
Proof. unfold _rollback. logs_with fail. Qed.

Lemma logs_post_upgrade_verification c v :
  logs (_post_upgrade_verification c v).
Proof. unfold _post_upgrade_verification. logs_with fail. Qed.

Lemma logs_perform_legacy_upgrade c v : logs (_perform_legacy_upgrade config c v).
Proof.
  unfold _perform_legacy_upgrade.
  logs_with ltac:(first [ apply logs_rollback
                        | apply logs_post_upgrade_verification ]).
Qed.

Lemma logs_perform_upgrade_body c v (dry : bool) :
  logs (passed <- _pre_upgrade_checks c ;;
        if negb passed then throw Exception "Pre-upgrade checks failed"
        else if dry then
          update_record (set_success true) ;;
          ret (true, "Dry run completed successfully")
        else
          native <- call (PathExists UPGRADE_SCRIPT) ;;
          if native : bool then
            '(success, message) <- _run_native_upgrade c (Watcher.version v) ;;
            if success : bool then
              update_record (set_success true) ;;
              t <- call Now ;;
              update_record (set_end_time t) ;;
              ret (true,
                   ("Successfully upgraded " ++ c ++ " to "
                    ++ Watcher.version v)%string)
            else throw Exception message
          else _perform_legacy_upgrade config c v)%stmt.
Proof.
  unfold _run_native_upgrade.
  logs_with ltac:(apply logs_perform_legacy_upgrade).
Qed.

(** Every call of [perform_upgrade] returns, appends exactly one record,
    the one of this attempt, and ends by writing the history. *)
Lemma perform_upgrade_appends_one_record
    (component : string) (target_version : Watcher.Version) (dry : bool)
    (st0 : state W) :
  exists ok msg st' record new,
    perform_upgrade config component target_version dry st0 = (Ok (ok, msg), st') /\
    upgrade_history st' = upgrade_history st0 ++ [record] /\
    Runner.component record = component /\
    to_version record = Watcher.version target_version /\
    dry_run record = dry /\
    calls st' = calls st0 ++ new ++ [Host (DumpHistory (upgrade_history st'))].
Proof.
  unfold perform_upgrade.
  destruct (begin_attempt_spec component target_version dry st0)
    as (vs & t0 & w1 & Hb).
  rewrite (bind_ok _ _ _ _ _ Hb). unfold try_finally.
  match goal with
  | |- context [try_except ?body ?handler ?s] =>
      assert (Hbody : logs body)
        by apply logs_perform_upgrade_body;
      destruct (Hbody s) as (Hh & Ha & new & Hc);
      unfold try_except; destruct (body s) as [[[ok msg]|e] s2]
  end; cbn [snd upgrade_history upgrade_record calls] in Hh, Ha, Hc.
  - destruct (finish_spec s2) as (w4 & Hf). rewrite Hf.
    injection Ha as Ha1 _ Ha3 _ Ha5.
    exists ok, msg. eexists. exists (upgrade_record s2).
    exists ([Host GetCurrentVersions; Host Now] ++ new).
    split; [reflexivity|]. cbn [upgrade_history calls].
    rewrite Hh, Hc. do 4 (split; [first [reflexivity | assumption]|]).
    now rewrite <- !app_assoc.
  - cbv beta iota.
    destruct (abort_spec e s2) as (t & w3 & Habort). rewrite Habort.
    match goal with
    | |- context [bind append_record _ ?s] =>
        destruct (finish_spec s) as (w4 & Hf); rewrite Hf
    end.
    injection Ha as Ha1 _ Ha3 _ Ha5.
    do 4 eexists.
    exists ([Host GetCurrentVersions; Host Now] ++ new ++ [Host Now]).
    split; [reflexivity|]. cbn [upgrade_history calls upgrade_record].
    rewrite Hh, Hc. do 4 (split; [first [reflexivity | assumption]|]).
    now rewrite <- !app_assoc.
Qed.

(** *** Other ways through the built-in path *)

Section MoreSteps.
Variable P : event -> Prop.
Hypothesis P_host : forall R (o : op R), P (Host o).

Lemma io_post_upgrade_verification c v :
  P (Called M_post_upgrade_verification) -> io P (_post_upgrade_verification c v).
Proof. intros Hp. unfold _post_upgrade_verification. cbv zeta. io_tac. Qed.

Lemma io_run_native_upgrade c v :
  P (Called M_run_native_upgrade) -> io P (_run_native_upgrade c v).
Proof. intros Hp. unfold _run_native_upgrade. io_tac. Qed.

Lemma io_begin_attempt c v (dry : bool) st s1 :
  begin_attempt c v dry st = (Ok tt, s1) ->
  upgrade_history s1 = upgrade_history st /\
  success (upgrade_record s1) = false /\
  exists new, calls s1 = calls st ++ new /\ Forall P new.
Proof.
  destruct (begin_attempt_spec c v dry st) as (vs & t0 & w1 & Hb).
  rewrite Hb. intros [= <-]. cbn. repeat split.
  eexists. split; [reflexivity|]. repeat constructor; apply P_host.
Qed.

End MoreSteps.

Lemma keeps_service_down_host R (o : op R) : keeps_service_down (Host o).
Proof. exact I. Qed.

(** When the post-upgrade verification fails after the service has been
    started again, the attempt returns a failure, the one record it appends
    has [success = false], and exactly one rollback attempt is made. *)
Theorem verification_failure_rolls_back_once
    (component : string) (target_version : Watcher.Version) (st0 : state W) :
  verification_fails_after_start config component target_version st0 ->
  let '(result, st') := perform_upgrade config component target_version false st0 in
  result = Ok (false, "Post-upgrade verification failed") /\
  exists record new,
    upgrade_history st' = upgrade_history st0 ++ [record] /\
    success record = false /\
    calls st' = calls st0 ++ new /\
    rollback_attempts new = 1%nat.
Proof.
  intros (s1 & s2 & s3 & backup & s4 & binary & s5 & s6 & s7 & s8 & s9 & s10 &
          Hbegin & Hpre & Hscript & Hbackup & Hdl & Hver & Hstop & Hrep & Hstart &
          Hpost).
  destruct (rollback_spec component backup s10)
    as (b & newrb & Hrb_ok & Hrb_h & Hrb_r & Hrb_c & Hrb_n).
  pose proof not_rollback_host as Hhost.
  assert (Hnr : forall m, m <> M_rollback -> not_rollback (Called m))
    by (intros [] ?; try reflexivity; congruence).
  destruct (io_begin_attempt not_rollback Hhost _ _ _ _ _ Hbegin)
    as (Hh1 & Hs1 & new1 & Hc1 & Hn1).
  step_facts Hpre (io_pre_upgrade_checks not_rollback Hhost component
                     (Hnr M_pre_upgrade_checks ltac:(discriminate))) F2.
  destruct F2 as (Hh2 & Hr2 & new2 & Hc2 & Hn2).
  step_facts Hscript (io_call not_rollback (PathExists UPGRADE_SCRIPT) (Hhost _ _)) F3.
  destruct F3 as (Hh3 & Hr3 & new3 & Hc3 & Hn3).
  step_facts Hbackup (io_create_backup not_rollback Hhost component
                        (Hnr M_create_backup ltac:(discriminate))) F4.
  destruct F4 as (Hh4 & Hr4 & new4 & Hc4 & Hn4).
  step_facts Hdl (io_download_binary not_rollback Hhost component target_version
                    (Hnr M_download_binary ltac:(discriminate))) F5.
  destruct F5 as (Hh5 & Hr5 & new5 & Hc5 & Hn5).
  step_facts Hver (io_verify_binary not_rollback Hhost binary
                     (Hnr M_verify_binary ltac:(discriminate))) F6.
  destruct F6 as (Hh6 & Hr6 & new6 & Hc6 & Hn6).
  step_facts Hstop (io_stop_service not_rollback Hhost component
                      (Hnr M_stop_service ltac:(discriminate))) F7.
  destruct F7 as (Hh7 & Hr7 & new7 & Hc7 & Hn7).
  step_facts Hrep (io_replace_binary not_rollback Hhost component binary
                     (Hnr M_replace_binary ltac:(discriminate))) F8.
  destruct F8 as (Hh8 & Hr8 & new8 & Hc8 & Hn8).
  step_facts Hstart (io_start_service not_rollback Hhost component
                       (Hnr M_start_service ltac:(discriminate))) F9.
  destruct F9 as (Hh9 & Hr9 & new9 & Hc9 & Hn9).
  step_facts Hpost (io_post_upgrade_verification not_rollback Hhost component
                      (Watcher.version target_version)
                      (Hnr M_post_upgrade_verification ltac:(discriminate))) F10.
  destruct F10 as (Hh10 & Hr10 & new10 & Hc10 & Hn10).
  cbn [with_record upgrade_history upgrade_record calls] in *.
  unfold perform_upgrade.
  rewrite (bind_ok _ _ _ _ _ Hbegin).
  unfold try_finally, try_except at 1.
  rewrite (bind_ok _ _ _ _ _ Hpre). cbn [negb].
  rewrite (bind_ok _ _ _ _ _ Hscript).
  unfold _perform_legacy_upgrade, try_except at 1.
  rewrite (bind_ok _ _ _ _ _ Hbackup).
  rewrite bind_update_record.
  rewrite (bind_ok _ _ _ _ _ Hdl).
  rewrite (bind_ok _ _ _ _ _ Hver). cbn [negb].
  rewrite (bind_ok _ _ _ _ _ Hstop). cbn [negb].
  rewrite (bind_ok _ _ _ _ _ Hrep). cbn [negb].
  rewrite (bind_ok _ _ _ _ _ Hstart). cbn [negb].
  rewrite (bind_ok _ _ _ _ _ Hpost). cbn [negb].
  unfold bind at 1.
  destruct (_rollback config component backup s10) as [[rb|e] s11];
    cbn [fst snd] in *; [|discriminate].
  cbn [throw raise ret exn_str].
  unfold bind at 1. cbn [append_record modify].
  unfold _save_upgrade_history, bind, get, call. cbn [upgrade_history world calls].
  destruct (host_answer _ (DumpHistory _) (world s11)) as [r wf].
  cbn [ret]. split; [reflexivity|].
  exists (upgrade_record s11).
  eexists. cbn [upgrade_history calls]. split; [|split; [|split]].
  - congruence.
  - rewrite Hrb_r, Hr10, Hr9, Hr8, Hr7, Hr6, Hr5. cbn [success set_backup_path].
    rewrite Hr4, Hr3, Hr2. exact Hs1.
  - rewrite Hrb_c, Hc10, Hc9, Hc8, Hc7, Hc6, Hc5, Hc4, Hc3, Hc2, Hc1.
    rewrite <- !app_assoc. reflexivity.
  - rewrite !rollback_attempts_app.
    change (rollback_attempts (Called M_rollback :: newrb))
      with (S (rollback_attempts newrb)).
    repeat match goal with
           | H : Forall not_rollback ?l |- _ =>
               rewrite (rollback_attempts_none l H); clear H
           end.
    reflexivity.
Qed.

(** When the replacement of the binary fails after the service has been
    stopped, the attempt returns a failure and its record has
    [success = false]; nothing in the whole attempt starts the service or
    rolls back, so the service is left stopped. *)
Theorem replace_failure_leaves_service_down
    (component : string) (target_version : Watcher.Version) (st0 : state W) :
  replace_fails_after_stop config component target_version st0 ->
  let '(result, st') := perform_upgrade config component target_version false st0 in
  result = Ok (false, "Failed to replace binary") /\
  exists record new,
    upgrade_history st' = upgrade_history st0 ++ [record] /\
    success record = false /\
    calls st' = calls st0 ++ new /\
    Forall keeps_service_down new.
Proof.
  intros (s1 & s2 & s3 & backup & s4 & binary & s5 & s6 & s7 & s8 &
          Hbegin & Hpre & Hscript & Hbackup & Hdl & Hver & Hstop & Hrep).
  pose proof keeps_service_down_host as Hhost.
  destruct (io_begin_attempt keeps_service_down Hhost _ _ _ _ _ Hbegin)
    as (Hh1 & Hs1 & new1 & Hc1 & Hn1).
  step_facts Hpre (io_pre_upgrade_checks keeps_service_down Hhost component I) F2.
  destruct F2 as (Hh2 & Hr2 & new2 & Hc2 & Hn2).
  step_facts Hscript
    (io_call keeps_service_down (PathExists UPGRADE_SCRIPT) (Hhost _ _)) F3.
  destruct F3 as (Hh3 & Hr3 & new3 & Hc3 & Hn3).
  step_facts Hbackup (io_create_backup keeps_service_down Hhost component I) F4.
  destruct F4 as (Hh4 & Hr4 & new4 & Hc4 & Hn4).
  step_facts Hdl
    (io_download_binary keeps_service_down Hhost component target_version I) F5.
  destruct F5 as (Hh5 & Hr5 & new5 & Hc5 & Hn5).
  step_facts Hver (io_verify_binary keeps_service_down Hhost binary I) F6.
  destruct F6 as (Hh6 & Hr6 & new6 & Hc6 & Hn6).
  step_facts Hstop (io_stop_service keeps_service_down Hhost component I) F7.
  destruct F7 as (Hh7 & Hr7 & new7 & Hc7 & Hn7).
  step_facts Hrep (io_replace_binary keeps_service_down Hhost component binary I) F8.
  destruct F8 as (Hh8 & Hr8 & new8 & Hc8 & Hn8).
  cbn [with_record upgrade_history upgrade_record calls] in *.
  unfold perform_upgrade.
  rewrite (bind_ok _ _ _ _ _ Hbegin).
  unfold try_finally, try_except at 1.
  rewrite (bind_ok _ _ _ _ _ Hpre). cbn [negb].
  rewrite (bind_ok _ _ _ _ _ Hscript).
  unfold _perform_legacy_upgrade, try_except at 1.
  rewrite (bind_ok _ _ _ _ _ Hbackup).
  rewrite bind_update_record.
  rewrite (bind_ok _ _ _ _ _ Hdl).
  rewrite (bind_ok _ _ _ _ _ Hver). cbn [negb].
  rewrite (bind_ok _ _ _ _ _ Hstop). cbn [negb].
  rewrite (bind_ok _ _ _ _ _ Hrep). cbn [negb].
  cbn [throw raise ret exn_str].
  destruct (finish_spec s8) as (w4 & Hf). rewrite Hf.
  split; [reflexivity|].
  exists (upgrade_record s8), (new1 ++ new2 ++ new3 ++ new4 ++ new5 ++ new6
                               ++ new7 ++ new8
                               ++ [Host (DumpHistory
                                           (upgrade_history s8 ++ [upgrade_record s8]))]).
  cbn [upgrade_history calls]. split; [|split; [|split]].
  - congruence.
  - rewrite Hr8, Hr7, Hr6, Hr5. cbn [success set_backup_path].
    rewrite Hr4, Hr3, Hr2. exact Hs1.
  - rewrite Hc8, Hc7, Hc6, Hc5, Hc4, Hc3, Hc2, Hc1.
    rewrite <- !app_assoc. reflexivity.
  - repeat (apply Forall_app; split; [assumption|]).
    repeat constructor.
Qed.

(** When the upgrade script is installed, a real attempt that has passed
    the pre-upgrade checks does nothing but run the script: none of the
    built-in steps (backup, download, verification, stop, replacement,
    start, rollback) is entered.  The attempt succeeds exactly when the
    script exits with status zero; otherwise the record carries the error
    text, which is the script's standard error (or a fixed text when it is
    empty), or the text for a timeout or for a failure to run it.  The end
    time is recorded in both cases, a backup path in neither. *)
Theorem native_script_is_the_whole_upgrade
    (component : string) (target_version : Watcher.Version)
    (st0 s1 s2 s3 : state W) :
  begin_attempt component target_version false st0 = (Ok tt, s1) ->
  _pre_upgrade_checks component s1 = (Ok true, s2) ->
  call (PathExists UPGRADE_SCRIPT) s2 = (Ok true, s3) ->
  let script := [UPGRADE_SCRIPT; "upgrade"; component; Watcher.version target_version] in
  let answer := fst (host_answer _ (Run script) (world s3)) in
  let '(result, st') := perform_upgrade config component target_version false st0 in
  exists record,
    upgrade_history st' = upgrade_history st0 ++ [record] /\
    calls st' = calls s3 ++ [ Called M_run_native_upgrade; Host (Run script);
                              Host Now; Host (DumpHistory (upgrade_history st')) ] /\
    backup_path record = None /\
    end_time record <> None /\
    error record = script_error answer /\
    match script_error answer with
    | None =>
        result = Ok (true, ("Successfully upgraded " ++ component ++ " to "
                            ++ Watcher.version target_version)%string) /\
        success record = true
    | Some text =>
        result = Ok (false, ("Upgrade failed: " ++ text)%string) /\
        success record = false
    end.
Proof.
  intros Hbegin Hpre Hscript. cbv zeta.
  destruct (begin_attempt_spec component target_version false st0)
    as (vs & t0 & w1 & Hb).
  rewrite Hb in Hbegin. injection Hbegin as <-.
  destruct (pre_upgrade_checks_spec component
              (mkState w1 (calls st0 ++ [Host GetCurrentVersions; Host Now])
                 (upgrade_history st0)
                 (mkRecord component (get_or vs component "unknown")
                    (Watcher.version target_version) t0 false false None None None)))
    as (r & w2 & Hp).
  rewrite Hp in Hpre. injection Hpre as -> <-.
  assert (Hs3 : exists w3,
             s3 = mkState w3
                    ((calls st0 ++ [Host GetCurrentVersions; Host Now])
                     ++ [Called M_pre_upgrade_checks; Host CheckAll]
                     ++ [Host (PathExists UPGRADE_SCRIPT)])
                    (upgrade_history st0)
                    (mkRecord component (get_or vs component "unknown")
                       (Watcher.version target_version) t0 false false
                       None None None)).
  { revert Hscript. unfold call. cbn [world calls upgrade_history upgrade_record].
    destruct (host_answer _ (PathExists UPGRADE_SCRIPT) w2) as [b w3].
    intros [= _ <-]. exists w3. now rewrite <- app_assoc. }
  destruct Hs3 as (w3 & ->). cbn [world calls].
  unfold perform_upgrade.
  rewrite (bind_ok _ _ _ _ _ Hb).
  unfold try_finally, try_except at 1.
  rewrite (bind_ok _ _ _ _ _ Hp). cbn [negb].
  rewrite (bind_ok _ _ _ _ _ Hscript).
  unfold _run_native_upgrade, enter, try_except, call_r, bind, call, lift, log,
    update_record, modify, with_record, throw, ret.
  cbn [world calls upgrade_history upgrade_record].
  destruct (host_answer _ (Run [UPGRADE_SCRIPT; "upgrade"; component;
                                Watcher.version target_version]) w3)
    as [[p|e] w4]; cbn [fst script_error].
  - destruct (returncode p =? 0); cbn [world calls upgrade_history upgrade_record].
    + destruct (host_answer _ Now w4) as [t w5].
      cbn [world calls upgrade_history upgrade_record append_record modify
           _save_upgrade_history bind get call fst snd].
      unfold append_record, _save_upgrade_history, modify, get, bind, call.
      cbn [world calls upgrade_history upgrade_record].
      destruct (host_answer _ (DumpHistory _) w5) as [d w6].
      cbn [upgrade_history calls].
      eexists. split; [reflexivity|]. split; [now rewrite <- !app_assoc|].
      repeat split; try reflexivity. discriminate.
    + cbn [raise exn_str].
      destruct (host_answer _ Now w4) as [t w5].
      unfold append_record, _save_upgrade_history, modify, get, bind, call.
      cbn [world calls upgrade_history upgrade_record].
      destruct (host_answer _ (DumpHistory _) w5) as [d w6].
      cbn [upgrade_history calls].
      eexists. split; [reflexivity|]. split; [now rewrite <- !app_assoc|].
      repeat split; try reflexivity. discriminate.
  - destruct (exn_cls e); cbn [raise exn_str world calls upgrade_history upgrade_record];
      destruct (host_answer _ Now w4) as [t w5];
      unfold append_record, _save_upgrade_history, modify, get, bind, call;
      cbn [world calls upgrade_history upgrade_record];
      destruct (host_answer _ (DumpHistory _) w5) as [d w6];
      cbn [upgrade_history calls];
      (eexists; split; [reflexivity|]; split; [now rewrite <- !app_assoc|];
       repeat split; try reflexivity; discriminate).
Qed.

(** *** What the attempt returns and what it records *)

#[local] Abbreviation hoare := (Runner.hoare (W:=W)).

Lemma hoare_bind {A B} P (m : M (state W) A) (k : A -> M (state W) B) Q1 Q E :
  hoare P m Q1 E -> (forall a, hoare (Q1 a) (k a) Q E) -> hoare P (bind m k) Q E.
Proof.
  intros Hm Hk st HP. unfold bind. specialize (Hm st HP).
  destruct (m st) as [[a|e] st1]; [|exact Hm]. now apply Hk.
Qed.

Lemma hoare_try_except {A} P (m : M (state W) A) h Q E1 E :
  hoare P m Q E1 -> (forall e, hoare (E1 e) (h e) Q E) ->
  hoare P (try_except m h) Q E.
Proof.
  intros Hm Hh st HP. unfold try_except. specialize (Hm st HP).
  destruct (m st) as [[a|e] st1]; [exact Hm|]. now apply Hh.
Qed.

Lemma hoare_io {A} (P0 : event -> Prop) P (m : M (state W) A) E :
  io P0 m -> (forall e r, P r -> E e r) -> hoare P m (fun _ => P) E.
Proof.
  intros Hio HE st HP. destruct (Hio st) as (_ & Hr & _).
  destruct (m st) as [[a|e] st1]; cbn [snd] in Hr; rewrite Hr; auto.
Qed.

Lemma hoare_update_record f P (Q : unit -> UpgradeRecord -> Prop) E :
  (forall r, P r -> Q tt (f r)) -> hoare P (update_record f) Q E.
Proof. intros H st HP. cbn. now apply H. Qed.

Lemma hoare_ret {A} (a : A) P (Q : A -> UpgradeRecord -> Prop) E :
  (forall r, P r -> Q a r) -> hoare P (ret a : M (state W) A) Q E.
Proof. intros H st HP. cbn. now apply H. Qed.

Lemma hoare_throw {A} c msg P (Q : A -> UpgradeRecord -> Prop)
    (E : exn -> UpgradeRecord -> Prop) :
  (forall r, P r -> E (mkExn c msg) r) ->
  hoare P (throw c msg : M (state W) A) Q E.
Proof. intros H st HP. cbn. now apply H. Qed.

Lemma hoare_rollback c backup P E :
  hoare P (_rollback config c backup) (fun _ => P) E.
Proof.
  intros st HP.
  destruct (rollback_spec c backup st) as (b & new & Hok & _ & Hr & _).
  destruct (_rollback config c backup st) as [[b'|e] st1]; cbn [fst snd] in *;
    [now rewrite Hr|discriminate].
Qed.

Lemma any_event_host R (o : op R) : any_event (Host o).
Proof. exact I. Qed.

(** A step that leaves the record alone keeps the attempt unfinished. *)
Ltac quiet_step :=
  apply hoare_bind with (Q1 := fun _ => unfinished);
  [ first
      [ apply (hoare_io any_event);
        [ first [ apply io_pre_upgrade_checks | apply io_create_backup
                | apply io_download_binary | apply io_verify_binary
                | apply io_stop_service | apply io_replace_binary
                | apply io_start_service | apply io_post_upgrade_verification
                | apply io_run_native_upgrade | apply io_call ];
          try (intros; exact I)
        | auto ]
      | apply hoare_rollback
      | apply hoare_update_record; intros r (? & ? & ?); now repeat split ]
  | intros ? ].

(** The statements that close a successful real attempt. *)
Lemma hoare_close_success (dry : bool) msg :
  hoare unfinished
    (bind (update_record (set_success true))
       (fun _ => bind (call Now)
       (fun t => bind (update_record (set_end_time t))
       (fun _ => ret (true, msg)))))
    (agrees dry) (fun _ => unfinished).
Proof.
  intros st (Hs & He & Ht). rewrite bind_update_record.
  unfold bind, call, update_record, modify, with_record, ret.
  cbn [world calls upgrade_history upgrade_record].
  destruct (host_answer _ Now (world st)) as [t w]. cbn [upgrade_record].
  unfold agrees. cbn [fst snd success error end_time set_end_time set_success].
  rewrite He. repeat split; discriminate.
Qed.

Lemma unfinished_agrees dry msg r : unfinished r -> agrees dry (false, msg) r.
Proof.
  intros (Hs & He & Ht). unfold agrees. cbn [fst snd]. rewrite He.
  repeat split; try assumption; discriminate.
Qed.

Lemma hoare_perform_legacy_upgrade c v :
  hoare unfinished (_perform_legacy_upgrade config c v)
    (agrees false) (fun _ _ => False).
Proof.
  unfold _perform_legacy_upgrade.
  apply hoare_try_except with (E1 := fun _ => unfinished).
  2:{ intros e. apply hoare_ret. intros r. apply unfinished_agrees. }
  do 3 quiet_step.
  match goal with |- hoare _ (match ?x with _ => _ end) _ _ => destruct x end;
    [|now apply hoare_throw].
  quiet_step.
  match goal with |- hoare _ (if negb ?b then _ else _) _ _ => destruct b end;
    cbn [negb]; [|now apply hoare_throw].
  quiet_step.
  match goal with |- hoare _ (if negb ?b then _ else _) _ _ => destruct b end;
    cbn [negb]; [|now apply hoare_throw].
  quiet_step.
  match goal with |- hoare _ (if negb ?b then _ else _) _ _ => destruct b end;
    cbn [negb]; [|now apply hoare_throw].
  quiet_step.
  match goal with |- hoare _ (if negb ?b then _ else _) _ _ => destruct b end;
    cbn [negb]; [|quiet_step; now apply hoare_throw].
  quiet_step.
  match goal with |- hoare _ (if negb ?b then _ else _) _ _ => destruct b end;
    cbn [negb]; [|quiet_step; now apply hoare_throw].
  apply hoare_close_success.
Qed.

Lemma hoare_perform_upgrade_body c v (dry : bool) :
  hoare unfinished
    (passed <- _pre_upgrade_checks c ;;
     if negb passed then throw Exception "Pre-upgrade checks failed"
     else if dry then
       update_record (set_success true) ;;
       ret (true, "Dry run completed successfully")
     else
       native <- call (PathExists UPGRADE_SCRIPT) ;;
       if native : bool then
         '(success, message) <- _run_native_upgrade c (Watcher.version v) ;;
         if success : bool then
           update_record (set_success true) ;;
           t <- call Now ;;
           update_record (set_end_time t) ;;
           ret (true,
                ("Successfully upgraded " ++ c ++ " to "
                 ++ Watcher.version v)%string)
         else throw Exception message
       else _perform_legacy_upgrade config c v)%stmt
    (agrees dry) (fun _ => unfinished).
Proof.
  quiet_step.
  match goal with |- hoare _ (if negb ?b then _ else _) _ _ => destruct b end;
    cbn [negb]; [|now apply hoare_throw].
  destruct dry.
  - intros st (Hs & He & Ht). cbn. unfold agrees.
    cbn [fst snd success error end_time set_success]. rewrite He.
    repeat split; discriminate.
  - quiet_step.
    match goal with |- hoare _ (if ?b then _ else _) _ _ => destruct b end.
    + quiet_step.
      match goal with |- hoare _ (match ?x with _ => _ end) _ _ =>
        destruct x as [[|] message]
      end; [apply hoare_close_success|now apply hoare_throw].
    + intros st Hst.
      pose proof (hoare_perform_legacy_upgrade c v st Hst) as H.
      destruct (_perform_legacy_upgrade config c v st) as [[a|e] st1];
        [exact H|destruct H].
Qed.

(** Whatever happens, what [perform_upgrade] returns agrees with the one
    record it appends: the flag returned is the record's [success]; a
    successful real attempt has its end time recorded; and a record that
    carries an error text belongs to a failed attempt, has its end time, and
    its text is the one the returned message reports. *)
Theorem perform_upgrade_returns_what_it_records
    (component : string) (target_version : Watcher.Version) (dry : bool)
    (st0 : state W) :
  exists returned st' record,
    perform_upgrade config component target_version dry st0 = (Ok returned, st') /\
    upgrade_history st' = upgrade_history st0 ++ [record] /\
    agrees dry returned record.
Proof.
  unfold perform_upgrade.
  destruct (begin_attempt_spec component target_version dry st0)
    as (vs & t0 & w1 & Hb).
  rewrite (bind_ok _ _ _ _ _ Hb). unfold try_finally.
  match goal with
  | |- context [try_except ?body ?handler ?s] =>
      pose proof (hoare_perform_upgrade_body component target_version dry s) as Hrec;
      pose proof (logs_perform_upgrade_body component target_version dry s)
        as (Hh & _ & _);
      unfold try_except; destruct (body s) as [[returned|e] s2]
  end; cbn [snd upgrade_history upgrade_record] in Hh, Hrec;
    specialize (Hrec ltac:(now repeat split)).
  - destruct (finish_spec s2) as (w4 & Hf). rewrite Hf.
    exists returned. eexists. exists (upgrade_record s2).
    split; [reflexivity|]. cbn [upgrade_history]. rewrite Hh. now split.
  - cbv beta iota.
    destruct (abort_spec e s2) as (t & w3 & Habort). rewrite Habort.
    match goal with
    | |- context [bind append_record _ ?s] =>
        destruct (finish_spec s) as (w4 & Hf); rewrite Hf
    end.
    do 3 eexists. split; [reflexivity|]. cbn [upgrade_history upgrade_record].
    rewrite Hh. split; [reflexivity|].
    unfold agrees.
    cbn [fst snd success error end_time set_end_time set_error set_success].
    split; [reflexivity|]. split; [discriminate|].
    intros text [= <-]. repeat split. discriminate.
Qed.

(** *** Rollbacks in any attempt *)

Lemma at_most_io {A} n (m : M (state W) A) :
  io not_rollback m -> rolls_back_at_most n m.
Proof.
  intros H st. destruct (H st) as (_ & _ & new & Hc & Hn).
  exists new. split; [exact Hc|]. rewrite (rollback_attempts_none _ Hn). lia.
Qed.

Lemma at_most_update_record n (f : UpgradeRecord -> UpgradeRecord) :
  rolls_back_at_most n (update_record f : M (state W) unit).
Proof.
  intros st. exists []. cbn. split; [now rewrite app_nil_r|lia].
Qed.

Lemma at_most_bind {A B} n (m : M (state W) A) (k : A -> M (state W) B) :
  rolls_back_at_most 0 m -> (forall a, rolls_back_at_most n (k a)) ->
  rolls_back_at_most n (bind m k).
Proof.
  intros Hm Hk st. unfold bind. destruct (Hm st) as (new & Hc & Hn).
  destruct (m st) as [[a|e] st1]; cbn [snd] in *.
  - destruct (Hk a st1) as (new' & Hc' & Hn'). exists (new ++ new').
    split; [rewrite Hc', Hc; now rewrite app_assoc|].
    rewrite rollback_attempts_app. lia.
  - exists new. split; [exact Hc|lia].
Qed.

Lemma at_most_then_quiet {A B} n (m : M (state W) A) (k : A -> M (state W) B) :
  rolls_back_at_most n m -> (forall a, rolls_back_at_most 0 (k a)) ->
  rolls_back_at_most n (bind m k).
Proof.
  intros Hm Hk st. unfold bind. destruct (Hm st) as (new & Hc & Hn).
  destruct (m st) as [[a|e] st1]; cbn [snd] in *.
  - destruct (Hk a st1) as (new' & Hc' & Hn'). exists (new ++ new').
    split; [rewrite Hc', Hc; now rewrite app_assoc|].
    rewrite rollback_attempts_app. lia.
  - exists new. split; [exact Hc|lia].
Qed.

Lemma at_most_try_except {A} n (m : M (state W) A) h :
  rolls_back_at_most n m -> (forall e, rolls_back_at_most 0 (h e)) ->
  rolls_back_at_most n (try_except m h).
Proof.
  intros Hm Hh st. unfold try_except. destruct (Hm st) as (new & Hc & Hn).
  destruct (m st) as [[a|e] st1]; cbn [snd] in *.
  - exists new. split; [exact Hc|lia].
  - destruct (Hh e st1) as (new' & Hc' & Hn'). exists (new ++ new').
    split; [rewrite Hc', Hc; now rewrite app_assoc|].
    rewrite rollback_attempts_app. lia.
Qed.

Lemma at_most_try_finally {A} n (m : M (state W) A) f :
  rolls_back_at_most n m -> rolls_back_at_most 0 f ->
  rolls_back_at_most n (try_finally m f).
Proof.
  intros Hm Hf st. unfold try_finally. destruct (Hm st) as (new & Hc & Hn).
  destruct (m st) as [r st1]; cbn [snd] in *.
  destruct (Hf st1) as (new' & Hc' & Hn').
  exists (new ++ new'). split.
  - destruct (f st1) as [[u|e] st2]; cbn [snd] in *;
      rewrite Hc', Hc; now rewrite app_assoc.
  - rewrite rollback_attempts_app. lia.
Qed.

Lemma at_most_rollback c backup :
  rolls_back_at_most 1 (_rollback config c backup).
Proof.
  intros st.
  destruct (rollback_spec c backup st) as (b & new & _ & _ & _ & Hc & Hn).
  exists (Called M_rollback :: new). split; [exact Hc|].
  change (rollback_attempts (Called M_rollback :: new))
    with (S (rollback_attempts new)).
  rewrite (rollback_attempts_none _ Hn). lia.
Qed.

Lemma at_most_finish n :
  rolls_back_at_most n
    (bind append_record (fun _ => _save_upgrade_history) : M (state W) unit).
Proof.
  intros st. destruct (finish_spec st) as (w & ->). cbn [snd calls].
  eexists. split; [reflexivity|]. cbn. lia.
Qed.

Lemma not_rollback_called m : m <> M_rollback -> not_rollback (Called m).
Proof. destruct m; intros H; try reflexivity. congruence. Qed.

(** A step that never enters [_rollback]. *)
Ltac at_most_leaf :=
  apply at_most_io;
  first [ apply io_pre_upgrade_checks | apply io_create_backup
        | apply io_download_binary | apply io_verify_binary
        | apply io_stop_service | apply io_replace_binary
        | apply io_start_service | apply io_post_upgrade_verification
        | apply io_run_native_upgrade
        | io_tac ];
  try apply not_rollback_host;
  try (apply not_rollback_called; discriminate);
  try reflexivity.

Ltac at_most_with known :=
  repeat
    lazymatch goal with
    | |- Runner.rolls_back_at_most _ (bind (_rollback _ _ _) _) =>
        apply at_most_then_quiet; [apply at_most_rollback|intros ?]
    | |- Runner.rolls_back_at_most _ (bind _ _) => apply at_most_bind; [|intros ?]
    | |- Runner.rolls_back_at_most _ (try_except _ _) =>
        apply at_most_try_except; [|intros ?]
    | |- Runner.rolls_back_at_most _ (update_record _) => apply at_most_update_record
    | |- Runner.rolls_back_at_most _ (if ?b then _ else _) => destruct b
    | |- Runner.rolls_back_at_most _ (match ?x with _ => _ end) => destruct x
    | |- _ => first [ progress cbv zeta | known | at_most_leaf ]
    end.

Lemma at_most_perform_legacy_upgrade c v :
  rolls_back_at_most 1 (_perform_legacy_upgrade config c v).
Proof. unfold _perform_legacy_upgrade. at_most_with fail. Qed.

(** No attempt rolls back twice: whatever the host answers, on every path
    through [perform_upgrade], [_rollback] is entered at most once. *)
Theorem at_most_one_rollback
    (component : string) (target_version : Watcher.Version) (dry : bool)
    (st0 : state W) :
  exists new,
    calls (snd (perform_upgrade config component target_version dry st0))
    = calls st0 ++ new /\
    (rollback_attempts new <= 1)%nat.
Proof.
  revert st0.
  change (rolls_back_at_most 1
            (perform_upgrade config component target_version dry)).
  unfold perform_upgrade.
  apply at_most_bind; [unfold begin_attempt; at_most_with fail|intros _].
  apply at_most_try_finally; [|apply at_most_finish].
  at_most_with ltac:(apply at_most_perform_legacy_upgrade).
Qed.

End OnAnyHost.

(** *** On the scripted host *)

Lemma C3_start_failure_witness :
  let '(result, st') :=
    perform_upgrade node_config "story" v1_1_0 false (fresh start_fails) in
  result = Ok (false, "Failed to start service after upgrade") /\
  exists record new,
    upgrade_history st' = upgrade_history (fresh start_fails) ++ [record] /\
    success record = false /\
    calls st' = calls (fresh start_fails) ++ new /\
    rollback_attempts new = 1%nat.
Proof.
  apply (C3_start_failure_rolls_back_once node_config "story" v1_1_0
           (fresh start_fails)).
  unfold start_fails_after_replace.
  do 11 eexists.
  repeat (split; [lazy; reflexivity|]). lazy; reflexivity.
Defined.

Lemma C5_failed_checks_witness :
  let '(result, st') :=
    perform_upgrade node_config "story" v1_1_0 false (fresh unfit) in
  (exists msg, result = Ok (false, ("Upgrade failed: " ++ msg)%string)) /\
  exists record,
    upgrade_history st' = upgrade_history (fresh unfit) ++ [record] /\
    success record = false /\
    backup_path record = None /\
    calls st' =
    calls (fresh unfit) ++ [ Host GetCurrentVersions; Host Now;
                             Called M_pre_upgrade_checks; Host CheckAll;
                             Host Now; Host (DumpHistory (upgrade_history st')) ] /\
    Forall harmless
      [ Host GetCurrentVersions; Host Now;
        Called M_pre_upgrade_checks; Host CheckAll;
        Host Now; Host (DumpHistory (upgrade_history st')) ].
Proof.
  apply (C5_failed_checks_abort_before_mutation node_config "story" v1_1_0 false
           (fresh unfit)).
  vm_compute. discriminate.
Defined.

(** C4, as stated, fails: a dry run on a host whose system report is
    unhealthy stops at the pre-upgrade checks and records
    [success = false]. *)
Lemma C4_unfit_dry_run_counterexample :
  exists result st' record,
    perform_upgrade node_config "story" v1_1_0 true (fresh unfit) = (result, st') /\
    upgrade_history st' = [record] /\
    dry_run record = true /\
    success record = false.
Proof.
  do 3 eexists. split; [vm_compute; reflexivity|].
  split; [reflexivity|]. split; reflexivity.
Qed.

(** C1 holds in part.  On every host, every call of [perform_upgrade]
    returns, appends exactly one record, the one of this attempt, to the
    history and then writes the history out.  The record does not always
    carry what the claim says, on two paths.  When a step of the built-in
    upgrade fails (here the download), [_perform_legacy_upgrade] turns the
    exception into its return value, so the handler of [perform_upgrade]
    never runs: the one record appended says [success = false] and carries
    neither the error text nor an end time.  A successful dry run returns
    before the end time is set. *)
Theorem C1_record_lacks_error_and_end_time :
  (forall (W : Type) (host : HostModel W) (config : Config)
          (component : string) (target_version : Watcher.Version)
          (dry : bool) (st0 : state W),
      exists ok msg st' record new,
        perform_upgrade config component target_version dry st0
        = (Ok (ok, msg), st') /\
        upgrade_history st' = upgrade_history st0 ++ [record] /\
        Runner.component record = component /\
        to_version record = Watcher.version target_version /\
        dry_run record = dry /\
        calls st' = calls st0 ++ new ++ [Host (DumpHistory (upgrade_history st'))]) /\
  (exists st' record,
      perform_upgrade node_config "story" v1_1_0 false (fresh download_fails)
      = (Ok (false, "Failed to download binary"), st') /\
      upgrade_history st' = [record] /\
      success record = false /\
      error record = None /\
      end_time record = None) /\
  (exists st' record,
      perform_upgrade node_config "story" v1_1_0 true (fresh fit)
      = (Ok (true, "Dry run completed successfully"), st') /\
      upgrade_history st' = [record] /\
      success record = true /\
      end_time record = None).
Proof.
  split; [intros; apply perform_upgrade_appends_one_record|].
  split; do 2 eexists; (split; [vm_compute; reflexivity|]);
    repeat split; reflexivity.
Qed.

Lemma verification_failure_witness :
  let '(result, st') :=
    perform_upgrade node_config "story" v1_1_0 false (fresh fit) in
  result = Ok (false, "Post-upgrade verification failed") /\
  exists record new,
    upgrade_history st' = upgrade_history (fresh fit) ++ [record] /\
    success record = false /\
    calls st' = calls (fresh fit) ++ new /\
    rollback_attempts new = 1%nat.
Proof.
  apply (verification_failure_rolls_back_once node_config "story" v1_1_0
           (fresh fit)).
  unfold verification_fails_after_start.
  do 12 eexists.
  repeat (split; [lazy; reflexivity|]). lazy; reflexivity.
Defined.

Lemma replace_failure_witness :
  let '(result, st') :=
    perform_upgrade node_config "story" v1_1_0 false (fresh_read_only fit) in
  result = Ok (false, "Failed to replace binary") /\
  exists record new,
    upgrade_history st' = upgrade_history (fresh_read_only fit) ++ [record] /\
    success record = false /\
    calls st' = calls (fresh_read_only fit) ++ new /\
    Forall keeps_service_down new.
Proof.
  apply (replace_failure_leaves_service_down node_config "story" v1_1_0
           (fresh_read_only fit)).
  unfold replace_fails_after_stop.
  do 10 eexists.
  repeat (split; [lazy; reflexivity|]). lazy; reflexivity.
Defined.

Lemma native_script_witness :
  let '(result, st') :=
    perform_upgrade node_config "story" v1_1_0 false (fresh with_script) in
  exists record,
    upgrade_history st' = upgrade_history (fresh with_script) ++ [record] /\
    calls st' =
    [ Host GetCurrentVersions; Host Now; Called M_pre_upgrade_checks;
      Host CheckAll; Host (PathExists UPGRADE_SCRIPT) ]
    ++ [ Called M_run_native_upgrade;
         Host (Run [UPGRADE_SCRIPT; "upgrade"; "story"; "1.1.0"]);
         Host Now; Host (DumpHistory (upgrade_history st')) ] /\
    backup_path record = None /\
    end_time record <> None /\
    error record = None /\
    result = Ok (true, "Successfully upgraded story to 1.1.0") /\
    success record = true.
Proof.
  exact (native_script_is_the_whole_upgrade node_config "story" v1_1_0
           (fresh with_script)
           (snd (begin_attempt "story" v1_1_0 false (fresh with_script)))
           (snd (_pre_upgrade_checks "story"
                   (snd (begin_attempt "story" v1_1_0 false (fresh with_script)))))
           (snd (call (PathExists UPGRADE_SCRIPT)
                   (snd (_pre_upgrade_checks "story"
                           (snd (begin_attempt "story" v1_1_0 false
                                   (fresh with_script)))))))
           eq_refl eq_refl eq_refl).
Defined.

End RunnerProps.

(* ================================================================= *)
(** ** The queue of the scheduler *)

Module QueueProps.
Import Py Scheduler DatetimeFacts Examples.

Lemma scheduled_upgrades_save io_ok l f :
  scheduled_upgrades (save_schedule io_ok (mkScheduler l f)) = l.
Proof. unfold save_schedule. now destruct io_ok. Qed.

Lemma Forall2_advances_refl l : Forall2 advances l l.
Proof. induction l; constructor; [now left|assumption]. Qed.

Lemma update_at_advances n f l u :
  nth_error l n = Some u -> advances u (f u) ->
  Forall2 advances l (update_at n f l).
Proof.
  revert n; induction l as [|x l IH]; intros [|n] Hn Ha; simpl in *;
    try discriminate.
  - injection Hn as ->. constructor; [assumption|apply Forall2_advances_refl].
  - constructor; [now left|now apply IH].
Qed.

Lemma mark_first_advances comp version l l' :
  mark_first comp version l = Some l' -> Forall2 advances l l'.
Proof.
  revert l'; induction l as [|x l IH]; intros l'; simpl; [discriminate|].
  destruct (_ && _) eqn:Hm.
  - intros [= <-]. constructor; [|apply Forall2_advances_refl].
    right; right; right. split; [|reflexivity].
    apply andb_prop in Hm as [_ Hm]. now apply String.eqb_eq.
  - destruct (mark_first comp version l) as [l1|]; simpl; [|discriminate].
    intros [= <-]. constructor; [now left|now apply IH].
Qed.

(** Whatever the index, the component and the version are, approving,
    cancelling and marking as completed leave the queue with the same
    entries in the same order, each either untouched or moved one step along
    pending -> approved -> completed or pending/approved -> cancelled.  In
    particular a completed or cancelled entry never changes again, and no
    field other than the status is ever written. *)
Theorem status_only_advances
    (self : UpgradeScheduler) (io_ok : bool) (i : Z) (comp version : string) :
  Forall2 advances (scheduled_upgrades self)
    (scheduled_upgrades (snd (approve_upgrade self io_ok i))) /\
  Forall2 advances (scheduled_upgrades self)
    (scheduled_upgrades (snd (cancel_upgrade self io_ok i))) /\
  Forall2 advances (scheduled_upgrades self)
    (scheduled_upgrades (mark_completed self io_ok comp version)) /\
  (forall u u', advances u u' ->
     (is_open u = false -> u' = u) /\
     component u' = component u /\
     current_version u' = current_version u /\
     target_version u' = target_version u /\
     scheduled_time u' = scheduled_time u /\
     estimated_duration u' = estimated_duration u /\
     approval_required u' = approval_required u /\
     notes u' = notes u).
Proof.
  repeat split.
  - unfold approve_upgrade.
    destruct (_ && _); [|apply Forall2_advances_refl].
    destruct (nth_error _ _) as [u|] eqn:Hn; [|apply Forall2_advances_refl].
    destruct (String.eqb_spec (status u) "pending") as [Hs|_];
      [|apply Forall2_advances_refl].
    cbn [snd]. rewrite scheduled_upgrades_save.
    apply update_at_advances with u; [exact Hn|]. right; left. now split.
  - unfold cancel_upgrade.
    destruct (_ && _); [|apply Forall2_advances_refl].
    destruct (nth_error _ _) as [u|] eqn:Hn; [|apply Forall2_advances_refl].
    destruct (is_open u) eqn:Ho; [|apply Forall2_advances_refl].
    cbn [snd]. rewrite scheduled_upgrades_save.
    apply update_at_advances with u; [exact Hn|]. right; right; left. now split.
  - unfold mark_completed.
    destruct (mark_first _ _ _) as [l|] eqn:Hm; [|apply Forall2_advances_refl].
    rewrite scheduled_upgrades_save. now apply mark_first_advances with comp version.
  - intros Ho. destruct H as [->|[[Hs ->]|[[Hs ->]|[Hs ->]]]]; try reflexivity;
      exfalso; unfold is_open in *; try rewrite Hs in Ho; try congruence;
      discriminate.
  - destruct H as [->|[[_ ->]|[[_ ->]|[_ ->]]]]; reflexivity.
  - destruct H as [->|[[_ ->]|[[_ ->]|[_ ->]]]]; reflexivity.
  - destruct H as [->|[[_ ->]|[[_ ->]|[_ ->]]]]; reflexivity.
  - destruct H as [->|[[_ ->]|[[_ ->]|[_ ->]]]]; reflexivity.
  - destruct H as [->|[[_ ->]|[[_ ->]|[_ ->]]]]; reflexivity.
  - destruct H as [->|[[_ ->]|[[_ ->]|[_ ->]]]]; reflexivity.
  - destruct H as [->|[[_ ->]|[[_ ->]|[_ ->]]]]; reflexivity.
Qed.

Lemma update_at_length n f l : List.length (update_at n f l) = List.length l.
Proof.
  revert n; induction l as [|x l IH]; intros [|n]; simpl; try reflexivity.
  now rewrite IH.
Qed.

Lemma nth_error_update_at n f l :
  nth_error (update_at n f l) n = option_map f (nth_error l n).
Proof.
  revert n; induction l as [|x l IH]; intros [|n]; simpl; try reflexivity.
  apply IH.
Qed.

Lemma save_schedule_queue io_ok self :
  scheduled_upgrades (save_schedule io_ok self) = scheduled_upgrades self.
Proof. unfold save_schedule. now destruct io_ok. Qed.

(** What a call does on an index that is in range. *)
Lemma approve_upgrade_at self io_ok i u :
  0 <= i -> nth_error (scheduled_upgrades self) (Z.to_nat i) = Some u ->
  approve_upgrade self io_ok i =
  if String.eqb (status u) "pending" then
    (true,
     save_schedule io_ok
       (mkScheduler
          (update_at (Z.to_nat i) (set_status "approved") (scheduled_upgrades self))
          (schedule_file self)))
  else (false, self).
Proof.
  intros Hi Hn. unfold approve_upgrade. rewrite Hn.
  assert (Hlen : (Z.to_nat i < List.length (scheduled_upgrades self))%nat)
    by (apply nth_error_Some; congruence).
  replace ((0 <=? i) && (i <? Z.of_nat (List.length (scheduled_upgrades self))))
    with true; [reflexivity|].
  symmetry. apply andb_true_intro. split; [apply Z.leb_le|apply Z.ltb_lt]; lia.
Qed.

Lemma cancel_upgrade_at self io_ok i u :
  0 <= i -> nth_error (scheduled_upgrades self) (Z.to_nat i) = Some u ->
  cancel_upgrade self io_ok i =
  if is_open u then
    (true,
     save_schedule io_ok
       (mkScheduler
          (update_at (Z.to_nat i) (set_status "cancelled") (scheduled_upgrades self))
          (schedule_file self)))
  else (false, self).
Proof.
  intros Hi Hn. unfold cancel_upgrade. rewrite Hn.
  assert (Hlen : (Z.to_nat i < List.length (scheduled_upgrades self))%nat)
    by (apply nth_error_Some; congruence).
  replace ((0 <=? i) && (i <? Z.of_nat (List.length (scheduled_upgrades self))))
    with true; [reflexivity|].
  symmetry. apply andb_true_intro. split; [apply Z.leb_le|apply Z.ltb_lt]; lia.
Qed.

Lemma approve_upgrade_true self io_ok i self' :
  approve_upgrade self io_ok i = (true, self') ->
  exists u,
    0 <= i /\
    nth_error (scheduled_upgrades self) (Z.to_nat i) = Some u /\
    status u = "pending" /\
    scheduled_upgrades self' =
    update_at (Z.to_nat i) (set_status "approved") (scheduled_upgrades self).
Proof.
  unfold approve_upgrade.
  destruct (0 <=? i) eqn:H0; [|discriminate]. cbn [andb].
  destruct (i <? _); [|discriminate].
  destruct (nth_error _ _) as [u|] eqn:Hn; [|discriminate].
  destruct (String.eqb_spec (status u) "pending") as [Hs|]; [|discriminate].
  intros [= <-]. exists u. rewrite scheduled_upgrades_save.
  repeat split; try assumption. now apply Z.leb_le.
Qed.

(** Once an entry has been approved, approving it again is refused and
    changes nothing; cancelling it succeeds and leaves it cancelled, after
    which approving and cancelling it are both refused. *)
Theorem approve_then_cancel
    (self self1 : UpgradeScheduler) (io1 io2 io3 : bool) (i : Z) :
  approve_upgrade self io1 i = (true, self1) ->
  approve_upgrade self1 io2 i = (false, self1) /\
  exists self2 u,
    cancel_upgrade self1 io2 i = (true, self2) /\
    nth_error (scheduled_upgrades self2) (Z.to_nat i) = Some u /\
    status u = "cancelled" /\
    approve_upgrade self2 io3 i = (false, self2) /\
    cancel_upgrade self2 io3 i = (false, self2).
Proof.
  intros H. apply approve_upgrade_true in H as (u & Hi & Hn & Hs & Hq).
  assert (Hn1 : nth_error (scheduled_upgrades self1) (Z.to_nat i)
                = Some (set_status "approved" u))
    by (rewrite Hq, nth_error_update_at, Hn; reflexivity).
  split; [now rewrite (approve_upgrade_at _ _ _ _ Hi Hn1)|].
  rewrite (cancel_upgrade_at _ _ _ _ Hi Hn1). cbn [is_open set_status status].
  eexists. exists (set_status "cancelled" (set_status "approved" u)).
  split; [reflexivity|].
  assert (Hn2 : forall f,
             nth_error
               (scheduled_upgrades
                  (save_schedule io2
                     (mkScheduler
                        (update_at (Z.to_nat i) (set_status "cancelled")
                           (scheduled_upgrades self1)) f))) (Z.to_nat i)
             = Some (set_status "cancelled" (set_status "approved" u)))
    by (intros; rewrite scheduled_upgrades_save, nth_error_update_at, Hn1;
        reflexivity).
  split; [apply Hn2|]. split; [reflexivity|].
  split.
  - now rewrite (approve_upgrade_at _ _ _ _ Hi (Hn2 _)).
  - now rewrite (cancel_upgrade_at _ _ _ _ Hi (Hn2 _)).
Qed.

Lemma approve_then_cancel_witness :
  approve_upgrade (snd (approve_upgrade one_at_0200 true 0)) true 0
  = (false, snd (approve_upgrade one_at_0200 true 0)) /\
  exists self2 u,
    cancel_upgrade (snd (approve_upgrade one_at_0200 true 0)) true 0 = (true, self2) /\
    nth_error (scheduled_upgrades self2) (Z.to_nat 0) = Some u /\
    status u = "cancelled" /\
    approve_upgrade self2 false 0 = (false, self2) /\
    cancel_upgrade self2 false 0 = (false, self2).
Proof.
  apply (approve_then_cancel one_at_0200 _ true true false 0). reflexivity.
Defined.

(** *** Naive and aware times in one queue *)

Lemma dt_le_raises a b :
  comparable a b = false ->
  exists e, dt_le a b = Raise e /\ exn_cls e = TypeError.
Proof.
  intros H. unfold dt_le, dt_compare. rewrite H. eexists. split; reflexivity.
Qed.

Lemma dt_gt_raises a b :
  comparable a b = false ->
  exists e, dt_gt a b = Raise e /\ exn_cls e = TypeError.
Proof.
  intros H. unfold dt_gt, dt_compare. rewrite H. eexists. split; reflexivity.
Qed.

Lemma dt_le_naive a b :
  dt_off a = None -> dt_off b = None ->
  dt_le a b = Ok (dt_utc a <=? dt_utc b).
Proof.
  intros Ha Hb. unfold dt_le, dt_compare, comparable. rewrite Ha, Hb.
  cbn [rbind]. unfold Z.leb. now destruct (_ ?= _).
Qed.

Lemma dt_add_raises d t e :
  dt_add d t = Raise e -> exn_cls e = OverflowError.
Proof.
  unfold dt_add. destruct (dt_in_range _); [discriminate|]. now intros [= <-].
Qed.

Lemma mk_timedelta_raises d h m s e :
  mk_timedelta d h m s = Raise e -> exn_cls e = OverflowError.
Proof.
  unfold mk_timedelta. destruct (_ <? _); [|discriminate]. now intros [= <-].
Qed.

Lemma comparable_aware_naive a b :
  dt_off a <> None -> dt_off b = None -> comparable a b = false.
Proof. unfold comparable. intros Ha ->. now destruct (dt_off a). Qed.

Lemma comparable_naive_aware a b :
  dt_off a = None -> dt_off b <> None -> comparable a b = false.
Proof. unfold comparable. intros -> Hb. now destruct (dt_off b). Qed.

Lemma upcoming_naive cutoff l :
  dt_off cutoff = None ->
  (forall u, In u l -> is_open u = true -> dt_off (scheduled_time u) = None) ->
  upcoming cutoff l =
  Ok (filter (fun u => is_open u
                       && (dt_utc (scheduled_time u) <=? dt_utc cutoff)) l).
Proof.
  intros Hc. induction l as [|x l IH]; intros Hn; simpl; [reflexivity|].
  rewrite IH by (intros; apply Hn; [now right|assumption]).
  destruct (is_open x) eqn:Ho; simpl; [|reflexivity].
  rewrite dt_le_naive by (try apply Hn; try assumption; now left).
  reflexivity.
Qed.

Lemma upcoming_aware cutoff l u :
  dt_off cutoff = None ->
  In u l -> is_open u = true -> dt_off (scheduled_time u) <> None ->
  exists e, upcoming cutoff l = Raise e /\ exn_cls e = TypeError.
Proof.
  intros Hc Hin Ho Ha. induction l as [|x l IH]; [destruct Hin|]. simpl.
  destruct (is_open x) eqn:Hx.
  - destruct (dt_off (scheduled_time x)) as [off|] eqn:Hoff.
    + destruct (dt_le_raises (scheduled_time x) cutoff) as (e & -> & He).
      { apply comparable_aware_naive; [congruence|assumption]. }
      now exists e.
    + rewrite dt_le_naive by assumption. simpl.
      destruct Hin as [->|Hin]; [congruence|].
      destruct (IH Hin) as (e & -> & He). now exists e.
  - simpl. destruct Hin as [->|Hin]; [congruence|].
    destruct (IH Hin) as (e & -> & He). now exists e.
Qed.

(** With the naive clock [get_upcoming_upgrades] reads: when every pending
    or approved entry has a naive scheduled time, the result is the pending
    and approved entries scheduled up to [hours] from now, in queue order;
    a single pending or approved entry whose time carries an offset makes the
    call raise [TypeError]. *)
Theorem get_upcoming_upgrades_naive_clock
    (self : UpgradeScheduler) (now cutoff : datetime) (hours : Z) (td : timedelta) :
  dt_off now = None ->
  mk_timedelta 0 hours 0 0 = Ok td ->
  dt_add now td = Ok cutoff ->
  ((forall u, In u (scheduled_upgrades self) -> is_open u = true ->
              dt_off (scheduled_time u) = None) ->
   get_upcoming_upgrades self now hours =
   Ok (filter (fun u => is_open u
                        && (dt_utc (scheduled_time u) <=? dt_utc now + td))
              (scheduled_upgrades self))) /\
  (forall u, In u (scheduled_upgrades self) -> is_open u = true ->
             dt_off (scheduled_time u) <> None ->
             exists e, get_upcoming_upgrades self now hours = Raise e /\
                       exn_cls e = TypeError).
Proof.
  intros Hnow Htd Hcut. unfold get_upcoming_upgrades.
  rewrite Htd. cbn [rbind]. rewrite Hcut. cbn [rbind].
  assert (Hoff : dt_off cutoff = None)
    by (apply dt_add_ok in Hcut as [_ ->]; exact Hnow).
  split.
  - intros Hn. rewrite (upcoming_naive _ _ Hoff Hn).
    now rewrite (dt_add_utc _ _ _ Hcut).
  - intros u Hin Ho Ha. now apply upcoming_aware with u.
Qed.

Lemma get_upcoming_upgrades_witness :
  ((forall u, In u [old_pending; done_march_1] -> is_open u = true ->
              dt_off (scheduled_time u) = None) ->
   get_upcoming_upgrades (mkScheduler [old_pending; done_march_1] None)
     (naive 2024 3 31 0 0) 24 =
   Ok (filter (fun u => is_open u
                        && (dt_utc (scheduled_time u)
                            <=? dt_utc (naive 2024 3 31 0 0) + 24 * US_PER_HOUR))
              [old_pending; done_march_1])) /\
  (forall u, In u [old_pending; done_march_1] -> is_open u = true ->
             dt_off (scheduled_time u) <> None ->
             exists e,
               get_upcoming_upgrades (mkScheduler [old_pending; done_march_1] None)
                 (naive 2024 3 31 0 0) 24 = Raise e /\
               exn_cls e = TypeError).
Proof.
  apply (get_upcoming_upgrades_naive_clock
           (mkScheduler [old_pending; done_march_1] None)
           (naive 2024 3 31 0 0) (naive 2024 4 1 0 0) 24 (24 * US_PER_HOUR)).
  - reflexivity.
  - vm_compute. reflexivity.
  - vm_compute. reflexivity.
Defined.

Lemma resolve_conflicts_naive_entry l w u :
  dt_off w <> None ->
  In u l -> is_open u = true -> dt_off (scheduled_time u) = None ->
  exists e, resolve_conflicts l w = Raise e /\
            (exn_cls e = TypeError \/ exn_cls e = OverflowError).
Proof.
  revert w. induction l as [|x l IH]; intros w Hw Hin Ho Hn; [destruct Hin|].
  simpl. destruct (is_open x) eqn:Hx.
  2:{ destruct Hin as [->|Hin]; [congruence|]. now apply IH. }
  destruct (dt_add (scheduled_time x) (estimated_duration x)) as [ue|e] eqn:Hue;
    cbn [rbind].
  2:{ exists e. split; [reflexivity|right]. now apply dt_add_raises in Hue. }
  destruct (dt_off (scheduled_time x)) as [off|] eqn:Hoff.
  2:{ destruct (dt_le_raises (scheduled_time x) w) as (e & -> & He).
      { now apply comparable_naive_aware. }
      exists e. split; [reflexivity|now left]. }
  assert (Hrest : In u l) by (destruct Hin as [->|Hin]; [congruence|assumption]).
  destruct (dt_le (scheduled_time x) w) as [[|]|e] eqn:H1; cbn [rbind].
  - destruct (dt_le w ue) as [[|]|e] eqn:H2; cbn [rbind].
    + destruct (dt_add ue (minutes 30)) as [nw|e] eqn:Hnw; cbn [rbind].
      * apply IH; try assumption.
        apply dt_add_ok in Hnw as [_ ->]. apply dt_add_ok in Hue as [_ ->].
        congruence.
      * exists e. split; [reflexivity|right]. now apply dt_add_raises in Hnw.
    + now apply IH.
    + exists e. split; [reflexivity|left].
      unfold dt_le, dt_compare in H2. destruct (comparable w ue); [discriminate|].
      now injection H2 as <-.
  - now apply IH.
  - exists e. split; [reflexivity|left].
    unfold dt_le, dt_compare in H1.
    destruct (comparable (scheduled_time x) w); [discriminate|].
    now injection H1 as <-.
Qed.

(** The default maintenance window carries the offset of the clock it was
    computed from, which is UTC.  While the queue holds a pending or approved
    entry whose scheduled time is naive, every call of [schedule_upgrade]
    without an explicit time raises, with a [TypeError] from the comparison
    (or an [OverflowError] from the date arithmetic before it). *)
Theorem default_slot_raises_on_naive_entry
    (self : UpgradeScheduler) (now : datetime) (io_ok auto_approve : bool)
    (current_version component : string) (target_version : Watcher.Version)
    (u : ScheduledUpgrade) :
  dt_off now <> None ->
  In u (scheduled_upgrades self) -> is_open u = true ->
  dt_off (scheduled_time u) = None ->
  exists e,
    schedule_upgrade self now io_ok current_version component target_version
                     None auto_approve = Raise e /\
    (exn_cls e = TypeError \/ exn_cls e = OverflowError).
Proof.
  intros Hnow Hin Ho Hn. unfold schedule_upgrade, get_next_maintenance_window.
  destruct (default_window now) as [w0|e] eqn:Hw0; cbn [rbind].
  - destruct (resolve_conflicts_naive_entry (scheduled_upgrades self) w0 u)
      as (e & -> & He); try assumption.
    + rewrite (SchedulerProps.default_window_aware _ _ Hw0). exact Hnow.
    + now exists e.
  - exists e. split; [reflexivity|right].
    unfold default_window in Hw0. destruct (2 <=? dt_hour now); [|discriminate].
    now apply dt_add_raises in Hw0.
Qed.

Lemma default_slot_raises_witness :
  exists e,
    schedule_upgrade (mkScheduler [old_pending] None) (utc 2024 5 1 12 0) true
                     "1.0.0" "story" (Watcher.of_version "1.2.0") None false
    = Raise e /\
    (exn_cls e = TypeError \/ exn_cls e = OverflowError).
Proof.
  apply (default_slot_raises_on_naive_entry
           (mkScheduler [old_pending] None) (utc 2024 5 1 12 0) true false
           "1.0.0" "story" (Watcher.of_version "1.2.0") old_pending).
  - discriminate.
  - now left.
  - reflexivity.
  - reflexivity.
Defined.

Lemma keep_recent_aware cutoff l u :
  dt_off cutoff = None ->
  In u l -> is_open u = false -> dt_off (scheduled_time u) <> None ->
  exists e, keep_recent cutoff l = Raise e /\ exn_cls e = TypeError.
Proof.
  intros Hc Hin Ho Ha. induction l as [|x l IH]; [destruct Hin|]. simpl.
  destruct (is_open x) eqn:Hx; cbn [rbind].
  - destruct Hin as [->|Hin]; [congruence|].
    destruct (IH Hin) as (e & -> & He). now exists e.
  - destruct (dt_off (scheduled_time x)) as [off|] eqn:Hoff.
    + destruct (dt_gt_raises (scheduled_time x) cutoff) as (e & -> & He).
      { apply comparable_aware_naive; [congruence|assumption]. }
      now exists e.
    + rewrite dt_gt_comparable by (unfold comparable; now rewrite Hoff, Hc).
      cbn [rbind]. destruct Hin as [->|Hin]; [congruence|].
      destruct (IH Hin) as (e & -> & He). now exists e.
Qed.

(** The prune operation reads the naive clock.  While the queue holds a
    completed or cancelled entry (any entry that is neither pending nor
    approved) whose scheduled time carries an offset, every call raises,
    with a [TypeError] from the comparison (or an [OverflowError] from
    computing the cutoff). *)
Theorem cleanup_raises_on_aware_closed_entry
    (self : UpgradeScheduler) (now : datetime) (io_ok : bool) (ndays : Z)
    (u : ScheduledUpgrade) :
  dt_off now = None ->
  In u (scheduled_upgrades self) -> is_open u = false ->
  dt_off (scheduled_time u) <> None ->
  exists e,
    cleanup_old_upgrades self now io_ok ndays = Raise e /\
    (exn_cls e = TypeError \/ exn_cls e = OverflowError).
Proof.
  intros Hnow Hin Ho Ha. unfold cleanup_old_upgrades, cutoff_of.
  destruct (mk_timedelta ndays 0 0 0) as [td|e] eqn:Htd; cbn [rbind].
  2:{ exists e. split; [reflexivity|right]. now apply mk_timedelta_raises in Htd. }
  unfold dt_sub_td.
  destruct (dt_add now (- td)) as [cutoff|e] eqn:Hcut; cbn [rbind].
  2:{ exists e. split; [reflexivity|right]. now apply dt_add_raises in Hcut. }
  destruct (keep_recent_aware cutoff (scheduled_upgrades self) u)
    as (e & -> & He); try assumption.
  - apply dt_add_ok in Hcut as [_ ->]. exact Hnow.
  - exists e. split; [reflexivity|now left].
Qed.

Lemma cleanup_raises_witness :
  exists e,
    cleanup_old_upgrades (mkScheduler [old_pending; done_in_window] None)
                         (naive 2024 5 1 0 0) true 30 = Raise e /\
    (exn_cls e = TypeError \/ exn_cls e = OverflowError).
Proof.
  apply (cleanup_raises_on_aware_closed_entry
           (mkScheduler [old_pending; done_in_window] None)
           (naive 2024 5 1 0 0) true 30 done_in_window).
  - reflexivity.
  - right. now left.
  - reflexivity.
  - discriminate.
Defined.

(** *** Where a new entry lands *)

Lemma insert_by_time_perm x l : Permutation (insert_by_time x l) (x :: l).
Proof.
  induction l as [|y l IH]; simpl; [reflexivity|].
  destruct (_ <? _); [|reflexivity].
  rewrite IH. apply perm_swap.
Qed.

Lemma forallb_insert_by_time p x l :
  forallb p (insert_by_time x l) = p x && forallb p l.
Proof.
  induction l as [|y l IH]; simpl; [reflexivity|].
  destruct (_ <? _); simpl; [|reflexivity].
  rewrite IH. now destruct (p x), (p y).
Qed.

Lemma forallb_le_trans a b l :
  a <= b ->
  forallb (fun y => b <=? dt_utc (scheduled_time y)) l = true ->
  forallb (fun y => a <=? dt_utc (scheduled_time y)) l = true.
Proof.
  intros Hab. rewrite !forallb_forall. intros H y Hy.
  specialize (H y Hy). apply Z.leb_le in H. apply Z.leb_le. lia.
Qed.

Lemma insert_by_time_sorted x l :
  sorted_by_time l = true -> sorted_by_time (insert_by_time x l) = true.
Proof.
  induction l as [|y l IH]; simpl; [reflexivity|].
  intros H. apply andb_prop in H as [Hy Hl].
  destruct (Z.ltb_spec (dt_utc (scheduled_time y)) (dt_utc (scheduled_time x)))
    as [Hlt|Hge]; simpl.
  - rewrite forallb_insert_by_time, Hy, (IH Hl).
    replace (dt_utc (scheduled_time y) <=? dt_utc (scheduled_time x)) with true
      by (symmetry; apply Z.leb_le; lia).
    reflexivity.
  - rewrite Hy, Hl.
    replace (dt_utc (scheduled_time x) <=? dt_utc (scheduled_time y)) with true
      by (symmetry; apply Z.leb_le; lia).
    rewrite (forallb_le_trans _ _ _ Hge Hy). reflexivity.
Qed.

Lemma insertion_sort_ok l :
  Permutation (fold_right insert_by_time [] l) l /\
  sorted_by_time (fold_right insert_by_time [] l) = true.
Proof.
  induction l as [|y l [IHp IHs]]; simpl; [now split|]. split.
  - rewrite insert_by_time_perm. now constructor.
  - now apply insert_by_time_sorted.
Qed.

Lemma sort_by_scheduled_time_ok l l' :
  sort_by_scheduled_time l = Ok l' ->
  Permutation l' l /\ sorted_by_time l' = true.
Proof.
  unfold sort_by_scheduled_time. destruct l as [|x l]; [now intros [= <-]|].
  destruct (forallb _ _); [|discriminate]. intros [= <-].
  apply (insertion_sort_ok (x :: l)).
Qed.

(** Every call of [schedule_upgrade] that returns leaves the whole queue
    sorted by scheduled time, earliest first, whatever order it was in
    before; the queue then holds the entries it held and the new one,
    nothing else. *)
Theorem schedule_upgrade_sorts_the_queue
    (self self' : UpgradeScheduler) (now : datetime) (io_ok auto_approve : bool)
    (current_version component : string) (target_version : Watcher.Version)
    (scheduled_time : option datetime) (u : ScheduledUpgrade) :
  schedule_upgrade self now io_ok current_version component target_version
                   scheduled_time auto_approve = Ok (u, self') ->
  Permutation (scheduled_upgrades self') (u :: scheduled_upgrades self) /\
  sorted_by_time (scheduled_upgrades self') = true.
Proof.
  unfold schedule_upgrade.
  destruct (match scheduled_time with
            | Some t => Ok t
            | None => get_next_maintenance_window self now
            end) as [t|]; cbn [rbind]; [|discriminate].
  destruct (sort_by_scheduled_time _) as [sorted|] eqn:Hsort; cbn [rbind];
    [|discriminate].
  intros [= <- <-]. rewrite scheduled_upgrades_save.
  apply sort_by_scheduled_time_ok in Hsort as [Hp Hs]. split; [|exact Hs].
  rewrite Hp. apply Permutation_sym, Permutation_cons_append.
Qed.

Lemma schedule_upgrade_sorts_witness :
  Permutation
    [story_0200;
     mkScheduledUpgrade "story_geth" "1.0.0" "1.2.0" (utc 2024 5 2 2 45)
       (minutes 10) "pending" true (Some "Upgrade from 1.0.0 to 1.2.0")]
    (mkScheduledUpgrade "story_geth" "1.0.0" "1.2.0" (utc 2024 5 2 2 45)
       (minutes 10) "pending" true (Some "Upgrade from 1.0.0 to 1.2.0")
     :: scheduled_upgrades one_at_0200) /\
  sorted_by_time
    [story_0200;
     mkScheduledUpgrade "story_geth" "1.0.0" "1.2.0" (utc 2024 5 2 2 45)
       (minutes 10) "pending" true (Some "Upgrade from 1.0.0 to 1.2.0")] = true.
Proof.
  apply (schedule_upgrade_sorts_the_queue
           one_at_0200
           (save_schedule true
              (mkScheduler
                 [story_0200;
                  mkScheduledUpgrade "story_geth" "1.0.0" "1.2.0" (utc 2024 5 2 2 45)
                    (minutes 10) "pending" true
                    (Some "Upgrade from 1.0.0 to 1.2.0")] None))
           (utc 2024 5 1 12 0) true false
           "1.0.0" "story_geth" (Watcher.of_version "1.2.0") None).
  vm_compute. reflexivity.
Defined.

(** *** The maintenance window *)

(** The default maintenance window is the next 02:00:00 on the clock that
    was read: strictly later than now, at most one day ahead (exactly one
    day when it is 02:00:00 sharp), and with the offset of that clock. *)
Theorem default_window_is_next_0200 (now w : datetime) :
  default_window now = Ok w ->
  dt_off w = dt_off now /\
  dt_hour w = 2 /\ dt_minute w = 0 /\ dt_second w = 0 /\ dt_microsecond w = 0 /\
  0 < dt_us w - dt_us now <= US_PER_DAY.
Proof.
  unfold default_window, dt_replace_hour.
  destruct (Z.leb_spec 2 (dt_hour now)) as [Hh|Hh].
  - intros H. apply dt_add_ok in H as [Hus Hoff]. cbn [dt_us dt_off] in *.
    split; [exact Hoff|].
    unfold dt_hour, dt_minute, dt_second, dt_microsecond in *. rewrite Hus.
    unfold days, US_PER_DAY, US_PER_HOUR, US_PER_MINUTE, US_PER_SECOND in *.
    repeat split; Z.div_mod_to_equations; lia.
  - intros [= <-]. cbn [dt_us dt_off]. split; [reflexivity|].
    unfold dt_hour, dt_minute, dt_second, dt_microsecond in *. cbn [dt_us].
    unfold US_PER_DAY, US_PER_HOUR, US_PER_MINUTE, US_PER_SECOND in *.
    repeat split; Z.div_mod_to_equations; lia.
Qed.

Lemma default_window_witness :
  dt_off (utc 2024 5 2 2 0) = dt_off (utc 2024 5 1 12 0) /\
  dt_hour (utc 2024 5 2 2 0) = 2 /\ dt_minute (utc 2024 5 2 2 0) = 0 /\
  dt_second (utc 2024 5 2 2 0) = 0 /\ dt_microsecond (utc 2024 5 2 2 0) = 0 /\
  0 < dt_us (utc 2024 5 2 2 0) - dt_us (utc 2024 5 1 12 0) <= US_PER_DAY.
Proof.
  apply (default_window_is_next_0200 (utc 2024 5 1 12 0) (utc 2024 5 2 2 0)).
  vm_compute. reflexivity.
Defined.

Lemma resolve_conflicts_shape l w w' :
  resolve_conflicts l w = Ok w' ->
  w' = w \/
  exists e upgrade_end,
    In e l /\ is_open e = true /\ inside w' e = false /\
    dt_add (scheduled_time e) (estimated_duration e) = Ok upgrade_end /\
    dt_utc w' >= dt_utc upgrade_end + minutes 30.
Proof.
  revert w. induction l as [|x l IH]; intros w; simpl.
  - intros [= <-]. now left.
  - assert (Hrec : forall v, resolve_conflicts l v = Ok w' ->
               w' = v \/
               exists e upgrade_end,
                 (x = e \/ In e l) /\ is_open e = true /\ inside w' e = false /\
                 dt_add (scheduled_time e) (estimated_duration e) = Ok upgrade_end /\
                 dt_utc w' >= dt_utc upgrade_end + minutes 30).
    { intros v Hv. destruct (IH _ Hv) as [->|(e & ue & Hin & H)]; [now left|].
      right. exists e, ue. split; [now right|exact H]. }
    destruct (is_open x) eqn:Hx; [|apply Hrec].
    destruct (dt_add (scheduled_time x) (estimated_duration x)) as [ue|] eqn:Hue;
      cbn [rbind]; [|discriminate].
    destruct (dt_le (scheduled_time x) w) as [[|]|] eqn:H1; cbn [rbind];
      [|apply Hrec|discriminate].
    destruct (dt_le w ue) as [[|]|] eqn:H2; cbn [rbind];
      [|apply Hrec|discriminate].
    destruct (dt_add ue (minutes 30)) as [nw|] eqn:Hnw; cbn [rbind];
      [|discriminate].
    intros H. right.
    pose proof (SchedulerProps.resolve_conflicts_mono _ _ _ H) as Hmono.
    pose proof (dt_add_utc _ _ _ Hnw) as Hnw'.
    pose proof (dt_add_utc _ _ _ Hue) as Hue'.
    destruct (Hrec _ H) as [->|(e & ue' & Hin & Ho & Hi & Ha & Hge)].
    + exists x, ue. repeat split; try assumption; [now left| |lia].
      unfold inside. apply andb_false_intro2. apply Z.leb_gt.
      unfold minutes, US_PER_MINUTE in *. lia.
    + exists e, ue'. repeat split; assumption.
Qed.

(** The window [get_next_maintenance_window] returns is never earlier than
    the default window.  It is the default window itself when no pending or
    approved entry holds that one in its interval; otherwise the window has
    been moved, and then it lies at least thirty minutes after the end of a
    pending or approved entry of the queue, outside that entry's interval. *)
Theorem next_window_is_default_or_after_an_entry
    (self : UpgradeScheduler) (now w0 w : datetime) :
  default_window now = Ok w0 ->
  get_next_maintenance_window self now = Ok w ->
  dt_utc w0 <= dt_utc w /\
  ((forall e, In e (scheduled_upgrades self) -> is_open e = true ->
              inside w0 e = false) -> w = w0) /\
  (w <> w0 ->
   exists e upgrade_end,
     In e (scheduled_upgrades self) /\ is_open e = true /\ inside w e = false /\
     dt_add (scheduled_time e) (estimated_duration e) = Ok upgrade_end /\
     dt_utc w >= dt_utc upgrade_end + minutes 30).
Proof.
  intros Hw0. unfold get_next_maintenance_window. rewrite Hw0. cbn [rbind].
  intros H. split; [now apply SchedulerProps.resolve_conflicts_mono in H|].
  split.
  - intros Hclear. now apply (SchedulerProps.resolve_conflicts_clear _ _ _ Hclear).
  - intros Hne. destruct (resolve_conflicts_shape _ _ _ H) as [->|Hs];
      [now contradiction Hne|exact Hs].
Qed.

Lemma next_window_witness :
  dt_utc (utc 2024 5 2 2 0) <= dt_utc (utc 2024 5 2 2 40) /\
  ((forall e, In e (scheduled_upgrades two_at_0200) -> is_open e = true ->
              inside (utc 2024 5 2 2 0) e = false) ->
   utc 2024 5 2 2 40 = utc 2024 5 2 2 0) /\
  (utc 2024 5 2 2 40 <> utc 2024 5 2 2 0 ->
   exists e upgrade_end,
     In e (scheduled_upgrades two_at_0200) /\ is_open e = true /\
     inside (utc 2024 5 2 2 40) e = false /\
     dt_add (scheduled_time e) (estimated_duration e) = Ok upgrade_end /\
     dt_utc (utc 2024 5 2 2 40) >= dt_utc upgrade_end + minutes 30).
Proof.
  apply (next_window_is_default_or_after_an_entry
           two_at_0200 (utc 2024 5 1 12 0) (utc 2024 5 2 2 0) (utc 2024 5 2 2 40)).
  - vm_compute. reflexivity.
  - vm_compute. reflexivity.
Defined.

Lemma resolve_conflicts_aware l w w' :
  dt_off w <> None -> resolve_conflicts l w = Ok w' -> dt_off w' <> None.
Proof.
  revert w. induction l as [|x l IH]; intros w Hw; simpl; [now intros [= <-]|].
  destruct (is_open x); [|now apply IH].
  destruct (dt_add (scheduled_time x) (estimated_duration x)) as [ue|] eqn:Hue;
    cbn [rbind]; [|discriminate].
  destruct (dt_le (scheduled_time x) w) as [[|]|] eqn:H1; cbn [rbind];
    [|now apply IH|discriminate].
  destruct (dt_le w ue) as [[|]|]; cbn [rbind]; [|now apply IH|discriminate].
  destruct (dt_add ue (minutes 30)) as [nw|] eqn:Hnw; cbn [rbind]; [|discriminate].
  apply IH. apply dt_add_ok in Hnw as [_ ->]. apply dt_add_ok in Hue as [_ ->].
  apply dt_le_ok in H1 as [Hc _]. unfold comparable in Hc.
  destruct (dt_off (scheduled_time x)); [discriminate|].
  now destruct (dt_off w).
Qed.

(** An entry booked by [schedule_upgrade] without an explicit time takes
    the offset of the clock the window was computed from.  From then on, and
    for as long as the entry is in the queue and neither completed nor
    cancelled, [get_upcoming_upgrades], which reads the naive clock, raises
    on every call: a [TypeError] from the comparison, or an [OverflowError]
    from computing the cutoff before it. *)
Theorem default_slot_entry_stops_upcoming
    (self self' : UpgradeScheduler) (now clock : datetime)
    (io_ok auto_approve : bool) (current_version component : string)
    (target_version : Watcher.Version) (u : ScheduledUpgrade) (hours : Z) :
  dt_off now <> None ->
  dt_off clock = None ->
  schedule_upgrade self now io_ok current_version component target_version
                   None auto_approve = Ok (u, self') ->
  dt_off (scheduled_time u) <> None /\
  In u (scheduled_upgrades self') /\ is_open u = true /\
  forall later,
    (exists v, In v (scheduled_upgrades later) /\ is_open v = true /\
               scheduled_time v = scheduled_time u) ->
    exists e,
      get_upcoming_upgrades later clock hours = Raise e /\
      (exn_cls e = TypeError \/ exn_cls e = OverflowError).
Proof.
  intros Hnow Hclock. unfold schedule_upgrade, get_next_maintenance_window.
  destruct (default_window now) as [w0|] eqn:Hw0; cbn [rbind]; [|discriminate].
  destruct (resolve_conflicts _ w0) as [w|] eqn:Hw; cbn [rbind]; [|discriminate].
  destruct (sort_by_scheduled_time _) as [sorted|] eqn:Hsort; cbn [rbind];
    [|discriminate].
  intros [= <- <-]. cbn [scheduled_time]. rewrite scheduled_upgrades_save.
  assert (Haware : dt_off w <> None).
  { apply resolve_conflicts_aware with (2 := Hw).
    rewrite (SchedulerProps.default_window_aware _ _ Hw0). exact Hnow. }
  split; [exact Haware|]. split; [|split].
  - apply sort_by_scheduled_time_ok in Hsort as [Hp _].
    apply (Permutation_in _ (Permutation_sym Hp)), in_or_app. right. now left.
  - now destruct auto_approve.
  - intros later (v & Hin & Ho & Hv). unfold get_upcoming_upgrades.
    destruct (mk_timedelta 0 hours 0 0) as [td|e] eqn:Htd; cbn [rbind].
    2:{ exists e. split; [reflexivity|right].
        now apply mk_timedelta_raises in Htd. }
    destruct (dt_add clock td) as [cutoff|e] eqn:Hcut; cbn [rbind].
    2:{ exists e. split; [reflexivity|right]. now apply dt_add_raises in Hcut. }
    destruct (upcoming_aware cutoff (scheduled_upgrades later) v)
      as (e & -> & He); try assumption.
    + apply dt_add_ok in Hcut as [_ ->]. exact Hclock.
    + now rewrite Hv.
    + exists e. split; [reflexivity|now left].
Qed.

Lemma default_slot_entry_witness :
  exists u self',
    schedule_upgrade one_at_0200 (utc 2024 5 1 12 0) true "1.0.0" "story_geth"
                     (Watcher.of_version "1.2.0") None true = Ok (u, self') /\
    exists e,
      get_upcoming_upgrades self' (naive 2024 5 1 12 5) 1 = Raise e /\
      (exn_cls e = TypeError \/ exn_cls e = OverflowError).
Proof.
  eexists; eexists. split; [vm_compute; reflexivity|].
  eapply (default_slot_entry_stops_upcoming one_at_0200 _
            (utc 2024 5 1 12 0) (naive 2024 5 1 12 5) true true "1.0.0"
            "story_geth" (Watcher.of_version "1.2.0") _ 1).
  - discriminate.
  - reflexivity.
  - vm_compute. reflexivity.
  - eexists. split; [|split; [|reflexivity]].
    + right. left. reflexivity.
    + reflexivity.
Defined.

Lemma get_current_block_height_some status_body height :
  _get_current_block_height status_body = Some height ->
  exists data, status_body = Ok data.
Proof.
  unfold _get_current_block_height. destruct status_body as [data|]; [|discriminate].
  intros _. now exists data.
Qed.

(** A governance upgrade is booked on the naive clock, thirty minutes
    before the time the upgrade height is expected at five seconds a block,
    already approved, and appended after the entries the queue holds.  From
    then on, and for as long as the entry is in the queue and neither
    completed nor cancelled, [schedule_upgrade] without an explicit time,
    whose default window carries the UTC offset, raises on every call: a
    [TypeError] from the comparison, or an [OverflowError] from the date
    arithmetic before it. *)
Theorem governance_entry_stops_default_slot
    (self self' : UpgradeScheduler) (now : datetime) (io_ok : bool)
    (current_version : option string) (status_body : result value)
    (proposal : Watcher.GovernanceProposal) (u : ScheduledUpgrade) :
  dt_off now = None ->
  schedule_governance_upgrade self now io_ok current_version status_body proposal
  = Ok (Some u, self') ->
  scheduled_upgrades self' = scheduled_upgrades self ++ [u] /\
  status u = "approved" /\ approval_required u = false /\
  dt_off (scheduled_time u) = None /\
  (exists upgrade_height current_height,
     Watcher.upgrade_height proposal = Some upgrade_height /\
     _get_current_block_height status_body = Some current_height /\
     dt_us (scheduled_time u)
     = dt_us now + (upgrade_height - current_height) * 5 * US_PER_SECOND
       - minutes 30) /\
  forall later clock io_ok' auto_approve version component target_version,
    dt_off clock <> None ->
    (exists v, In v (scheduled_upgrades later) /\ is_open v = true /\
               scheduled_time v = scheduled_time u) ->
    exists e,
      schedule_upgrade later clock io_ok' version component target_version
                       None auto_approve = Raise e /\
      (exn_cls e = TypeError \/ exn_cls e = OverflowError).
Proof.
  intros Hnow. unfold schedule_governance_upgrade.
  destruct (Watcher.upgrade_height proposal) as [h|]; [|discriminate].
  destruct (Watcher.upgrade_version proposal) as [v|]; [|discriminate].
  destruct (_ || _); [discriminate|].
  destruct (_get_current_block_height status_body) as [height|]; [|discriminate].
  destruct (height =? 0); [discriminate|].
  destruct (mk_timedelta 0 0 0 ((h - height) * 5)) as [td|] eqn:Htd;
    cbn [rbind]; [|discriminate].
  destruct (dt_add now td) as [estimated|] eqn:He; cbn [rbind]; [|discriminate].
  destruct (dt_sub_td estimated (minutes 30)) as [t|] eqn:Ht; cbn [rbind];
    [|discriminate].
  intros [= <- <-]. rewrite scheduled_upgrades_save.
  cbn [status approval_required scheduled_time].
  unfold dt_sub_td in Ht. apply dt_add_ok in Ht as [Hus Hoff].
  apply dt_add_ok in He as [Hus' Hoff'].
  assert (Hnaive : dt_off t = None) by congruence.
  do 4 (split; [first [reflexivity | assumption]|]). split.
  - exists h, height. do 2 (split; [reflexivity|]).
    rewrite Hus, Hus'. unfold mk_timedelta in Htd.
    destruct (_ <? _); [discriminate|]. injection Htd as <-. lia.
  - intros later clock io_ok' auto_approve version component target_version
           Hclock (x & Hin & Ho & Hx).
    unfold schedule_upgrade, get_next_maintenance_window.
    destruct (default_window clock) as [w0|e] eqn:Hw0; cbn [rbind].
    + destruct (resolve_conflicts_naive_entry (scheduled_upgrades later) w0 x)
        as (e & -> & Hcls); try assumption.
      * rewrite (SchedulerProps.default_window_aware _ _ Hw0). exact Hclock.
      * now rewrite Hx.
      * now exists e.
    + exists e. split; [reflexivity|right].
      unfold default_window in Hw0. destruct (2 <=? dt_hour clock); [|discriminate].
      now apply dt_add_raises in Hw0.
Qed.

Lemma governance_entry_witness :
  exists u self',
    schedule_governance_upgrade one_at_0200 (naive 2024 5 1 12 0) true
      (Some "1.0.0") (Ok (status_body (VBool false) (VStr "2024-05-01T12:00:00Z")))
      proposal_7 = Ok (Some u, self') /\
    exists e,
      schedule_upgrade self' (utc 2024 5 1 12 5) true "1.0.0" "story_geth"
                       (Watcher.of_version "1.2.0") None false = Raise e /\
      (exn_cls e = TypeError \/ exn_cls e = OverflowError).
Proof.
  eexists; eexists. split; [vm_compute; reflexivity|].
  eapply (governance_entry_stops_default_slot one_at_0200 _
            (naive 2024 5 1 12 0) true (Some "1.0.0")
            (Ok (status_body (VBool false) (VStr "2024-05-01T12:00:00Z")))
            proposal_7 _ eq_refl).
  - vm_compute. reflexivity.
  - discriminate.
  - eexists. split; [|split; [|reflexivity]].
    + right. left. reflexivity.
    + reflexivity.
Defined.

End QueueProps.

(* ================================================================= *)
(** ** The schedule file *)

Module StoreProps.
Import Py Scheduler DatetimeFacts Examples.

(** *** Characters that [int] does not accept *)

Lemma mem_char_app c a b :
  mem_char c (a ++ b) = mem_char c a || mem_char c b.
Proof.
  induction a as [|x a IH]; simpl; [reflexivity|].
  rewrite IH. now rewrite orb_assoc.
Qed.

Lemma mem_char_rev c acc s :
  mem_char c (rev_string acc s) = mem_char c acc || mem_char c s.
Proof.
  revert acc; induction s as [|x s IH]; intros acc; simpl.
  - now rewrite orb_false_r.
  - rewrite IH. simpl. now destruct (Ascii.eqb c x), (mem_char c acc).
Qed.

Lemma mem_char_lstrip_space c s :
  is_space c = false -> mem_char c (lstrip_space s) = mem_char c s.
Proof.
  intros Hc. induction s as [|x s IH]; simpl; [reflexivity|].
  destruct (is_space x) eqn:Hx; [|reflexivity].
  rewrite IH. destruct (Ascii.eqb_spec c x) as [->|]; [congruence|reflexivity].
Qed.

Lemma mem_char_strip c s :
  is_space c = false -> mem_char c (strip s) = mem_char c s.
Proof.
  intros Hc. unfold strip.
  rewrite mem_char_rev, (mem_char_lstrip_space _ _ Hc), mem_char_rev.
  now rewrite (mem_char_lstrip_space _ _ Hc).
Qed.

Lemma int_body_clean c prev acc s n :
  is_digit c = false -> Ascii.eqb c "_" = false ->
  int_body prev acc s = Some n -> mem_char c s = false.
Proof.
  intros Hd Hu. revert prev acc.
  induction s as [|x s IH]; intros prev acc; simpl; [reflexivity|].
  destruct (Ascii.eqb_spec c x) as [<-|Hx]; simpl.
  - rewrite Hd, Hu. discriminate.
  - destruct (is_digit x); [apply IH|].
    destruct (Ascii.eqb x "_"); [|discriminate].
    destruct prev; [apply IH|discriminate].
Qed.

(** A string that [int] reads holds nothing but digits, underscores, a sign
    and surrounding blanks. *)
Lemma int_of_str_clean c s n :
  is_digit c = false -> Ascii.eqb c "_" = false -> is_space c = false ->
  Ascii.eqb c "-" = false -> Ascii.eqb c "+" = false ->
  int_of_str s = Ok n -> mem_char c s = false.
Proof.
  intros Hd Hu Hs Hm Hp. rewrite <- (mem_char_strip c s Hs).
  unfold int_of_str. destruct (strip s) as [|x t]; [discriminate|].
  assert (Hbody : forall neg body,
             match body with
             | EmptyString => raise ValueError
                                ("invalid literal for int() with base 10: '"
                                 ++ s ++ "'")%string
             | String c0 _ =>
                 if is_digit c0 then
                   match int_body false 0 body with
                   | Some n0 => Ok (if neg : bool then - n0 else n0)
                   | None => raise ValueError
                               ("invalid literal for int() with base 10: '"
                                ++ s ++ "'")%string
                   end
                 else raise ValueError
                        ("invalid literal for int() with base 10: '"
                         ++ s ++ "'")%string
             end = Ok n -> mem_char c body = false).
  { intros neg [|c0 body]; [discriminate|].
    destruct (is_digit c0); [|discriminate].
    destruct (int_body false 0 (String c0 body)) as [n0|] eqn:Hb; [|discriminate].
    intros _. now apply int_body_clean with false 0 n0. }
  destruct (Ascii.eqb_spec x "-") as [->|Hx1].
  - intros H. apply (Hbody true) in H. simpl. now rewrite Hm.
  - destruct (Ascii.eqb_spec x "+") as [->|Hx2].
    + intros H. apply (Hbody false) in H. simpl. now rewrite Hp.
    + intros H. now apply (Hbody false (String x t)) in H.
Qed.

Lemma mem_char_split c cur s :
  Ascii.eqb c ":" = false ->
  existsb (mem_char c) (split_char ":" cur s) = mem_char c cur || mem_char c s.
Proof.
  intros Hc. revert cur; induction s as [|x s IH]; intros cur; simpl.
  - now rewrite orb_false_r.
  - destruct (Ascii.eqb_spec x ":") as [->|Hx]; simpl.
    + rewrite IH, Hc. reflexivity.
    + rewrite IH, mem_char_app. simpl. rewrite orb_false_r.
      now rewrite orb_assoc.
Qed.

Lemma contains_char c s : contains (String c "") s = mem_char c s.
Proof.
  induction s as [|x s IH]; simpl; [reflexivity|].
  rewrite IH. now rewrite andb_true_r.
Qed.

Lemma unpack3_int_raises parts e :
  unpack3_int parts = Raise e -> exn_cls e = ValueError.
Proof.
  assert (Hint : forall p e0, int_of_str p = Raise e0 -> exn_cls e0 = ValueError).
  { intros p e0. unfold int_of_str.
    destruct (strip p) as [|x t].
    - now intros [= <-].
    - destruct (if Ascii.eqb x "-" then _ else _) as [neg [|c0 body]];
        [now intros [= <-]|].
      destruct (is_digit c0); [|now intros [= <-]].
      destruct (int_body _ _ _); [discriminate|now intros [= <-]]. }
  unfold unpack3_int.
  destruct parts as [|p1 [|p2 [|p3 [|p4 r]]]]; try (now intros [= <-]).
  - destruct (int_of_str p1) eqn:H1; cbn [rbind]; [now intros [= <-]|].
    intros [= <-]. eauto.
  - destruct (int_of_str p1) eqn:H1; cbn [rbind]; [|intros [= <-]; eauto].
    destruct (int_of_str p2) eqn:H2; cbn [rbind]; [now intros [= <-]|].
    intros [= <-]. eauto.
  - destruct (int_of_str p1) eqn:H1; cbn [rbind]; [|intros [= <-]; eauto].
    destruct (int_of_str p2) eqn:H2; cbn [rbind]; [|intros [= <-]; eauto].
    destruct (int_of_str p3) eqn:H3; cbn [rbind]; [discriminate|].
    intros [= <-]. eauto.
  - destruct (int_of_str p1) eqn:H1; cbn [rbind]; [|intros [= <-]; eauto].
    destruct (int_of_str p2) eqn:H2; cbn [rbind]; [|intros [= <-]; eauto].
    destruct (int_of_str p3) eqn:H3; cbn [rbind]; [|intros [= <-]; eauto].
    destruct (int_of_str p4) eqn:H4; cbn [rbind]; [now intros [= <-]|].
    intros [= <-]. eauto.
Qed.

Lemma unpack3_int_reads_all parts r :
  unpack3_int parts = Ok r ->
  forall p, In p parts -> exists n, int_of_str p = Ok n.
Proof.
  unfold unpack3_int.
  destruct parts as [|p1 [|p2 [|p3 [|p4 rest]]]]; try discriminate.
  - destruct (int_of_str p1); discriminate.
  - destruct (int_of_str p1); cbn [rbind]; [|discriminate].
    destruct (int_of_str p2); discriminate.
  - destruct (int_of_str p1) eqn:H1; cbn [rbind]; [|discriminate].
    destruct (int_of_str p2) eqn:H2; cbn [rbind]; [|discriminate].
    destruct (int_of_str p3) eqn:H3; cbn [rbind]; [|discriminate].
    intros _ p [<-|[<-|[<-|[]]]]; eauto.
  - destruct (int_of_str p1); cbn [rbind]; [|discriminate].
    destruct (int_of_str p2); cbn [rbind]; [|discriminate].
    destruct (int_of_str p3); cbn [rbind]; [|discriminate].
    destruct (int_of_str p4); discriminate.
Qed.

(** Splitting at the colons and reading three integers fails on every
    string that holds a character [int] does not accept. *)
Lemma unpack3_int_unclean c s :
  is_digit c = false -> Ascii.eqb c "_" = false -> is_space c = false ->
  Ascii.eqb c "-" = false -> Ascii.eqb c "+" = false ->
  Ascii.eqb c ":" = false ->
  mem_char c s = true ->
  exists e, unpack3_int (split_char ":" "" s) = Raise e /\ exn_cls e = ValueError.
Proof.
  intros Hd Hu Hs Hm Hp Hc Hin.
  destruct (unpack3_int (split_char ":" "" s)) as [r|e] eqn:H.
  - exfalso.
    pose proof (mem_char_split c "" s Hc) as Hsplit. simpl in Hsplit.
    rewrite Hin in Hsplit. apply existsb_exists in Hsplit as (p & Hp1 & Hp2).
    destruct (unpack3_int_reads_all _ _ H p Hp1) as (n & Hn).
    rewrite (int_of_str_clean c p n Hd Hu Hs Hm Hp Hn) in Hp2. discriminate.
  - exists e. split; [reflexivity|now apply unpack3_int_raises in H].
Qed.

(** [str(td)] always holds a colon; it holds a ['d'] when the day count is
    not zero and a ['.'] when there is a fraction of a second. *)
Lemma str_timedelta_chars t :
  mem_char ":" (str_timedelta t) = true /\
  (td_days t <> 0 -> mem_char "d" (str_timedelta t) = true) /\
  (td_microseconds t <> 0 -> mem_char "." (str_timedelta t) = true).
Proof.
  unfold str_timedelta.
  destruct (Z.eqb_spec (td_days t) 0) as [Hd|Hd];
    destruct (Z.eqb_spec (td_microseconds t) 0) as [Hu|Hu];
    repeat split; intros; try contradiction;
    repeat (rewrite mem_char_app; cbn [mem_char Ascii.eqb Bool.eqb orb]);
    rewrite ?orb_true_r; reflexivity.
Qed.

(** A duration of a day or more, a negative duration, or one with a
    fraction of a second is written by [to_dict] in a form that [from_dict]
    cannot read: reading the dictionary back raises [ValueError]. *)
Theorem from_dict_rejects_what_to_dict_wrote (u : ScheduledUpgrade) :
  dt_valid (scheduled_time u) = true ->
  td_days (estimated_duration u) <> 0 \/
  td_microseconds (estimated_duration u) <> 0 ->
  exists e, from_dict (to_dict u) = Raise e /\ exn_cls e = ValueError.
Proof.
  intros Hv Hbad.
  destruct (str_timedelta_chars (estimated_duration u)) as (Hcolon & Hd & Hdot).
  assert (Hraise : exists e,
             unpack3_int (split_char ":" "" (str_timedelta (estimated_duration u)))
             = Raise e /\ exn_cls e = ValueError).
  { destruct Hbad as [H|H].
    - apply (unpack3_int_unclean "d"); try reflexivity. now apply Hd.
    - apply (unpack3_int_unclean "."); try reflexivity. now apply Hdot. }
  destruct Hraise as (e & Hraise & He). exists e. split; [|exact He].
  destruct u as [c cv tv st ed sta ar n]. cbn [scheduled_time estimated_duration] in *.
  unfold from_dict, to_dict, asdict.
  cbn [dict_get dict_find dict_set String.eqb Ascii.eqb Bool.eqb rbind
       scheduled_time estimated_duration component current_version target_version
       status approval_required notes].
  rewrite (fromisoformat_isoformat _ Hv).
  cbn [dict_get dict_find dict_set String.eqb Ascii.eqb Bool.eqb rbind py_in].
  change (contains ":" (str_timedelta ed))
    with (contains (String ":" "") (str_timedelta ed)).
  rewrite contains_char, Hcolon. cbn [rbind]. rewrite Hraise. reflexivity.
Qed.

Lemma from_dict_rejects_witness :
  exists e,
    from_dict (to_dict day_long) = Raise e /\ exn_cls e = ValueError.
Proof.
  apply (from_dict_rejects_what_to_dict_wrote day_long).
  - vm_compute. reflexivity.
  - left. vm_compute. discriminate.
Defined.

(** *** Saving and loading *)

Lemma from_dict_to_dict_storable u : storable u -> from_dict (to_dict u) = Ok u.
Proof.
  intros (Hv & Hd & Hs).
  destruct (SchedulerProps.duration_roundtrip _ Hd Hs) as [Hc Hrt].
  destruct u as [c cv tv st ed sta ar n]. cbn [scheduled_time estimated_duration] in *.
  unfold from_dict, to_dict, asdict.
  cbn [dict_get dict_find dict_set String.eqb Ascii.eqb Bool.eqb rbind
       scheduled_time estimated_duration component current_version target_version
       status approval_required notes].
  rewrite (fromisoformat_isoformat _ Hv).
  cbn [dict_get dict_find dict_set String.eqb Ascii.eqb Bool.eqb rbind py_in].
  rewrite Hc. cbn [rbind].
  destruct (unpack3_int _) as [[[h m] s]|]; cbn [rbind] in Hrt |- *; [|discriminate].
  rewrite Hrt. cbn [rbind].
  unfold cls, required, as_str, field_names.
  cbn [dict_get dict_find dict_set String.eqb Ascii.eqb Bool.eqb rbind
       find existsb fst snd negb orb].
  destruct n; reflexivity.
Qed.

Lemma from_dict_all_to_dict l :
  (forall u, In u l -> storable u) ->
  from_dict_all (map VDict (map to_dict l)) = Ok l.
Proof.
  induction l as [|u l IH]; intros H; [reflexivity|].
  cbn [map from_dict_all from_dict_item].
  rewrite from_dict_to_dict_storable by (apply H; now left).
  cbn [rbind]. rewrite IH by (intros; apply H; now right). reflexivity.
Qed.

(** A queue whose entries have scheduled times the [datetime] type can hold
    and durations of whole seconds under a day survives a restart: after
    [save_schedule] has written the file, a scheduler constructed from that
    file holds the same entries in the same order. *)
Theorem schedule_survives_restart (self : UpgradeScheduler) :
  (forall u, In u (scheduled_upgrades self) -> storable u) ->
  scheduled_upgrades (__init__ (stored_schedule (save_schedule true self)))
  = scheduled_upgrades self.
Proof.
  intros H. unfold __init__, stored_schedule, save_schedule, load_schedule.
  cbn [schedule_file option_map py_iter rbind].
  now rewrite (from_dict_all_to_dict _ H).
Qed.

Lemma schedule_survives_restart_witness :
  scheduled_upgrades (__init__ (stored_schedule (save_schedule true two_at_0200)))
  = scheduled_upgrades two_at_0200.
Proof.
  apply (schedule_survives_restart two_at_0200).
  intros u [<-|[<-|[]]]; repeat split; vm_compute; try reflexivity; discriminate.
Defined.

Lemma from_dict_all_raises items item e :
  In item items -> from_dict_item item = Raise e ->
  exists e', from_dict_all items = Raise e'.
Proof.
  intros Hin He. induction items as [|x items IH]; [destruct Hin|].
  cbn [from_dict_all]. destruct Hin as [->|Hin].
  - rewrite He. now exists e.
  - destruct (from_dict_item x); cbn [rbind]; [|eauto].
    destruct (IH Hin) as (e' & ->). now exists e'.
Qed.

Lemma parse_digits_length k : forall acc s v r,
  parse_digits k acc s = Some (v, r) ->
  String.length s = (k + String.length r)%nat.
Proof.
  induction k as [|k IH]; intros acc s v r; simpl.
  - now intros [= _ <-].
  - destruct s as [|c s]; [discriminate|]. destruct (is_digit c); [|discriminate].
    intros H. apply IH in H. simpl. now rewrite H.
Qed.

Lemma take_length_le n : forall s, (String.length (take n s) <= String.length s)%nat.
Proof.
  induction n as [|n IH]; intros [|c s]; simpl; try lia.
  specialize (IH s). lia.
Qed.

Lemma fromisoformat_short s :
  (String.length s < 10)%nat -> exists e, fromisoformat s = Raise e.
Proof.
  intros Hlen. unfold fromisoformat.
  destruct (_parse_isoformat_date (take 10 s)) as [[[y m] d]|] eqn:Hd;
    [|eexists; reflexivity].
  exfalso. unfold _parse_isoformat_date in Hd.
  destruct (parse_digits 4 0 (take 10 s)) as [[y' [|c1 r1]]|] eqn:H1; try discriminate.
  destruct (Ascii.eqb_spec c1 "-") as [->|Hc];
    [|destruct c1 as [[] [] [] [] [] [] [] []]; try discriminate; now elim Hc].
  destruct (parse_digits 2 0 r1) as [[m' [|c2 r2]]|] eqn:H2; try discriminate.
  destruct (Ascii.eqb_spec c2 "-") as [->|Hc];
    [|destruct c2 as [[] [] [] [] [] [] [] []]; try discriminate; now elim Hc].
  destruct (parse_digits 2 0 r2) as [[d' [|c3 r3]]|] eqn:H3; try discriminate.
  apply parse_digits_length in H1, H2, H3. cbn [String.length] in H1, H2, H3.
  pose proof (take_length_le 10 s). lia.
Qed.

Lemma dict_find_set_other k k' v d :
  String.eqb k' k = false -> dict_find k' (dict_set k v d) = dict_find k' d.
Proof.
  intros Hk. induction d as [|[k0 v0] d IH]; simpl.
  - now rewrite Hk.
  - destruct (String.eqb_spec k k0) as [->|Hne]; simpl.
    + now rewrite Hk.
    + now rewrite IH.
Qed.

Lemma unknown_key_dict_set k v d :
  existsb (fun kv => negb (existsb (String.eqb (fst kv)) field_names)) d = true ->
  existsb (fun kv => negb (existsb (String.eqb (fst kv)) field_names))
    (dict_set k v d) = true.
Proof.
  induction d as [|[k0 v0] d IH]; [discriminate|].
  cbn [existsb dict_set]. destruct (String.eqb k k0); cbn [existsb fst].
  - intros H. exact H.
  - intros H. apply orb_true_iff in H as [H|H]; [now rewrite H|].
    rewrite (IH H). now rewrite orb_true_r.
Qed.

Lemma find_existsb {A} (f : A -> bool) l :
  existsb f l = true -> exists x, find f l = Some x.
Proof.
  induction l as [|a l IH]; [discriminate|]. simpl.
  destruct (f a); [eauto|exact IH].
Qed.

Lemma cls_raises data :
  existsb (fun kv => negb (existsb (String.eqb (fst kv)) field_names)) data = true \/
  forallb (fun k => match dict_find k data with Some _ => true | None => false end)
    ["component"; "current_version"; "target_version"] = false ->
  exists e, cls data = Raise e.
Proof.
  intros H. unfold cls.
  destruct (find _ data) as [[k v]|] eqn:Hfind; [eexists; reflexivity|].
  destruct H as [H|H].
  { apply find_existsb in H as [x Hx]. congruence. }
  cbn [forallb] in H. unfold required.
  destruct (dict_find "component" data) as [v1|]; [|eexists; reflexivity].
  cbn [rbind]. destruct (as_str "component" v1); cbn [rbind]; [|eexists; reflexivity].
  destruct (dict_find "current_version" data) as [v2|]; [|eexists; reflexivity].
  cbn [rbind]. destruct (as_str "current_version" v2); cbn [rbind];
    [|eexists; reflexivity].
  destruct (dict_find "target_version" data) as [v3|]; [|eexists; reflexivity].
  discriminate.
Qed.

Lemma unpack3_int_three parts r :
  unpack3_int parts = Ok r -> List.length parts = 3%nat.
Proof.
  unfold unpack3_int.
  destruct parts as [|p1 [|p2 [|p3 [|p4 rest]]]]; try discriminate; try reflexivity.
  - destruct (int_of_str p1); discriminate.
  - destruct (int_of_str p1); cbn [rbind]; [|discriminate].
    destruct (int_of_str p2); discriminate.
  - destruct (int_of_str p1); cbn [rbind]; [|discriminate].
    destruct (int_of_str p2); cbn [rbind]; [|discriminate].
    destruct (int_of_str p3); cbn [rbind]; [|discriminate].
    destruct (int_of_str p4); discriminate.
Qed.

Lemma malformed_raises item :
  malformed item = true -> exists e, from_dict_item item = Raise e.
Proof.
  destruct item as [| | | | | | data | |]; try (intros _; eexists; reflexivity).
  unfold malformed, from_dict_item, from_dict, dict_get.
  destruct (dict_find "scheduled_time" data) as [v|]; [|intros _; eexists; reflexivity].
  cbn [rbind].
  destruct v as [| | | | s | | | |]; try (intros _; eexists; reflexivity).
  destruct (fromisoformat s) as [t|e] eqn:Ht; cbn [rbind]; [|intros _; now exists e].
  assert (Hs : (String.length s <? 7)%nat = false).
  { destruct (Nat.ltb_spec (String.length s) 7) as [Hlt|]; [|reflexivity].
    destruct (fromisoformat_short s) as [e He]; [lia|congruence]. }
  rewrite Hs. cbn [orb].
  rewrite (dict_find_set_other "scheduled_time" "estimated_duration") by reflexivity.
  set (data1 := dict_set "scheduled_time" (VDatetime t) data).
  assert (Hcls : forall v,
             negb (forallb (fun k => match dict_find k data with
                                     | Some _ => true
                                     | None => false
                                     end)
                     ["component"; "current_version"; "target_version"])
             || existsb (fun kv => negb (existsb (String.eqb (fst kv)) field_names))
                  data = true ->
             exists e, cls (dict_set "estimated_duration" v data1) = Raise e).
  { intros v H. apply cls_raises. apply orb_true_iff in H as [H|H].
    - right. apply negb_true_iff in H. cbn [forallb] in H |- *. subst data1.
      now rewrite !dict_find_set_other by reflexivity.
    - left. subst data1. now do 2 apply unknown_key_dict_set. }
  destruct (dict_find "estimated_duration" data) as [d|];
    [|intros _; eexists; reflexivity].
  cbn [rbind].
  destruct d as [| | | | ds | l | dd | |]; try (intros _; eexists; reflexivity).
  - cbn [py_in rbind]. destruct (contains ":" ds) eqn:Hc; cbn [andb rbind].
    + destruct (unpack3_int (split_char ":" "" ds)) as [[[h m] sec]|e] eqn:Hu;
        cbn [rbind]; [|intros _; now exists e].
      apply unpack3_int_three in Hu. rewrite Hu. cbn [Nat.eqb negb orb].
      destruct (mk_timedelta 0 h m sec) as [td|e]; cbn [rbind];
        [|intros _; now exists e].
      apply Hcls.
    + cbn [orb]. apply Hcls.
  - cbn [py_in rbind orb]. destruct (existsb _ l); cbn [rbind].
    + intros _. eexists. reflexivity.
    + apply Hcls.
  - cbn [py_in rbind orb]. destruct (dict_find ":" dd); cbn [rbind].
    + intros _. eexists. reflexivity.
    + apply Hcls.
Qed.

(** [load_schedule] takes the file as a whole or not at all: when the file
    is an array and a single item of it is malformed, the scheduler stays
    exactly as it was, and the items that could be read are not loaded
    either. *)
Theorem load_schedule_all_or_nothing
    (self : UpgradeScheduler) (items : list value) (item : value) :
  In item items -> malformed item = true ->
  load_schedule (Some (Ok (VList items))) self = self.
Proof.
  intros Hin Hbad. unfold load_schedule. cbn [py_iter rbind].
  destruct (malformed_raises _ Hbad) as [e He].
  now destruct (from_dict_all_raises _ _ _ Hin He) as (e' & ->).
Qed.

Lemma load_schedule_all_or_nothing_witness :
  load_schedule
    (Some (Ok (VList [VDict (to_dict story_0200); VDict [("component", VStr "story")]])))
    one_at_0200 = one_at_0200.
Proof.
  apply (load_schedule_all_or_nothing one_at_0200 _
           (VDict [("component", VStr "story")])).
  - right. now left.
  - reflexivity.
Defined.

End StoreProps.

(* ================================================================= *)
(** ** The ordering of versions *)

Module VersionOrder.
Import Py Watcher.

Lemma tuple_gt_irrefl a : tuple_gt a a = false.
Proof. induction a as [|x a IH]; simpl; [reflexivity|]. now rewrite Z.eqb_refl. Qed.

Lemma tuple_gt_trans a b c :
  tuple_gt a b = true -> tuple_gt b c = true -> tuple_gt a c = true.
Proof.
  revert b c; induction a as [|x a IH]; intros [|y b] [|z c]; simpl;
    try discriminate; try reflexivity.
  destruct (Z.eqb_spec x y) as [->|Hxy].
  - destruct (Z.eqb_spec y z) as [->|Hyz]; [apply IH|trivial].
  - intros H1. apply Z.ltb_lt in H1.
    destruct (Z.eqb_spec y z) as [->|Hyz].
    + intros _. destruct (Z.eqb_spec x z); [lia|]. now apply Z.ltb_lt.
    + intros H2. apply Z.ltb_lt in H2.
      destruct (Z.eqb_spec x z); [lia|]. apply Z.ltb_lt. lia.
Qed.

Lemma tuple_gt_asym a b : tuple_gt a b = true -> tuple_gt b a = false.
Proof.
  intros H. destruct (tuple_gt b a) eqn:H'; [|reflexivity].
  pose proof (tuple_gt_trans _ _ _ H H') as Hc.
  now rewrite tuple_gt_irrefl in Hc.
Qed.

(** [Version.__gt__] is a strict order: no version is greater than itself,
    two versions are never each greater than the other, and greater than is
    transitive. *)
Theorem version_gt_is_a_strict_order :
  (forall a, __gt__ a a = false) /\
  (forall a b, __gt__ a b = true -> __gt__ b a = false) /\
  (forall a b c, __gt__ a b = true -> __gt__ b c = true -> __gt__ a c = true).
Proof.
  unfold __gt__. split; [intros; apply tuple_gt_irrefl|]. split.
  - intros a b. apply tuple_gt_asym.
  - intros a b c. apply tuple_gt_trans.
Qed.

Lemma findall_digits_from_app cur s c t :
  is_digit c = false ->
  findall_digits_from cur (s ++ String c t) =
  findall_digits_from cur s ++ findall_digits t.
Proof.
  intros Hc. revert cur; induction s as [|x s IH]; intros cur; simpl.
  - rewrite Hc. unfold findall_digits. now destruct (String.eqb cur "").
  - destruct (is_digit x); [apply IH|].
    destruct (String.eqb cur ""); [apply IH|]. now rewrite IH.
Qed.

Lemma findall_digits_from_digit cur d t :
  is_digit d = true -> mem_char d t = true -> findall_digits_from cur t <> [].
Proof.
  intros Hd. revert cur; induction t as [|x t IH]; intros cur; simpl;
    [discriminate|].
  destruct (Ascii.eqb_spec d x) as [<-|Hx]; simpl.
  - intros _. rewrite Hd.
    assert (Hrun : forall s run, run <> ""%string -> findall_digits_from run s <> []).
    { induction s as [|y s IHs]; intros run Hrun; simpl.
      - destruct (String.eqb_spec run ""); [contradiction|discriminate].
      - destruct (is_digit y).
        + apply IHs. now destruct run.
        + destruct (String.eqb_spec run ""); [contradiction|discriminate]. }
    apply Hrun. now destruct cur.
  - intros Hin. destruct (is_digit x); [now apply IH|].
    destruct (String.eqb cur ""); [now apply IH|discriminate].
Qed.

Lemma tuple_gt_extension p q : q <> [] -> tuple_gt (p ++ q) p = true.
Proof.
  intros Hq. induction p as [|x p IH]; simpl.
  - now destruct q.
  - now rewrite Z.eqb_refl.
Qed.

(** Text appended to a version string counts as further components: when
    the appended text starts with a character that is not a digit and holds
    a digit somewhere, the longer string is the greater version.  So a
    pre-release tag such as 1.2.3-rc1 ranks above the release 1.2.3 it
    precedes. *)
Theorem suffix_with_a_number_ranks_higher (s t : string) (c d : ascii) :
  is_digit c = false -> is_digit d = true -> mem_char d t = true ->
  __gt__ (of_version (s ++ String c t)) (of_version s) = true /\
  __gt__ (of_version s) (of_version (s ++ String c t)) = false.
Proof.
  intros Hc Hd Hin.
  assert (H : __gt__ (of_version (s ++ String c t)) (of_version s) = true).
  { unfold __gt__, of_version, _parse_version. cbn [version].
    rewrite !WatcherProps.findall_lstrip_v. unfold findall_digits at 1.
    rewrite (findall_digits_from_app _ _ _ _ Hc), map_app.
    apply tuple_gt_extension.
    pose proof (findall_digits_from_digit "" d t Hd Hin) as Hne.
    unfold findall_digits. now destruct (findall_digits_from "" t). }
  split; [exact H|]. now apply tuple_gt_asym.
Qed.

Lemma suffix_with_a_number_witness :
  __gt__ (of_version ("1.2.3" ++ String "-" "rc1")) (of_version "1.2.3") = true /\
  __gt__ (of_version "1.2.3") (of_version ("1.2.3" ++ String "-" "rc1")) = false.
Proof.
  apply (suffix_with_a_number_ranks_higher "1.2.3" "rc1" "-" "1"); reflexivity.
Defined.

End VersionOrder.

(* ================================================================= *)
(** ** The history and the backups *)

Module BackupProps.
Import Py Runner DatetimeFacts Examples.

(** [get_upgrade_history(limit)] returns the most recent [limit] records
    (all of them when there are fewer) for a positive [limit].  A [limit] of
    zero does not give an empty list but the whole history; a negative
    [limit] drops that many of the oldest records. *)
Theorem get_upgrade_history_limit (history : list UpgradeRecord) (limit : Z) :
  (0 < limit ->
   exists older,
     history = older ++ get_upgrade_history history limit /\
     List.length (get_upgrade_history history limit)
     = Nat.min (Z.to_nat limit) (List.length history)) /\
  (limit = 0 -> get_upgrade_history history limit = history) /\
  (limit < 0 ->
   exists oldest,
     history = oldest ++ get_upgrade_history history limit /\
     List.length oldest = Nat.min (Z.to_nat (- limit)) (List.length history)).
Proof.
  unfold get_upgrade_history, slice_from.
  set (n := Z.of_nat (List.length history)).
  split; [|split].
  - intros H. destruct (Z.ltb_spec (- limit) 0); [|lia].
    exists (firstn (Z.to_nat (Z.max (n + - limit) 0)) history).
    split; [now rewrite firstn_skipn|]. rewrite length_skipn. subst n. lia.
  - intros ->. cbn [Z.opp Z.ltb Z.compare]. subst n.
    replace (Z.to_nat (Z.min 0 (Z.of_nat (List.length history)))) with 0%nat by lia.
    reflexivity.
  - intros H. destruct (Z.ltb_spec (- limit) 0); [lia|].
    exists (firstn (Z.to_nat (Z.min (- limit) n)) history).
    split; [now rewrite firstn_skipn|]. rewrite length_firstn. subst n. lia.
Qed.

(** *** Old backups *)

Lemma dt_lt_true a b :
  dt_lt a b = Ok true -> dt_utc a < dt_utc b.
Proof.
  unfold dt_lt, dt_compare. destruct (comparable a b); [|discriminate].
  cbn [rbind]. destruct (dt_utc a ?= dt_utc b) eqn:Hc; try discriminate.
  intros _. now apply Z.compare_lt_iff.
Qed.

Lemma cleanup_loop_only_stale cutoff dirs p :
  In p (cleanup_loop cutoff dirs) ->
  exists d metadata,
    In d dirs /\ bd_path d = p /\ bd_is_dir d = true /\
    bd_metadata d = Some (Ok metadata) /\
    is_stale cutoff metadata = Ok true.
Proof.
  induction dirs as [|d dirs IH]; simpl; [intros []|].
  assert (IH' : In p (cleanup_loop cutoff dirs) ->
                exists d0 metadata,
                  (d = d0 \/ In d0 dirs) /\ bd_path d0 = p /\ bd_is_dir d0 = true /\
                  bd_metadata d0 = Some (Ok metadata) /\
                  is_stale cutoff metadata = Ok true).
  { intros H. destruct (IH H) as (d0 & md & Hin & Hrest).
    exists d0, md. split; [now right|exact Hrest]. }
  destruct (bd_is_dir d) eqn:Hdir; [|exact IH'].
  destruct (bd_metadata d) as [[md|e]|] eqn:Hmd; [|intros []|exact IH'].
  destruct (is_stale cutoff md) as [[|]|e] eqn:Hst; [|exact IH'|intros []].
  intros [<-|Hin].
  - exists d, md. repeat split; try assumption. now left.
  - destruct (bd_rmtree d); [now apply IH'|destruct Hin].
Qed.

(** [cleanup_old_backups] only ever removes a directory whose
    [metadata.json] could be read and holds a timestamp that parses to a time
    strictly more than [days] days before now (the configured retention when
    no [days] is given); entries that are not directories, directories
    without metadata and backups no older than the cutoff are never
    removed, whatever else goes wrong. *)
Theorem cleanup_old_backups_removes_only_stale
    (backup_retention_days : Z) (now : datetime) (days : option Z)
    (iterdir : result (list BackupDir)) (removed : list string) (p : string) :
  cleanup_old_backups backup_retention_days now days iterdir = Ok removed ->
  In p removed ->
  exists dirs d metadata s timestamp td,
    iterdir = Ok dirs /\ In d dirs /\ bd_path d = p /\ bd_is_dir d = true /\
    bd_metadata d = Some (Ok metadata) /\
    py_getitem metadata "timestamp" = Ok (VStr s) /\
    fromisoformat s = Ok timestamp /\
    mk_timedelta (match days with
                  | Some d => d
                  | None => backup_retention_days
                  end) 0 0 0 = Ok td /\
    dt_utc timestamp < dt_utc now - td.
Proof.
  unfold cleanup_old_backups. cbv zeta.
  destruct (mk_timedelta _ 0 0 0) as [td|] eqn:Htd; cbn [rbind]; [|discriminate].
  destruct (dt_sub_td now td) as [cutoff|] eqn:Hcut; cbn [rbind]; [|discriminate].
  intros [= <-] Hin. destruct iterdir as [dirs|e]; [|destruct Hin].
  destruct (cleanup_loop_only_stale _ _ _ Hin)
    as (d & md & Hd & Hp & Hdir & Hmd & Hst).
  unfold is_stale in Hst.
  destruct (py_getitem md "timestamp") as [ts|] eqn:Hts; cbn [rbind] in Hst;
    [|discriminate].
  destruct ts as [| | | |s| | | |]; try discriminate.
  destruct (fromisoformat s) as [t|] eqn:Hparse; cbn [rbind] in Hst; [|discriminate].
  exists dirs, d, md, s, t, td. repeat split; try assumption.
  apply dt_lt_true in Hst. unfold dt_sub_td in Hcut.
  apply dt_add_utc in Hcut. lia.
Qed.

Lemma cleanup_only_stale_witness :
  exists dirs d metadata s timestamp td,
    Ok [backup_made_at "/var/backups/story-sentinel/story_20240101_000000"
          "story" "1.0.0" (naive 2024 1 1 0 0)] = Ok dirs /\
    In d dirs /\
    bd_path d = "/var/backups/story-sentinel/story_20240101_000000" /\
    bd_is_dir d = true /\
    bd_metadata d = Some (Ok metadata) /\
    py_getitem metadata "timestamp" = Ok (VStr s) /\
    fromisoformat s = Ok timestamp /\
    mk_timedelta 30 0 0 0 = Ok td /\
    dt_utc timestamp < dt_utc (naive 2024 3 31 0 0) - td.
Proof.
  apply (cleanup_old_backups_removes_only_stale 30 (naive 2024 3 31 0 0) None
           (Ok [backup_made_at "/var/backups/story-sentinel/story_20240101_000000"
                  "story" "1.0.0" (naive 2024 1 1 0 0)])
           ["/var/backups/story-sentinel/story_20240101_000000"]
           "/var/backups/story-sentinel/story_20240101_000000").
  - vm_compute. reflexivity.
  - now left.
Defined.

Lemma is_stale_made cutoff p c v t :
  dt_valid t = true -> dt_off t = None -> dt_off cutoff = None ->
  is_stale cutoff
    (VDict [ ("component", VStr c); ("timestamp", VStr (isoformat t));
             ("version", VStr v) ])
  = Ok (dt_us t <? dt_us cutoff) /\
  bd_path (backup_made_at p c v t) = p.
Proof.
  intros Hv Ht Hc. split; [|reflexivity]. unfold is_stale.
  cbn [py_getitem dict_get dict_find String.eqb Ascii.eqb Bool.eqb rbind].
  rewrite (fromisoformat_isoformat _ Hv). cbn [rbind].
  unfold dt_lt, dt_compare, comparable, dt_utc. rewrite Ht, Hc. cbn [rbind].
  unfold Z.ltb. now destruct (dt_us t ?= dt_us cutoff).
Qed.

Lemma cleanup_loop_made cutoff c v (made : list (string * datetime)) :
  dt_off cutoff = None ->
  (forall p t, In (p, t) made -> dt_valid t = true /\ dt_off t = None) ->
  cleanup_loop cutoff (map (fun pt => backup_made_at (fst pt) c v (snd pt)) made)
  = map fst (filter (fun pt => dt_us (snd pt) <? dt_us cutoff) made).
Proof.
  intros Hc. induction made as [|[p t] made IH]; intros H; [reflexivity|].
  cbn [map fst snd filter cleanup_loop backup_made_at bd_is_dir bd_metadata
       bd_rmtree bd_path].
  destruct (H p t (or_introl eq_refl)) as [Hv Ht].
  rewrite (proj1 (is_stale_made cutoff p c v t Hv Ht Hc)).
  rewrite IH by (intros p0 t0 Hin; apply (H p0 t0); now right).
  now destruct (dt_us t <? dt_us cutoff).
Qed.

(** On a backup directory that holds nothing but backups as
    [_create_backup] makes them, each with the timestamp of a naive clock
    reading, [cleanup_old_backups] removes exactly the backups made strictly
    more than [days] days before now, oldest-listed first, and keeps a backup
    made exactly [days] days ago. *)
Theorem cleanup_old_backups_on_own_backups
    (backup_retention_days days : Z) (now cutoff : datetime) (td : timedelta)
    (component version : string) (made : list (string * datetime)) :
  dt_off now = None ->
  mk_timedelta days 0 0 0 = Ok td ->
  dt_sub_td now td = Ok cutoff ->
  (forall p t, In (p, t) made -> dt_valid t = true /\ dt_off t = None) ->
  cleanup_old_backups backup_retention_days now (Some days)
    (Ok (map (fun pt => backup_made_at (fst pt) component version (snd pt)) made))
  = Ok (map fst (filter (fun pt => dt_us (snd pt) <? dt_us now - td) made)).
Proof.
  intros Hnow Htd Hcut Hmade. unfold cleanup_old_backups. cbv zeta.
  rewrite Htd. cbn [rbind]. rewrite Hcut. cbn [rbind].
  unfold dt_sub_td in Hcut. apply dt_add_ok in Hcut as [Hus Hoff].
  rewrite cleanup_loop_made by (try congruence; assumption).
  now replace (dt_us cutoff) with (dt_us now - td) by lia.
Qed.

Lemma cleanup_on_own_backups_witness :
  cleanup_old_backups 30 (naive 2024 3 31 0 0) (Some 30)
    (Ok (map (fun pt => backup_made_at (fst pt) "story" "1.0.0" (snd pt))
           [ ("/var/backups/story-sentinel/story_20240101_000000",
              naive 2024 1 1 0 0);
             ("/var/backups/story-sentinel/story_20240301_000000",
              naive 2024 3 1 0 0) ]))
  = Ok (map fst
          (filter (fun pt => dt_us (snd pt)
                             <? dt_us (naive 2024 3 31 0 0) - days 30)
             [ ("/var/backups/story-sentinel/story_20240101_000000",
                naive 2024 1 1 0 0);
               ("/var/backups/story-sentinel/story_20240301_000000",
                naive 2024 3 1 0 0) ])).
Proof.
  apply (cleanup_old_backups_on_own_backups 30 30 (naive 2024 3 31 0 0)
           (naive 2024 3 1 0 0) (days 30) "story" "1.0.0").
  - reflexivity.
  - vm_compute. reflexivity.
  - vm_compute. reflexivity.
  - intros p t [[= <- <-]|[[= <- <-]|[]]]; split; vm_compute; reflexivity.
Defined.

End BackupProps.

(* ================================================================= *)
(** ** What the probes report *)

Module ProbeProps.
Import Py Health Examples.

Lemma append_not_empty s c t : (s ++ String c t)%string <> ""%string.
Proof. destruct s; discriminate. Qed.

Lemma count_from_nonneg sub skip s : 0 <= count_from sub skip s.
Proof.
  revert skip; induction s as [|c s IH]; intros skip; [simpl; lia|].
  cbn [count_from]. destruct skip; [|apply IH].
  destruct (startswith sub (String c s)); [|apply IH].
  specialize (IH (String.length sub - 1)%nat). lia.
Qed.

Lemma rpc_block_app_hash_errors env c :
  app_hash_errors (snd (rpc_block env c)) = app_hash_errors c.
Proof.
  unfold rpc_block, bind, lift, modify, ret.
  repeat
    match goal with
    | |- context [match ?r with Ok _ => _ | Raise _ => _ end] =>
        destruct r; cbn [snd fst]
    | |- context [if ?b then _ else _] => destruct b; cbn [snd fst]
    end; reflexivity.
Qed.

Lemma scan_processes_keeps procs c :
  service_running (scan_processes procs c) = service_running c /\
  rpc_responsive (scan_processes procs c) = rpc_responsive c /\
  latest_block_time (scan_processes procs c) = latest_block_time c /\
  peer_count (scan_processes procs c) = peer_count c /\
  app_hash_errors (scan_processes procs c) = app_hash_errors c.
Proof.
  induction procs as [|[[name|] rss] procs IH]; simpl; try (now repeat split).
  destruct (_ && _); [destruct rss; now repeat split|exact IH].
Qed.

(** The checks [_check_story] holds when it computes the verdict. *)
Lemma story_verdict self env report self' :
  _check_story self env = Ok (report, self') ->
  exists checks (block_time_healthy : bool),
    0 <= app_hash_errors checks /\
    healthy report =
      service_running checks && rpc_responsive checks &&
      negb (truthy (catching_up checks)) &&
      (min_peers (thresholds (config self)) <=? peer_count checks) &&
      (app_hash_errors checks =? 0) && block_time_healthy /\
    message report =
      if negb (service_running checks) then
        (story_service_name (config self) ++ " service is not running")%string
      else if negb (rpc_responsive checks) then
        (story_service_name (config self) ++ " RPC is not responsive")%string
      else if truthy (catching_up checks) then
        (story_service_name (config self) ++ " is catching up (height "
         ++ fmt_d (latest_block_height checks) ++ ")")%string
      else if peer_count checks <? min_peers (thresholds (config self)) then
        (story_service_name (config self) ++ " has low peer count: "
         ++ fmt_d (peer_count checks))%string
      else if 0 <? app_hash_errors checks then
        (story_service_name (config self) ++ " has app hash errors")%string
      else if negb block_time_healthy then
        (story_service_name (config self) ++ " has slow block production")%string
      else ""%string.
Proof.
  unfold _check_story.
  set (c1 := if negb _ then _ else _).
  set (c2 := if service_running c1 then _ else c1).
  set (c3 := match journal_stdout env with Ok _ => _ | Raise _ => c2 end).
  set (c4 := match process_iter env with Ok _ => _ | Raise _ => c3 end).
  assert (H4 : 0 <= app_hash_errors c4).
  { assert (H1 : app_hash_errors c1 = 0).
    { subst c1. destruct (negb _); [|reflexivity].
      now destruct (is_active_stdout env). }
    assert (H2 : app_hash_errors c2 = 0).
    { subst c2. destruct (service_running c1); [|exact H1].
      now rewrite rpc_block_app_hash_errors. }
    assert (H3 : 0 <= app_hash_errors c3).
    { subst c3. destruct (journal_stdout env); [|lia].
      cbn [app_hash_errors set_app_hash_errors]. apply count_from_nonneg. }
    subst c4. destruct (process_iter env) as [procs|]; [|exact H3].
    destruct (scan_processes_keeps procs c3) as (_ & _ & _ & _ & ->).
    exact H3. }
  clearbody c4. clear c1 c2 c3.
  match goal with
  | |- rbind ?m _ = _ -> _ => destruct m as [bth|]; cbn [rbind]; [|discriminate]
  end.
  match goal with
  | |- rbind ?m _ = _ -> _ => destruct m as [times|]; cbn [rbind]; [|discriminate]
  end.
  intros H. injection H as <- _. exists c4, bth. cbn [healthy message].
  now repeat split.
Qed.

Ltac names_a_reason :=
  split; [discriminate|intros E; now apply append_not_empty in E].

(** Every report of the consensus-client probe explains itself: it is
    healthy exactly when its message is empty, so an unhealthy report always
    names a reason and a healthy one never carries a message. *)
Theorem story_report_names_its_reason
    (self self' : HealthChecker) (env : StoryProbe) (report : HealthStatus) :
  _check_story self env = Ok (report, self') ->
  (healthy report = true <-> message report = ""%string).
Proof.
  intros H. destruct (story_verdict _ _ _ _ H) as (c & bth & Hn & -> & ->).
  destruct (service_running c); cbn [negb andb]; [|names_a_reason].
  destruct (rpc_responsive c); cbn [negb andb]; [|names_a_reason].
  destruct (truthy (catching_up c)); cbn [negb andb]; [names_a_reason|].
  destruct (Z.leb_spec (min_peers (thresholds (config self))) (peer_count c))
    as [Hp|Hp].
  2:{ replace (peer_count c <? min_peers (thresholds (config self))) with true
        by (symmetry; apply Z.ltb_lt; lia).
      names_a_reason. }
  replace (peer_count c <? min_peers (thresholds (config self))) with false
    by (symmetry; apply Z.ltb_ge; lia).
  cbn [andb].
  destruct (Z.eqb_spec (app_hash_errors c) 0) as [Ha|Ha].
  2:{ replace (0 <? app_hash_errors c) with true
        by (symmetry; apply Z.ltb_lt; lia).
      names_a_reason. }
  rewrite Ha. cbn [Z.ltb Z.compare andb].
  destruct bth; cbn [negb]; [now split|names_a_reason].
Qed.

Lemma story_report_witness :
  exists report self',
    _check_story checker (story_probe (VBool true) (VStr "2024-01-01T00:00:00Z"))
    = Ok (report, self') /\
    (healthy report = true <-> message report = ""%string).
Proof.
  eexists; eexists. split; [vm_compute; reflexivity|].
  apply (story_report_names_its_reason checker
           (mkHealthChecker (config checker) [("story", utc 2024 1 1 0 0)])
           (story_probe (VBool true) (VStr "2024-01-01T00:00:00Z"))).
  vm_compute. reflexivity.
Defined.

(** The probe of a stopped service, run. *)
Lemma story_probe_stopped self env status net_info :
  service_down env ->
  exists checks,
    _check_story self (with_rpc status net_info env)
    = Ok (mkHealthStatus false (story_service_name (config self))
            (checks_dict checks) (clock env)
            (story_service_name (config self) ++ " service is not running"),
          self) /\
    checks =
      (let c := initial_checks in
       let c := match journal_stdout env with
                | Ok out => set_app_hash_errors (count "app hash" out) c
                | Raise _ => c
                end in
       match process_iter env with
       | Ok procs => scan_processes procs c
       | Raise _ => c
       end) /\
    rpc_responsive checks = false /\ peer_count checks = 0.
Proof.
  intros [Hdocker Hdown]. eexists. split; [|split; [reflexivity|]].
  - unfold _check_story, with_rpc.
    cbn [docker_mode is_active_stdout status_json net_info_json journal_stdout
         process_iter clock].
    set (docker := match docker_mode env with
                   | Some s => negb (String.eqb s "")
                   | None => false
                   end).
    assert (Hd : docker = false).
    { subst docker. destruct (docker_mode env) as [s|]; [|reflexivity].
      now rewrite Hdocker. }
    rewrite Hd. cbn [negb].
    set (c1 := match is_active_stdout env with
               | Ok out => set_service_running (String.eqb (strip out) "active")
                             initial_checks
               | Raise _ => initial_checks
               end).
    assert (H1 : c1 = initial_checks).
    { subst c1. destruct (is_active_stdout env) as [out|]; [|reflexivity].
      destruct (String.eqb_spec (strip out) "active"); [contradiction|reflexivity]. }
    rewrite H1. cbn [service_running initial_checks].
    fold initial_checks.
    set (c3 := match journal_stdout env with
               | Ok out => set_app_hash_errors (count "app hash" out) initial_checks
               | Raise _ => initial_checks
               end).
    set (c4 := match process_iter env with
               | Ok procs => scan_processes procs c3
               | Raise _ => c3
               end).
    assert (H4 : service_running c4 = false /\ latest_block_time c4 = VNone).
    { assert (H3 : service_running c3 = false /\ latest_block_time c3 = VNone)
        by (subst c3; destruct (journal_stdout env); now split).
      subst c4. destruct (process_iter env) as [procs|]; [|exact H3].
      destruct (scan_processes_keeps procs c3) as (-> & _ & -> & _). exact H3. }
    destruct H4 as [Hs Ht]. rewrite Ht, Hs. cbn [truthy rbind andb negb].
    destruct self; reflexivity.
  - cbv zeta.
    assert (H3 : forall c3,
               c3 = match journal_stdout env with
                    | Ok out => set_app_hash_errors (count "app hash" out)
                                  initial_checks
                    | Raise _ => initial_checks
                    end ->
               rpc_responsive c3 = false /\ peer_count c3 = 0)
      by (intros c3 ->; destruct (journal_stdout env); now split).
    destruct (process_iter env) as [procs|]; [|now apply H3].
    destruct (scan_processes_keeps procs
                match journal_stdout env with
                | Ok out => set_app_hash_errors (count "app hash" out)
                              initial_checks
                | Raise _ => initial_checks
                end) as (_ & -> & _ & -> & _).
    now apply H3.
Qed.

Lemma with_rpc_same env : with_rpc (status_json env) (net_info_json env) env = env.
Proof. now destruct env. Qed.

(** While the consensus-client service is reported as not running, the
    probe cannot fail: it returns a report that is unhealthy, says that the
    service is not running and shows no RPC response and no peers, and it
    leaves the remembered block times alone.  The RPC answers are not
    consulted: the outcome is the same whatever the two calls would have
    answered. *)
Theorem story_probe_of_a_stopped_service
    (self : HealthChecker) (env : StoryProbe) :
  service_down env ->
  (exists report,
     _check_story self env = Ok (report, self) /\
     healthy report = false /\
     message report
     = (story_service_name (config self) ++ " service is not running")%string /\
     dict_find "rpc_responsive" (checks report) = Some (VBool false) /\
     dict_find "peer_count" (checks report) = Some (VInt 0)) /\
  (forall status net_info,
     _check_story self (with_rpc status net_info env) = _check_story self env).
Proof.
  intros Hdown. split.
  - destruct (story_probe_stopped self env (status_json env) (net_info_json env)
                Hdown) as (c & Hrun & _ & Hrpc & Hpeers).
    rewrite with_rpc_same in Hrun. eexists. split; [exact Hrun|].
    cbn [healthy message checks]. repeat split.
    + unfold checks_dict. cbn. now rewrite Hrpc.
    + unfold checks_dict. cbn. now rewrite Hpeers.
  - intros status net_info.
    destruct (story_probe_stopped self env status net_info Hdown)
      as (c & Hrun & Hc & _).
    destruct (story_probe_stopped self env (status_json env) (net_info_json env)
                Hdown) as (c' & Hrun' & Hc' & _).
    rewrite with_rpc_same in Hrun'. rewrite Hrun, Hrun', Hc, Hc'. reflexivity.
Qed.

Lemma stopped_service_witness :
  service_down stopped_probe /\
  (exists report,
     _check_story checker stopped_probe = Ok (report, checker) /\
     healthy report = false /\
     message report = "story service is not running"%string /\
     dict_find "rpc_responsive" (checks report) = Some (VBool false) /\
     dict_find "peer_count" (checks report) = Some (VInt 0)) /\
  (forall status net_info,
     _check_story checker (with_rpc status net_info stopped_probe)
     = _check_story checker stopped_probe).
Proof.
  assert (H : service_down stopped_probe)
    by (split; [exact I|vm_compute; discriminate]).
  split; [exact H|].
  exact (story_probe_of_a_stopped_service checker stopped_probe H).
Defined.

Lemma geth_scan_processes_keeps name procs c :
  geth_service_running (geth_scan_processes name procs c) = geth_service_running c /\
  geth_rpc_responsive (geth_scan_processes name procs c) = geth_rpc_responsive c /\
  syncing (geth_scan_processes name procs c) = syncing c /\
  geth_peer_count (geth_scan_processes name procs c) = geth_peer_count c /\
  block_number (geth_scan_processes name procs c) = block_number c.
Proof.
  induction procs as [|[[n|] rss] procs IH]; simpl; try (now repeat split).
  destruct (contains name n); [destruct rss; now repeat split|exact IH].
Qed.

(** The execution-client probe explains itself in the same way: its report
    is healthy exactly when its message is empty. *)
Theorem geth_report_names_its_reason
    (self : HealthChecker) (name : string) (env : GethProbe) :
  healthy (_check_story_geth self name env) = true
  <-> message (_check_story_geth self name env) = ""%string.
Proof.
  unfold _check_story_geth. cbv zeta. cbn [healthy message].
  set (c1 := if negb _ then _ else _).
  set (c2 := if geth_service_running c1 then _ else c1).
  set (c := match geth_process_iter env with Ok _ => _ | Raise _ => c2 end).
  clearbody c. clear c1 c2.
  destruct (geth_service_running c); cbn [negb andb]; [|names_a_reason].
  destruct (geth_rpc_responsive c); cbn [negb andb]; [|names_a_reason].
  destruct (truthy (syncing c)); cbn [negb andb].
  { rewrite andb_false_r. names_a_reason. }
  rewrite andb_true_r.
  destruct (Z.leb_spec (min_peers (thresholds (config self))) (geth_peer_count c))
    as [Hp|Hp].
  - replace (geth_peer_count c <? min_peers (thresholds (config self))) with false
      by (symmetry; apply Z.ltb_ge; lia).
    now split.
  - replace (geth_peer_count c <? min_peers (thresholds (config self))) with true
      by (symmetry; apply Z.ltb_lt; lia).
    names_a_reason.
Qed.

Lemma geth_rpc_block_syncing env d r c :
  eth_syncing_json env = Ok (VDict d) ->
  dict_find "result" d = Some (VDict r) ->
  geth_service_running (snd (geth_rpc_block env c)) = geth_service_running c /\
  geth_rpc_responsive (snd (geth_rpc_block env c)) = true /\
  syncing (snd (geth_rpc_block env c)) = VBool true.
Proof.
  intros Hs Hr. unfold geth_rpc_block. rewrite Hs.
  unfold bind, lift, modify, ret. cbn [py_in py_getitem]. unfold dict_get.
  rewrite Hr.
  repeat
    match goal with
    | |- context [match ?x with Ok _ => _ | Raise _ => _ end] =>
        destruct x; cbn [snd fst]
    | |- context [if ?b then _ else _] => destruct b; cbn [snd fst]
    end; now repeat split.
Qed.

(** Whenever [eth_syncing] answers with an object, which is how the
    execution client says that it is still syncing, the report is unhealthy:
    it either says that the service is not running or that the client is
    still syncing, even when the peer count is fine and even when the
    progress figures of the answer cannot be read. *)
Theorem geth_syncing_is_unhealthy
    (self : HealthChecker) (name : string) (env : GethProbe) (d r : dict) :
  eth_syncing_json env = Ok (VDict d) ->
  dict_find "result" d = Some (VDict r) ->
  healthy (_check_story_geth self name env) = false /\
  (message (_check_story_geth self name env)
   = (name ++ " service is not running")%string \/
   exists n,
     dict_find "block_number" (checks (_check_story_geth self name env))
     = Some (VInt n) /\
     message (_check_story_geth self name env)
     = (name ++ " is still syncing (block " ++ fmt_d n ++ ")")%string).
Proof.
  intros Hs Hr. unfold _check_story_geth. cbv zeta.
  cbn [healthy message checks].
  set (c1 := if negb _ then _ else _).
  set (c2 := if geth_service_running c1 then _ else c1).
  set (c3 := match geth_process_iter env with Ok _ => _ | Raise _ => c2 end).
  assert (H3 : geth_service_running c3 = false \/
               geth_service_running c3 = true /\
               geth_rpc_responsive c3 = true /\ syncing c3 = VBool true).
  { assert (H2 : geth_service_running c2 = false \/
                 geth_service_running c2 = true /\
                 geth_rpc_responsive c2 = true /\ syncing c2 = VBool true).
    { subst c2. destruct (geth_service_running c1) eqn:Hrun; [right|now left].
      destruct (geth_rpc_block_syncing env d r c1 Hs Hr) as (-> & -> & ->).
      now rewrite Hrun. }
    subst c3. destruct (geth_process_iter env) as [procs|]; [|exact H2].
    destruct (geth_scan_processes_keeps name procs c2) as (-> & -> & -> & _).
    exact H2. }
  clearbody c3. clear c1 c2.
  destruct H3 as [-> | (-> & -> & ->)]; cbn [negb andb truthy].
  - split; [reflexivity|now left].
  - split; [now rewrite andb_false_r|].
    right. exists (block_number c3). split; reflexivity.
Qed.

Lemma geth_syncing_witness :
  healthy (_check_story_geth checker "story-geth"
             (geth_probe (VDict [("currentBlock", VStr "0x1b4")]))) = false /\
  (message (_check_story_geth checker "story-geth"
              (geth_probe (VDict [("currentBlock", VStr "0x1b4")])))
   = "story-geth service is not running"%string \/
   exists n,
     dict_find "block_number"
       (checks (_check_story_geth checker "story-geth"
                  (geth_probe (VDict [("currentBlock", VStr "0x1b4")]))))
     = Some (VInt n) /\
     message (_check_story_geth checker "story-geth"
                (geth_probe (VDict [("currentBlock", VStr "0x1b4")])))
     = ("story-geth" ++ " is still syncing (block " ++ fmt_d n ++ ")")%string).
Proof.
  apply (geth_syncing_is_unhealthy checker "story-geth"
           (geth_probe (VDict [("currentBlock", VStr "0x1b4")]))
           [ ("jsonrpc", VStr "2.0"); ("id", VInt 1);
             ("result", VDict [("currentBlock", VStr "0x1b4")]) ]
           [("currentBlock", VStr "0x1b4")]); reflexivity.
Defined.

Lemma Qlt_bool_true a b : Qlt_bool a b = true <-> (a < b)%Q.
Proof.
  unfold Qlt_bool. rewrite negb_true_iff. split.
  - intros H. apply Qnot_le_lt. intros Hle. apply Qle_bool_iff in Hle. congruence.
  - intros H. destruct (Qle_bool b a) eqn:E; [|reflexivity].
    apply Qle_bool_iff in E. now apply Qlt_not_le in H.
Qed.

Lemma Qlt_bool_false a b : Qlt_bool a b = false <-> (b <= a)%Q.
Proof. unfold Qlt_bool. rewrite negb_false_iff. apply Qle_bool_iff. Qed.

(** The system report is less careful than the two client reports.  A
    healthy report has an empty message, but the verdict asks for figures
    strictly inside their limits while the message only names figures
    strictly outside: a report is unhealthy without any message exactly when
    no figure is beyond its limit and the available memory is exactly 2 GiB,
    the free disk space is exactly the configured minimum or the CPU load is
    exactly 90 percent. *)
Theorem system_report_silent_on_the_limit
    (self : HealthChecker) (env : SystemProbe) (report : HealthStatus)
    (cpu percent : Q) (available free : Z) :
  cpu_percent env = Ok cpu ->
  memory_available env = Ok available ->
  disk_usage env = Ok (percent, free) ->
  _check_system_resources self env = Ok report ->
  (healthy report = true -> message report = ""%string) /\
  (healthy report = false /\ message report = ""%string <->
   (inject_Z 2 <= inject_Z available / GiB /\
    disk_space_min_gb (thresholds (config self)) <= inject_Z free / GiB /\
    cpu <= inject_Z 90 /\
    (inject_Z available / GiB == inject_Z 2 \/
     inject_Z free / GiB == disk_space_min_gb (thresholds (config self)) \/
     cpu == inject_Z 90))%Q).
Proof.
  intros Hcpu Hmem Hdisk. unfold _check_system_resources.
  rewrite Hcpu, Hmem, Hdisk. cbn [rbind].
  destruct (memory_percent env) as [mp|]; cbn [rbind]; [|discriminate].
  destruct (load_average env) as [[[l1 l5] l15]|]; cbn [rbind]; [|discriminate].
  intros H. injection H as <-. cbn [healthy message].
  set (mem := (inject_Z available / GiB)%Q).
  set (disk := (inject_Z free / GiB)%Q).
  set (low := disk_space_min_gb (thresholds (config self))).
  assert (Hh : Qlt_bool (inject_Z 2) mem && Qlt_bool low disk
                && Qlt_bool cpu (inject_Z 90) = true
               <-> (inject_Z 2 < mem /\ low < disk /\ cpu < inject_Z 90)%Q)
    by (rewrite !andb_true_iff, !Qlt_bool_true; tauto).
  assert (Hm : (if Qlt_bool mem (inject_Z 2) then "Low memory"
                else if Qlt_bool disk low then "Low disk space"
                else if Qlt_bool (inject_Z 90) cpu then "High CPU usage"
                else "")%string = ""%string
               <-> (inject_Z 2 <= mem /\ low <= disk /\ cpu <= inject_Z 90)%Q).
  { destruct (Qlt_bool mem (inject_Z 2)) eqn:M.
    { apply Qlt_bool_true, Qlt_not_le in M. split; [discriminate|tauto]. }
    destruct (Qlt_bool disk low) eqn:D.
    { apply Qlt_bool_true, Qlt_not_le in D. split; [discriminate|tauto]. }
    destruct (Qlt_bool (inject_Z 90) cpu) eqn:C.
    { apply Qlt_bool_true, Qlt_not_le in C. split; [discriminate|tauto]. }
    apply Qlt_bool_false in M, D, C. tauto. }
  destruct (Qlt_bool (inject_Z 2) mem && Qlt_bool low disk
            && Qlt_bool cpu (inject_Z 90)) eqn:Hv.
  - destruct Hh as [Hh _]. destruct (Hh eq_refl) as (H2 & Hl & H90).
    split.
    + intros _. apply Hm. repeat split; now apply Qlt_le_weak.
    + split; [intros [[=] _]|].
      intros (_ & _ & _ & [E|[E|E]]); exfalso.
      * apply (Qlt_not_eq _ _ H2). now symmetry.
      * apply (Qlt_not_eq _ _ Hl). now symmetry.
      * now apply (Qlt_not_eq _ _ H90).
  - split; [discriminate|]. split.
    + intros [_ E]. apply Hm in E. destruct E as (H2 & Hl & H90).
      repeat (split; [assumption|]).
      destruct (Qlt_le_dec (inject_Z 2) mem) as [S2|S2];
        [|left; now apply Qle_antisym].
      destruct (Qlt_le_dec low disk) as [Sl|Sl];
        [|right; left; now apply Qle_antisym].
      destruct (Qlt_le_dec cpu (inject_Z 90)) as [S90|S90];
        [|right; right; now apply Qle_antisym].
      destruct Hh as [_ Hh]. discriminate Hh. now repeat split.
    + intros (H2 & Hl & H90 & _). split; [reflexivity|]. apply Hm.
      now repeat split.
Qed.

Lemma system_report_witness :
  exists report,
    _check_system_resources checker two_gib_free = Ok report /\
    healthy report = false /\ message report = ""%string.
Proof.
  eexists. split; [vm_compute; reflexivity|].
  eapply (system_report_silent_on_the_limit checker two_gib_free _
            (inject_Z 12) (inject_Z 50)
            (2 * 1024 * 1024 * 1024) (100 * 1024 * 1024 * 1024)
            eq_refl eq_refl eq_refl).
  - vm_compute. reflexivity.
  - repeat split; try (left; reflexivity); vm_compute; discriminate.
Defined.

End ProbeProps.
